(** * Landsraad bot: house registry, sector map and weekly cycle

    A shallow embedding of [landsraad_bot_enhanced.py].  The SQLite tables the
    bot reads and writes are lists of typed rows in rowid order; every SQL
    statement of the source is a function on those lists, and every handler
    threads the database through the statements it executes, in the order it
    executes them.  Values the source reads from outside (the clock, the
    acting user, the text typed into a form) are arguments. *)

From Stdlib Require Import ZArith List String Ascii Bool Lia Permutation.
From Stdlib Require Import SpecFloat.
From Stdlib Require Import Sorted.
Import ListNotations.

Open Scope string_scope.
Open Scope list_scope.
Open Scope Z_scope.

(** ** Text helpers: the ASCII fragment of Python's [str] methods and of
    SQLite's [LOWER].

    Strings are byte strings (UTF-8).  SQLite's [LOWER] folds only the ASCII
    letters, which is what [lower] does on every string.  Python's
    [str.lower], [str.upper] and [str.strip] work on code points: they agree
    with [lower], [upper] and [strip] on ASCII text ([is_ascii]), and differ
    on some text beyond it (U+212A lowers to the letter k, U+00A0 is
    stripped).  Where a handler applies the Python methods to text a user
    typed, the statements below are about ASCII text. *)
Module Text.


Definition lower_char (c : ascii) : ascii :=
  let n := N_of_ascii c in
  if ((65 <=? n) && (n <=? 90))%N then ascii_of_N (n + 32) else c.

Fixpoint lower (s : string) : string :=
  match s with
  | EmptyString => EmptyString
  | String c s' => String (lower_char c) (lower s')
  end.

Definition upper_char (c : ascii) : ascii :=
  let n := N_of_ascii c in
  if ((97 <=? n) && (n <=? 122))%N then ascii_of_N (n - 32) else c.

Fixpoint upper (s : string) : string :=
  match s with
  | EmptyString => EmptyString
  | String c s' => String (upper_char c) (upper s')
  end.

(** [c in s] for a single character [c]. *)
Fixpoint char_in (c : ascii) (s : string) : bool :=
  match s with
  | EmptyString => false
  | String d s' => Ascii.eqb c d || char_in c s'
  end.

(** [str.isspace] on an ASCII character: TAB, LF, VT, FF, CR, the four
    separators 28..31 and the space. *)
Definition is_space (c : ascii) : bool :=
  let n := N_of_ascii c in
  (((9 <=? n) && (n <=? 13)) || ((28 <=? n) && (n <=? 32)))%N.

Fixpoint lstrip (s : string) : string :=
  match s with
  | EmptyString => EmptyString
  | String c s' => if is_space c then lstrip s' else s
  end.

Fixpoint rstrip (s : string) : string :=
  match s with
  | EmptyString => EmptyString
  | String c s' =>
      match rstrip s' with
      | EmptyString => if is_space c then EmptyString else String c EmptyString
      | r => String c r
      end
  end.

Definition strip (s : string) : string := rstrip (lstrip s).

(** Python's [x in [a; b; ...]] on strings. *)
Definition mem (x : string) (l : list string) : bool :=
  existsb (String.eqb x) l.

(** [c * n] for a string [c] and an integer [n]: empty when [n <= 0]. *)
Fixpoint repeat_nat (c : string) (n : nat) : string :=
  match n with
  | O => EmptyString
  | S n' => (c ++ repeat_nat c n')%string
  end.

Definition repeat (c : string) (n : Z) : string := repeat_nat c (Z.to_nat n).

Definition digit_char (d : Z) : ascii := ascii_of_N (48 + Z.to_N d).

(** Decimal digits of a non-negative integer, most significant first;
    [fuel] bounds the number of digits. *)
Fixpoint digits_fuel (fuel : nat) (n : Z) (acc : string) : string :=
  match fuel with
  | O => acc
  | S fuel' =>
      let acc' := String (digit_char (n mod 10)) acc in
      if n <? 10 then acc' else digits_fuel fuel' (n / 10) acc'
  end.

(** [str(n)] for an integer. *)
Definition str_int (n : Z) : string :=
  let a := Z.abs n in
  let body := digits_fuel (S (Z.to_nat (Z.log2 a))) a EmptyString in
  if n <? 0 then String "-" body else body.

Definition nl : string := String (ascii_of_N 10) EmptyString.

End Text.

(** ** Outcomes of Python code that may raise *)

Inductive exn : Type :=
  | ValueError
  | ZeroDivisionError
  | OverflowError
  | OperationalError.

Inductive result (A : Type) : Type :=
  | Ok (a : A)
  | Raise (e : exn).

Arguments Ok {A} a.
Arguments Raise {A} e.

Definition bind {A B : Type} (r : result A) (k : A -> result B) : result B :=
  match r with
  | Ok a => k a
  | Raise e => Raise e
  end.

Notation "x <- r ;; k" := (bind r (fun x => k))
  (at level 61, r at next level, right associativity).

(** ** The persistent store *)

(** A value bound to a [?] placeholder of an UPDATE. *)
Inductive Value : Type :=
  | VNull
  | VInt (z : Z)
  | VText (s : string).

(** A row of table [houses], columns in declaration order (the order of
    the tuples [SELECT *] returns). *)
Record House : Type := mkHouse {
  house_id : Z;
  name : string;
  quest : option string;
  current_goal : Z;
  goal : Z;
  points_per_delivery : Z;
  is_locked : Z;
  completed_by : option string;
  notes : option string;
  desert_location : option string;
  alliance : option string;
  deep_desert_cp : Z;
  last_updated : string;
  updated_by : string
}.

(** A row of table [reset_log]. *)
Record ResetLog : Type := mkResetLog {
  log_id : Z;
  reset_date : string;
  reset_by : string;
  houses_reset : Z;
  houses_completed : Z
}.

(** A row of table [deep_desert_sectors]. *)
Record Sector : Type := mkSector {
  sector_id : string;
  row_letter : string;
  col_number : Z;
  survey_status : string;
  last_surveyed : option string;
  surveyed_by : option string;
  sector_notes : option string
}.

(** Rows of the four point-of-interest tables. *)
Record GuildBase : Type := mkGuildBase {
  gb_id : Z;
  gb_guild_name : string;
  gb_sector_id : string;
  gb_coordinates : option string;
  gb_base_type : option string;
  gb_alliance : option string;
  gb_discovered_date : string;
  gb_discovered_by : option string;
  gb_is_active : Z;
  gb_notes : option string
}.

Record SpiceLocation : Type := mkSpiceLocation {
  sp_id : Z;
  sp_sector_id : string;
  sp_spice_type : string;
  sp_size : option string;
  sp_coordinates : option string;
  sp_discovered_date : string;
  sp_discovered_by : option string;
  sp_last_verified : option string;
  sp_is_depleted : Z;
  sp_estimated_yield : option Z;
  sp_notes : option string
}.

Record LandsraadPoint : Type := mkLandsraadPoint {
  lp_id : Z;
  lp_sector_id : string;
  lp_point_name : option string;
  lp_current_controller : option string;
  lp_coordinates : option string;
  lp_tier : option Z;
  lp_last_captured : option string;
  lp_captured_by : option string;
  lp_defense_rating : option Z;
  lp_notes : option string
}.

Record ResourceLocation : Type := mkResourceLocation {
  rl_id : Z;
  rl_sector_id : string;
  rl_resource_type : string;
  rl_concentration : option string;
  rl_coordinates : option string;
  rl_discovered_date : string;
  rl_discovered_by : option string;
  rl_last_verified : option string;
  rl_is_exhausted : Z;
  rl_extraction_difficulty : option Z;
  rl_notes : option string
}.

(** The database: each table with its rows in rowid order.  [seq_*] is the
    [sqlite_sequence] counter of an AUTOINCREMENT key, the largest key the
    table ever held. *)
Record Database : Type := mkDatabase {
  houses : list House;
  seq_houses : Z;
  reset_log : list ResetLog;
  seq_reset_log : Z;
  sectors : list Sector;
  guild_bases : list GuildBase;
  seq_guild_bases : Z;
  spice_locations : list SpiceLocation;
  seq_spice_locations : Z;
  landsraad_points : list LandsraadPoint;
  seq_landsraad_points : Z;
  resource_locations : list ResourceLocation;
  seq_resource_locations : Z
}.

Definition with_houses (hs : list House) (sq : Z) (db : Database) : Database :=
  mkDatabase hs sq (reset_log db) (seq_reset_log db) (sectors db)
    (guild_bases db) (seq_guild_bases db)
    (spice_locations db) (seq_spice_locations db)
    (landsraad_points db) (seq_landsraad_points db)
    (resource_locations db) (seq_resource_locations db).

Definition with_reset_log (l : list ResetLog) (sq : Z) (db : Database) : Database :=
  mkDatabase (houses db) (seq_houses db) l sq (sectors db)
    (guild_bases db) (seq_guild_bases db)
    (spice_locations db) (seq_spice_locations db)
    (landsraad_points db) (seq_landsraad_points db)
    (resource_locations db) (seq_resource_locations db).

Definition with_sectors (l : list Sector) (db : Database) : Database :=
  mkDatabase (houses db) (seq_houses db) (reset_log db) (seq_reset_log db) l
    (guild_bases db) (seq_guild_bases db)
    (spice_locations db) (seq_spice_locations db)
    (landsraad_points db) (seq_landsraad_points db)
    (resource_locations db) (seq_resource_locations db).

Definition with_guild_bases (l : list GuildBase) (sq : Z) (db : Database) : Database :=
  mkDatabase (houses db) (seq_houses db) (reset_log db) (seq_reset_log db)
    (sectors db) l sq
    (spice_locations db) (seq_spice_locations db)
    (landsraad_points db) (seq_landsraad_points db)
    (resource_locations db) (seq_resource_locations db).

Definition with_spice_locations (l : list SpiceLocation) (sq : Z) (db : Database) : Database :=
  mkDatabase (houses db) (seq_houses db) (reset_log db) (seq_reset_log db)
    (sectors db) (guild_bases db) (seq_guild_bases db) l sq
    (landsraad_points db) (seq_landsraad_points db)
    (resource_locations db) (seq_resource_locations db).

Definition with_landsraad_points (l : list LandsraadPoint) (sq : Z) (db : Database) : Database :=
  mkDatabase (houses db) (seq_houses db) (reset_log db) (seq_reset_log db)
    (sectors db) (guild_bases db) (seq_guild_bases db)
    (spice_locations db) (seq_spice_locations db) l sq
    (resource_locations db) (seq_resource_locations db).

Definition with_resource_locations (l : list ResourceLocation) (sq : Z) (db : Database) : Database :=
  mkDatabase (houses db) (seq_houses db) (reset_log db) (seq_reset_log db)
    (sectors db) (guild_bases db) (seq_guild_bases db)
    (spice_locations db) (seq_spice_locations db)
    (landsraad_points db) (seq_landsraad_points db) l sq.

(** The key an AUTOINCREMENT column gives the next inserted row: one more
    than the largest key the table holds or ever held. *)
Definition next_key (keys : list Z) (sq : Z) : Z :=
  fold_right Z.max sq keys + 1.

(** Alliance constants. *)
Definition ATREIDES : string := "Atreides".
Definition HARKONNEN : string := "Harkonnen".

(** Python truthiness of an optional string: [None] and the empty string
    are false. *)
Definition truthy (o : option string) : bool :=
  match o with
  | None => false
  | Some s => negb (String.eqb s "")
  end.

(** [x or d] for an optional string. *)
Definition or_default (o : option string) (d : string) : string :=
  match o with
  | Some s => if String.eqb s "" then d else s
  | None => d
  end.

Definition opt_eqb (o : option string) (s : string) : bool :=
  match o with
  | Some x => String.eqb x s
  | None => false
  end.

(** ** House registry *)

(** [WHERE LOWER(name) = LOWER(?)]. *)
Definition name_matches (house_name : string) (h : House) : bool :=
  String.eqb (Text.lower (name h)) (Text.lower house_name).

(** [SELECT * FROM houses WHERE LOWER(name) = LOWER(?)], [fetchone]. *)
Definition get_house_data (house_name : string) (db : Database) : option House :=
  find (name_matches house_name) (houses db).

(** [SET last_updated = CURRENT_TIMESTAMP, updated_by = ?]. *)
Definition stamp (now who : string) (h : House) : House :=
  mkHouse (house_id h) (name h) (quest h) (current_goal h) (goal h)
    (points_per_delivery h) (is_locked h) (completed_by h) (notes h)
    (desert_location h) (alliance h) (deep_desert_cp h) now who.

Definition set_alliance (a : option string) (h : House) : House :=
  mkHouse (house_id h) (name h) (quest h) (current_goal h) (goal h)
    (points_per_delivery h) (is_locked h) (completed_by h) (notes h)
    (desert_location h) a (deep_desert_cp h) (last_updated h) (updated_by h).

(** [cursor.rowcount] of an UPDATE with the given WHERE clause. *)
Definition rowcount (p : House -> bool) (hs : list House) : Z :=
  Z.of_nat (List.length (filter p hs)).

(** An UPDATE of table [houses]: [f] on the rows the WHERE clause selects. *)
Definition update_where (p : House -> bool) (f : House -> House)
    (hs : list House) : list House :=
  map (fun h => if p h then f h else h) hs.

(** [claim_house_for_alliance]: one UPDATE that sets [alliance] and the two
    stamps on the rows whose name matches, and reports whether a row did. *)
Definition claim_house_for_alliance (house_name : string)
    (alliance_arg : option string) (claimed_by now : string)
    (db : Database) : Database * bool :=
  let p := name_matches house_name in
  let hs := update_where p
              (fun h => stamp now claimed_by (set_alliance alliance_arg h))
              (houses db) in
  let success := 0 <? rowcount p (houses db) in
  (with_houses hs (seq_houses db) db, success).

(** The roster of [populate_initial_houses]. *)
Definition initial_houses : list string :=
  [ "Alexin"; "Argosaz"; "Dyvets"; "Ecaz"; "Hagal"; "Hurata";
    "Imota"; "Kenola"; "Lindaren"; "Maros"; "Mikarrol"; "Moritani"; "Mutelli";
    "Novebruns"; "Richese"; "Sor"; "Spinnette"; "Taligari"; "Thorvald";
    "Tseida"; "Varota"; "Vernius"; "Wallach"; "Wayku"; "Wydras" ].

(** The row [INSERT INTO houses (name) VALUES (?)] creates: every other
    column takes the default of the table declaration. *)
Definition default_house (key : Z) (n now : string) : House :=
  mkHouse key n (Some "Unknown") 0 70000 1 1 None None None None 0 now "System".

(** [INSERT OR IGNORE INTO houses (name) VALUES (?)]: ignored when a row
    with that exact name exists (column [name] is UNIQUE, compared
    bytewise).  SQLite picks the AUTOINCREMENT key before it checks the
    constraint, so the counter of the table advances on an ignored insert
    as well. *)
Definition insert_or_ignore_house (now : string) (st : list House * Z)
    (n : string) : list House * Z :=
  let '(hs, sq) := st in
  let key := next_key (map house_id hs) sq in
  if existsb (fun h => String.eqb (name h) n) hs then (hs, key)
  else (hs ++ [default_house key n now], key).

(** [populate_initial_houses]: delete the rows whose name is not in the
    roster, then insert the roster, ignoring the names already there. *)
Definition populate_initial_houses (now : string) (db : Database) : Database :=
  let kept := filter (fun h => Text.mem (name h) initial_houses) (houses db) in
  let '(hs, sq) :=
    fold_left (insert_or_ignore_house now) initial_houses (kept, seq_houses db) in
  with_houses hs sq db.

(** [ORDER BY name]: rows sorted by name, bytewise; rows with the same name
    keep their order. *)
Fixpoint insert_by_name (h : House) (sorted : list House) : list House :=
  match sorted with
  | [] => [h]
  | x :: rest =>
      if String.ltb (name h) (name x) then h :: sorted
      else x :: insert_by_name h rest
  end.

(** [get_all_houses]: [SELECT * FROM houses ORDER BY name]. *)
Definition get_all_houses (db : Database) : list House :=
  fold_left (fun sorted h => insert_by_name h sorted) (houses db) [].

Definition allowed_fields : list string :=
  [ "quest"; "current_goal"; "points_per_delivery"; "is_locked";
    "completed_by"; "notes"; "desert_location"; "alliance"; "deep_desert_cp" ].

(** What a TEXT column holds after a value is written to it: integers are
    stored as their decimal text. *)
Definition stored_text (v : Value) : option string :=
  match v with
  | VNull => None
  | VInt z => Some (Text.str_int z)
  | VText s => Some s
  end.

(** What an INTEGER column holds after an integer is written to it.  The
    callers write integers to the integer columns; the typed row has no
    cell for what SQLite would keep of a text or NULL bound to such a
    column (a converted number, the text itself, or NULL), and shows the
    column as it was. *)
Definition stored_int (old : Z) (v : Value) : Z :=
  match v with
  | VInt z => z
  | _ => old
  end.

(** [SET {field} = ?] on one row. *)
Definition set_field (field : string) (v : Value) (h : House) : House :=
  let q := if String.eqb field "quest" then stored_text v else quest h in
  let cg := if String.eqb field "current_goal" then stored_int (current_goal h) v
            else current_goal h in
  let ppd := if String.eqb field "points_per_delivery"
             then stored_int (points_per_delivery h) v else points_per_delivery h in
  let lk := if String.eqb field "is_locked" then stored_int (is_locked h) v
            else is_locked h in
  let cb := if String.eqb field "completed_by" then stored_text v else completed_by h in
  let nt := if String.eqb field "notes" then stored_text v else notes h in
  let dl := if String.eqb field "desert_location" then stored_text v
            else desert_location h in
  let al := if String.eqb field "alliance" then stored_text v else alliance h in
  let cp := if String.eqb field "deep_desert_cp" then stored_int (deep_desert_cp h) v
            else deep_desert_cp h in
  mkHouse (house_id h) (name h) q cg (goal h) ppd lk cb nt dl al cp
    (last_updated h) (updated_by h).

(** An integer SQLite can store: binding any other raises
    [OverflowError]. *)
Definition fits_int64 (z : Z) : bool :=
  (- 2 ^ 63 <=? z) && (z <? 2 ^ 63).

(** A value [cursor.execute] can bind to a placeholder. *)
Definition bindable (v : Value) : bool :=
  match v with
  | VInt z => fits_int64 z
  | _ => true
  end.

(** The UPDATE statement of [update_house_data], its values bound: the
    field and the two stamps on the rows whose name matches, and whether
    [cursor.rowcount] is positive. *)
Definition execute_update (house_name field : string) (value : Value)
    (updated_by_arg now : string) (db : Database) : Database * bool :=
  let p := name_matches house_name in
  let hs := update_where p
              (fun h => stamp now updated_by_arg (set_field field value h))
              (houses db) in
  (with_houses hs (seq_houses db) db, 0 <? rowcount p (houses db)).

(** [update_house_data]: refuses a field outside the whitelist; otherwise
    one UPDATE of that field and the two stamps.  An integer outside 64
    bits cannot be bound: [execute] raises and nothing is written. *)
Definition update_house_data (house_name field : string) (value : Value)
    (updated_by_arg now : string) (db : Database)
    : result (Database * bool) :=
  if negb (Text.mem field allowed_fields) then Ok (db, false)
  else if negb (bindable value) then Raise OverflowError
  else Ok (execute_update house_name field value updated_by_arg now db).

(** ** Parsing integers: [int(s)] *)
Module PyInt.

Definition is_digit (c : ascii) : bool :=
  let n := N_of_ascii c in ((48 <=? n) && (n <=? 57))%N.

Definition digit_val (c : ascii) : Z := Z.of_N (N_of_ascii c) - 48.

(** Digits with single underscores between them; [prev] tells whether the
    previous character was a digit. *)
Fixpoint digits (s : string) (acc : Z) (prev : bool) : result Z :=
  match s with
  | EmptyString => if prev then Ok acc else Raise ValueError
  | String c s' =>
      if is_digit c then digits s' (acc * 10 + digit_val c) true
      else if Ascii.eqb c "_" then
        if prev then digits s' acc false else Raise ValueError
      else Raise ValueError
  end.

(** [int(s)] in base ten: surrounding white space, an optional sign, then
    the digits.  Anything else raises [ValueError].  This is Python's [int]
    on ASCII text of the lengths a form field can hold (Python also reads
    the decimal digits and the white space of other scripts, and refuses
    more than 4300 digits; a form field holds at most 4000 characters). *)
Definition int (s : string) : result Z :=
  match Text.strip s with
  | String "+" r => digits r 0 false
  | String "-" r => z <- digits r 0 false ;; Ok (- z)
  | t => digits t 0 false
  end.

End PyInt.

(** ** Replies sent back to the chat platform

    Each constructor stands for one message of the source; the embed and
    the view a message carries are left out. *)
Inductive Reply : Type :=
  | house_unlocked              (* "House ... has been unlocked!" *)
  | invalid_ppd                 (* "Invalid Points Per Delivery value. Please enter a number." *)
  | error_occurred              (* "An error occurred: ..." *)
  | invalid_faction             (* "Invalid faction. Use 'Atreides' or 'Harkonnen'." *)
  | house_not_found             (* "House '...' not found." *)
  | house_claimed (a : string)  (* "House ... has been claimed by ...!", edited into the panel message *)
  | house_claimed_progress (a : string) (current goal_arg : Z)
      (* "House ... has been claimed by ...!" and "Current progress: .../...", sent by [/claim_house] *)
  | house_unclaimed             (* "House ... has been unclaimed!" *)
  | failed_to_claim             (* "Failed to claim house." / "Failed to unclaim house." *)
  | alliance_cleared            (* "Cleared alliance for House ..." *)
  | alliance_set (a : string)   (* "Set House ... alliance to ..." *)
  | invalid_alliance            (* "Invalid alliance. Use 'Atreides', 'Harkonnen', or 'none'" *)
  | reset_complete (claimed : Z) (* "Weekly reset complete! ... N houses were claimed last week" *)
  | invalid_sector_id           (* "Invalid sector ID" *)
  | invalid_type                (* "Invalid type. Use: base/spice/landsraad/resource" *)
  | location_added              (* "Added ... to sector ...!" and the four "... added to sector ...!" *)
  | sector_marked.              (* "Sector ... marked as fully surveyed!" *)

(** The row the weekly reset's UPDATE leaves: it has no WHERE clause and
    touches neither [goal], [points_per_delivery] nor [notes]. *)
Definition reset_house (now who : string) (h : House) : House :=
  mkHouse (house_id h) (name h) (Some "Unknown") 0 (goal h)
    (points_per_delivery h) 1 None (notes h) None None 0 now who.

Definition is_not_null {A : Type} (o : option A) : bool :=
  match o with
  | Some _ => true
  | None => false
  end.

(** [ConfirmResetView.confirm_reset]: count the claimed houses, reset every
    row, log the reset. *)
Definition confirm_reset (user now_update now_log : string) (db : Database)
    : Database * Reply :=
  let claimed_count :=
    Z.of_nat (List.length (filter (fun h => is_not_null (alliance h)) (houses db))) in
  let db1 := with_houses (map (reset_house now_update user) (houses db))
               (seq_houses db) db in
  let key := next_key (map log_id (reset_log db1)) (seq_reset_log db1) in
  let db2 := with_reset_log
               (reset_log db1 ++ [mkResetLog key now_log user 25 claimed_count])
               key db1 in
  (db2, reset_complete claimed_count).

(** ** Claim and set-alliance actions *)

(** The three claim buttons of [HouseActionView]. *)
Definition claim_atreides_callback (house_name user now : string) (db : Database)
    : Database * Reply :=
  let '(db', success) :=
    claim_house_for_alliance house_name (Some ATREIDES) user now db in
  if success then (db', house_claimed ATREIDES) else (db', failed_to_claim).

Definition claim_harkonnen_callback (house_name user now : string) (db : Database)
    : Database * Reply :=
  let '(db', success) :=
    claim_house_for_alliance house_name (Some HARKONNEN) user now db in
  if success then (db', house_claimed HARKONNEN) else (db', failed_to_claim).

Definition unclaim_house_callback (house_name user now : string) (db : Database)
    : Database * Reply :=
  let '(db', success) := claim_house_for_alliance house_name None user now db in
  if success then (db', house_unclaimed) else (db', failed_to_claim).

(** [/claim_house]. *)
Definition slash_claim_house (house faction user now : string) (db : Database)
    : Database * Reply :=
  let faction := Text.lower (Text.strip faction) in
  if negb (Text.mem faction ["atreides"; "harkonnen"; "a"; "h"]) then
    (db, invalid_faction)
  else
    match get_house_data house db with
    | None => (db, house_not_found)
    | Some house_data =>
        let alliance_arg :=
          if Text.mem faction ["atreides"; "a"] then ATREIDES else HARKONNEN in
        let '(db', success) :=
          claim_house_for_alliance house (Some alliance_arg) user now db in
        if success then
          (db', house_claimed_progress alliance_arg (current_goal house_data)
                  (goal house_data))
        else (db', failed_to_claim)
    end.

(** [/set_alliance].  An exception of the UPDATE would leave the command
    to the error handler of the command tree. *)
Definition slash_set_alliance (house alliance_arg user now : string)
    (db : Database) : Database * Reply :=
  match get_house_data house db with
  | None => (db, house_not_found)
  | Some house_data =>
      let a := Text.lower (Text.strip alliance_arg) in
      let write (v : Value) (reply : Reply) :=
        match update_house_data house "alliance" v user now db with
        | Ok (db', _) => (db', reply)
        | Raise _ => (db, error_occurred)
        end in
      if Text.mem a ["none"; "null"; "clear"; ""] then
        write VNull alliance_cleared
      else if Text.mem a ["atreides"; "a"] then
        write (VText ATREIDES) (alliance_set ATREIDES)
      else if Text.mem a ["harkonnen"; "h"] then
        write (VText HARKONNEN) (alliance_set HARKONNEN)
      else (db, invalid_alliance)
  end.

(** ** Weekly schedule *)
Module Schedule.

(** A [datetime] in the bot's time zone.  The date is its proleptic
    Gregorian ordinal ([date.toordinal()]); the [tzinfo] the source attaches
    is the same object on every value it builds (arithmetic and [replace]
    keep it), so comparisons are on the wall-clock fields. *)
Record datetime : Type := mkDatetime {
  ordinal : Z;
  hour : Z;
  minute : Z;
  second : Z;
  microsecond : Z
}.

Definition valid (d : datetime) : Prop :=
  0 <= hour d < 24 /\ 0 <= minute d < 60 /\ 0 <= second d < 60 /\
  0 <= microsecond d < 1000000.

(** [weekday()]: Monday is 0; ordinal 1 is a Monday. *)
Definition weekday (d : datetime) : Z := (ordinal d + 6) mod 7.

(** Microseconds since midnight of ordinal 0. *)
Definition to_us (d : datetime) : Z :=
  (((ordinal d * 24 + hour d) * 60 + minute d) * 60 + second d) * 1000000
  + microsecond d.

Definition of_us (n : Z) : datetime :=
  mkDatetime (n / 86400000000) ((n / 3600000000) mod 24)
    ((n / 60000000) mod 60) ((n / 1000000) mod 60) (n mod 1000000).

(** [d + timedelta(days=days, hours=hours)]. *)
Definition add_timedelta (d : datetime) (days hours : Z) : datetime :=
  of_us (to_us d + days * 86400000000 + hours * 3600000000).

(** [d.replace(hour=h, minute=m, second=0, microsecond=0)]. *)
Definition replace (d : datetime) (h m : Z) : datetime :=
  mkDatetime (ordinal d) h m 0 0.

(** [a >= b]. *)
Definition geb (a b : datetime) : bool := to_us b <=? to_us a.

(** [get_next_weekday]; [now] is the reading of [datetime.now(PST)]. *)
Definition get_next_weekday (target_weekday target_hour target_minute : Z)
    (now : datetime) : datetime :=
  let days_ahead := target_weekday - weekday now in
  let days_ahead :=
    if days_ahead <? 0 then days_ahead + 7
    else if days_ahead =? 0 then
      let target_time := replace now target_hour target_minute in
      if geb now target_time then 7 else days_ahead
    else days_ahead in
  let target_date := add_timedelta now days_ahead 0 in
  replace target_date target_hour target_minute.

Record events : Type := mkEvents {
  coriolis_start : datetime;
  coriolis_end : datetime;
  landsraad_new_term : datetime;
  voting_start : datetime;
  voting_end : datetime
}.

(** [calculate_schedule_events]; the two calls of [get_next_weekday] read
    the clock one after the other: [now1], then [now2]. *)
Definition calculate_schedule_events (now1 now2 : datetime) : events :=
  let coriolis_start := get_next_weekday 0 17 0 now1 in
  let coriolis_end := add_timedelta coriolis_start 0 10 in
  let landsraad_new_term := coriolis_end in
  let voting_start := get_next_weekday 5 18 0 now2 in
  let voting_end := add_timedelta voting_start 0 24 in
  mkEvents coriolis_start coriolis_end landsraad_new_term voting_start voting_end.

(** The rule as the specification words it: take this week's occurrence of
    the weekday and time (weeks run Monday to Sunday); if it is not after
    [now], roll forward seven days. *)
Definition this_week_occurrence (target_weekday target_hour target_minute : Z)
    (now : datetime) : datetime :=
  mkDatetime (ordinal now - weekday now + target_weekday)
    target_hour target_minute 0 0.

Definition next_occurrence_spec (target_weekday target_hour target_minute : Z)
    (now : datetime) : datetime :=
  let occ := this_week_occurrence target_weekday target_hour target_minute now in
  if to_us occ <=? to_us now
  then mkDatetime (ordinal occ + 7) target_hour target_minute 0 0
  else occ.

End Schedule.

(** ** Python floats: IEEE 754 binary64, round to nearest even *)
Module PyFloat.

Definition prec : Z := 53.
Definition emax : Z := 1024.

Definition float : Type := spec_float.

(** An integer as an exact, not yet rounded, operand. *)
Definition exact (z : Z) : spec_float :=
  match z with
  | Z0 => S754_zero false
  | Zpos p => S754_finite false p 0
  | Zneg p => S754_finite true p 0
  end.

(** [float(z)]. *)
Definition of_int (z : Z) : float := binary_normalize prec emax z 0 false.

(** [a / b] on integers: the correctly rounded quotient;
    [ZeroDivisionError] when [b] is zero, [OverflowError] when the quotient
    is beyond the largest float. *)
Definition truediv (a b : Z) : result float :=
  if b =? 0 then Raise ZeroDivisionError
  else
    match SFdiv prec emax (exact a) (exact b) with
    | S754_infinity _ => Raise OverflowError
    | q => Ok q
    end.

(** [x * n] and [x / n] for a float [x] and a non-zero integer literal [n]. *)
Definition mul_int (x : float) (n : Z) : float := SFmul prec emax x (of_int n).
Definition div_int (x : float) (n : Z) : float := SFdiv prec emax x (of_int n).

(** [min(n, x)] for an integer literal [n] first: [x] when [x < n]. *)
Definition min_int (n : Z) (x : float) : float :=
  if SFltb x (of_int n) then x else of_int n.

(** [int(x)]: truncation toward zero; raises on NaN and the infinities. *)
Definition to_int (x : float) : result Z :=
  match x with
  | S754_zero _ => Ok 0
  | S754_finite s m e =>
      let a := if 0 <=? e then Zpos m * 2 ^ e else Zpos m / 2 ^ (- e) in
      Ok (if s then - a else a)
  | S754_infinity _ => Raise OverflowError
  | S754_nan => Raise ValueError
  end.

(** The integer nearest to [n * 2^e], ties to even. *)
Definition round_half_even (n e : Z) : Z :=
  if 0 <=? e then n * 2 ^ e
  else
    let d := 2 ^ (- e) in
    let q := n / d in
    let r := n mod d in
    if 2 * r <? d then q
    else if 2 * r =? d then (if Z.even q then q else q + 1)
    else q + 1.

(** [format(x, '.1f')]: the exact value rounded to one decimal, ties to
    even. *)
Definition format_1f (x : float) : string :=
  match x with
  | S754_nan => "nan"
  | S754_infinity s => if s then "-inf" else "inf"
  | S754_zero s => if s then "-0.0" else "0.0"
  | S754_finite s m e =>
      let t := round_half_even (10 * Zpos m) e in
      ((if s then "-" else "") ++ Text.str_int (t / 10) ++ "."
       ++ Text.str_int (t mod 10))%string
  end.

End PyFloat.

(** ** Display derivations *)

(** [create_progress_bar]. *)
Definition create_progress_bar (current max_val : Z) : result string :=
  if max_val <=? 0 then Ok "[░░░░░░░░░░░░░░░░░░░░] 0.0%"
  else
    ratio <- PyFloat.truediv current max_val ;;
    let percentage := PyFloat.min_int 100 (PyFloat.mul_int ratio 100) in
    filled <- PyFloat.to_int (PyFloat.div_int percentage 5) ;;
    let empty := 20 - filled in
    Ok ("[" ++ Text.repeat "█" filled ++ Text.repeat "░" empty ++ "] "
        ++ PyFloat.format_1f percentage ++ "%")%string.

(** The cells of the bar, for statements about the filled and empty
    counts: the two numbers [create_progress_bar] computes. *)
Definition progress_bar_cells (current max_val : Z) : result (Z * Z) :=
  if max_val <=? 0 then Ok (0, 20)
  else
    ratio <- PyFloat.truediv current max_val ;;
    let percentage := PyFloat.min_int 100 (PyFloat.mul_int ratio 100) in
    filled <- PyFloat.to_int (PyFloat.div_int percentage 5) ;;
    Ok (filled, 20 - filled).

(** [progress_pct] of [create_house_info_embed]:
    [(current / goal) * 100 if goal > 0 else 0]. *)
Definition progress_pct (current goal_arg : Z) : result PyFloat.float :=
  if 0 <? goal_arg then
    ratio <- PyFloat.truediv current goal_arg ;;
    Ok (PyFloat.mul_int ratio 100)
  else Ok (PyFloat.of_int 0).

Definition status_emoji (a : option string) : string :=
  if opt_eqb a ATREIDES then "🟢"
  else if opt_eqb a HARKONNEN then "🔴"
  else "🔓".

(** The embed fields of [create_house_info_embed] that are derived from
    the numbers of the row. *)
Record house_info : Type := mkHouseInfo {
  status_text : string;
  deliveries_text : string;
  alliance_text : string;
  progress_bar : string
}.

(** The "Deliveries" field. *)
Definition deliveries (h : House) : string :=
  let current := current_goal h in
  let ppd := points_per_delivery h in
  if truthy (alliance h) && (current <? goal h) then
    ("PPD: " ++ Text.str_int ppd ++ Text.nl ++ "Claimed before completion")%string
  else
    let turns_needed :=
      if 0 <? ppd
      then Text.str_int (Z.max 1 (- ((- Z.max 0 (goal h - current)) / ppd)))
      else "∞" in
    ("PPD: " ++ Text.str_int ppd ++ Text.nl ++ "Turns: " ++ turns_needed)%string.

Definition create_house_info_embed (h : House) : result house_info :=
  pct <- progress_pct (current_goal h) (goal h) ;;
  let status :=
    if negb (is_locked h =? 0) then "🔒 Locked"
    else if truthy (alliance h) then
      (status_emoji (alliance h) ++ " Claimed by " ++ or_default (alliance h) "")%string
    else
      (status_emoji (alliance h) ++ " In Prog (" ++ PyFloat.format_1f pct ++ "%)")%string in
  bar <- create_progress_bar (current_goal h) (goal h) ;;
  Ok (mkHouseInfo status (deliveries h) (or_default (alliance h) "Unclaimed") bar).


(** One data row of [slash_export_data], cells as the CSV writer prints
    them. *)
Definition export_row (h : House) : result (list string) :=
  let current := current_goal h in
  let pct_cell :=
    ratio <- PyFloat.truediv current (goal h) ;;
    Ok (PyFloat.format_1f (PyFloat.mul_int ratio 100) ++ "%")%string in
  cells <-
    (if negb (is_locked h =? 0) then Ok ("Locked", "N/A")
     else if truthy (alliance h) then
       p <- pct_cell ;;
       Ok (("Claimed (" ++ or_default (alliance h) "" ++ ")")%string, p)
     else if goal h <=? current then Ok ("Completed", "100%")
     else
       p <- pct_cell ;;
       Ok ("In Progress", p)) ;;
  Ok [ name h; or_default (quest h) ""; Text.str_int current;
       Text.str_int (goal h); Text.str_int (points_per_delivery h);
       fst cells; snd cells; or_default (alliance h) "None";
       Text.str_int (deep_desert_cp h); or_default (completed_by h) "None";
       updated_by h ].

(** The loop of [slash_export_data] over the houses. *)
Fixpoint export_rows (hs : list House) : result (list (list string)) :=
  match hs with
  | [] => Ok []
  | h :: hs' =>
      r <- export_row h ;;
      rs <- export_rows hs' ;;
      Ok (r :: rs)
  end.

(** [slash_export_data]: the data rows of the CSV file, in name order. *)
Definition slash_export_data (db : Database) : result (list (list string)) :=
  export_rows (get_all_houses db).

(** ** Sector map *)

(** [value if value else None] on the text of a form field. *)
Definition nonempty (s : string) : option string :=
  if String.eqb s "" then None else Some s.

(** The sector check of [/sector] and [/quickadd]: two characters, a row
    letter A..I and a column digit 1..9. *)
Definition valid_sector (sector : string) : bool :=
  match sector with
  | String r (String c EmptyString) =>
      Text.char_in r "ABCDEFGHI" && Text.char_in c "123456789"
  | _ => false
  end.

(** The UPDATE that closes [/quickadd]:
    [SET survey_status = CASE WHEN survey_status = 'unsurveyed' THEN 'partial'
     ELSE survey_status END WHERE sector_id = ?]. *)
Definition advance_to_partial (sector : string) (l : list Sector) : list Sector :=
  map (fun s =>
         if String.eqb (sector_id s) sector then
           mkSector (sector_id s) (row_letter s) (col_number s)
             (if String.eqb (survey_status s) "unsurveyed" then "partial"
              else survey_status s)
             (last_surveyed s) (surveyed_by s) (sector_notes s)
         else s) l.

(** [slash_quickadd].  The INSERT of the [landsraad] branch names a column
    [discovered_by] that table [landsraad_points] does not have, so that
    statement raises and the handler ends there, nothing committed. *)
Definition slash_quickadd (sector location_type name_arg user now : string)
    (db : Database) : Database * result Reply :=
  let sector := Text.upper sector in
  let location_type := Text.lower location_type in
  if negb (valid_sector sector) then (db, Ok invalid_sector_id)
  else if negb (Text.mem location_type ["base"; "spice"; "landsraad"; "resource"])
  then (db, Ok invalid_type)
  else
    let inserted : result Database :=
      if String.eqb location_type "base" then
        let key := next_key (map gb_id (guild_bases db)) (seq_guild_bases db) in
        Ok (with_guild_bases
              (guild_bases db ++
               [mkGuildBase key name_arg sector None (Some "unknown") None now
                  (Some user) 1 None]) key db)
      else if String.eqb location_type "spice" then
        let key := next_key (map sp_id (spice_locations db)) (seq_spice_locations db) in
        Ok (with_spice_locations
              (spice_locations db ++
               [mkSpiceLocation key sector "unknown" (Some "unknown") None now
                  (Some user) None 0 None (Some name_arg)]) key db)
      else if String.eqb location_type "landsraad" then
        Raise OperationalError
      else
        let key := next_key (map rl_id (resource_locations db))
                     (seq_resource_locations db) in
        Ok (with_resource_locations
              (resource_locations db ++
               [mkResourceLocation key sector name_arg (Some "unknown") None now
                  (Some user) None 0 None None]) key db) in
    match inserted with
    | Raise e => (db, Raise e)
    | Ok db1 =>
        (with_sectors (advance_to_partial sector (sectors db1)) db1,
         Ok location_added)
    end.

(** [AddGuildBaseModal.on_submit]: one INSERT, then the report channels are
    refreshed (which writes to no table modelled here). *)
Definition add_guild_base_on_submit
    (sector guild_name base_type alliance_arg coordinates notes_arg user now : string)
    (db : Database) : Database * Reply :=
  let key := next_key (map gb_id (guild_bases db)) (seq_guild_bases db) in
  (with_guild_bases
     (guild_bases db ++
      [mkGuildBase key guild_name sector (nonempty coordinates)
         (Some (Text.lower base_type)) (nonempty alliance_arg) now (Some user) 1
         (nonempty notes_arg)]) key db,
   location_added).

(** [int(text)] under [try ... except ValueError: pass], for a field that
    may be left empty. *)
Definition optional_int (text : string) : option Z :=
  if String.eqb text "" then None
  else match PyInt.int text with
       | Ok z => Some z
       | Raise _ => None
       end.

(** [AddSpiceModal.on_submit].  The yield is bound to the INSERT as the
    integer [int] read; one outside 64 bits cannot be bound, the statement
    raises, and the handler, which catches nothing, ends there: no row, no
    reply. *)
Definition add_spice_on_submit
    (sector size estimated_yield coordinates notes_arg user now : string)
    (db : Database) : Database * result Reply :=
  let yield := optional_int estimated_yield in
  if match yield with Some z => fits_int64 z | None => true end then
    let key := next_key (map sp_id (spice_locations db)) (seq_spice_locations db) in
    (with_spice_locations
       (spice_locations db ++
        [mkSpiceLocation key sector "field" (Some (Text.lower size))
           (nonempty coordinates) now (Some user) None 0
           yield (nonempty notes_arg)]) key db,
     Ok location_added)
  else (db, Raise OverflowError).

(** [AddLandsraadModal.on_submit]; tier and defense rating are clamped. *)
Definition add_landsraad_on_submit
    (sector point_name controller tier defense_rating notes_arg user : string)
    (db : Database) : Database * Reply :=
  let tier := option_map (fun t => Z.max 1 (Z.min 3 t)) (optional_int tier) in
  let defense :=
    option_map (fun d => Z.max 1 (Z.min 10 d)) (optional_int defense_rating) in
  let key := next_key (map lp_id (landsraad_points db))
               (seq_landsraad_points db) in
  (with_landsraad_points
     (landsraad_points db ++
      [mkLandsraadPoint key sector (Some point_name) None (nonempty controller)
         tier None (Some user) defense (nonempty notes_arg)]) key db,
   location_added).

(** [AddResourceModal.on_submit]. *)
Definition add_resource_on_submit
    (sector resource_type concentration coordinates notes_arg user now : string)
    (db : Database) : Database * Reply :=
  let key := next_key (map rl_id (resource_locations db))
               (seq_resource_locations db) in
  (with_resource_locations
     (resource_locations db ++
      [mkResourceLocation key sector (Text.lower resource_type)
         (Some (Text.lower concentration)) (nonempty coordinates) now
         (Some user) None 0 None (nonempty notes_arg)]) key db,
   location_added).

(** [SectorDetailView.mark_surveyed_callback]. *)
Definition mark_surveyed_callback (sector user now : string) (db : Database)
    : Database * Reply :=
  (with_sectors
     (map (fun s =>
             if String.eqb (sector_id s) sector then
               mkSector (sector_id s) (row_letter s) (col_number s) "complete"
                 (Some now) (Some user) (sector_notes s)
             else s) (sectors db)) db,
   sector_marked).

(** The survey status [SELECT survey_status ... WHERE sector_id = ?]
    returns. *)
Definition status_of (sector : string) (db : Database) : option string :=
  option_map survey_status
    (find (fun s => String.eqb (sector_id s) sector) (sectors db)).

(** The four kinds of point of interest, and the form that adds each one
    from the sector view, with the text typed into its fields. *)
Inductive poi_form : Type :=
  | guild_base_form (guild_name base_type alliance_arg coordinates notes_arg : string)
  | spice_form (size estimated_yield coordinates notes_arg : string)
  | landsraad_form (point_name controller tier defense_rating notes_arg : string)
  | resource_form (resource_type concentration coordinates notes_arg : string).

(** The reply of a handler that cannot raise. *)
Definition replied (r : Database * Reply) : Database * result Reply :=
  (fst r, Ok (snd r)).

Definition submit_form (sector : string) (f : poi_form) (user now : string)
    (db : Database) : Database * result Reply :=
  match f with
  | guild_base_form g b a c n =>
      replied (add_guild_base_on_submit sector g b a c n user now db)
  | spice_form sz y c n => add_spice_on_submit sector sz y c n user now db
  | landsraad_form p c t d n =>
      replied (add_landsraad_on_submit sector p c t d n user db)
  | resource_form r k c n =>
      replied (add_resource_on_submit sector r k c n user now db)
  end.

(** ** More of Python's [str]: replacement and number formatting *)
Module PyStr.

(** Whether [p] is a prefix of [s]. *)
Fixpoint starts_with (p s : string) : bool :=
  match p, s with
  | EmptyString, _ => true
  | String a p', String b s' => Ascii.eqb a b && starts_with p' s'
  | String _ _, EmptyString => false
  end.

(** [s.replace(old, new)] for a non-empty [old]: occurrences are found from
    the left and do not overlap; [skip] counts the characters of a found
    occurrence still to be dropped. *)
Fixpoint replace_from (old new s : string) (skip : nat) : string :=
  match s with
  | EmptyString => EmptyString
  | String c s' =>
      match skip with
      | S k => replace_from old new s' k
      | O =>
          if starts_with old s
          then (new ++ replace_from old new s' (Nat.pred (String.length old)))%string
          else String c (replace_from old new s' O)
      end
  end.

Definition replace (s old new : string) : string := replace_from old new s O.

(** Three decimal digits, zero padded. *)
Definition pad3 (n : Z) : string :=
  String (Text.digit_char (n / 100))
    (String (Text.digit_char ((n / 10) mod 10))
       (String (Text.digit_char (n mod 10)) EmptyString)).

(** Groups of three digits of a non-negative integer, separated by
    commas; [fuel] bounds the number of groups. *)
Fixpoint groups (fuel : nat) (n : Z) : string :=
  match fuel with
  | O => Text.str_int n
  | S fuel' =>
      if n <? 1000 then Text.str_int n
      else (groups fuel' (n / 1000) ++ "," ++ pad3 (n mod 1000))%string
  end.

(** [format(n, ',')]: the integer with thousands separators. *)
Definition format_commas (n : Z) : string :=
  let a := Z.abs n in
  let body := groups (Z.to_nat (Z.log2 a)) a in
  if n <? 0 then String "-" body else body.

(** [sep.join(l)]. *)
Fixpoint join (sep : string) (l : list string) : string :=
  match l with
  | [] => EmptyString
  | [x] => x
  | x :: rest => (x ++ sep ++ join sep rest)%string
  end.

End PyStr.

(** ** The master panel *)

(** The four numbers of the "Summary" field. *)
Record summary : Type := mkSummary {
  unlocked : Z;
  claimed : Z;
  atreides_count : Z;
  harkonnen_count : Z
}.

(** One turn of the loop of [create_master_embed]. *)
Definition count_house (acc : summary) (h : House) : summary :=
  let unlocked' := if is_locked h =? 0 then unlocked acc + 1 else unlocked acc in
  if is_not_null (alliance h)
     && (opt_eqb (alliance h) ATREIDES || opt_eqb (alliance h) HARKONNEN)
  then
    if opt_eqb (alliance h) ATREIDES then
      mkSummary unlocked' (claimed acc + 1) (atreides_count acc + 1)
        (harkonnen_count acc)
    else if opt_eqb (alliance h) HARKONNEN then
      mkSummary unlocked' (claimed acc + 1) (atreides_count acc)
        (harkonnen_count acc + 1)
    else
      mkSummary unlocked' (claimed acc + 1) (atreides_count acc)
        (harkonnen_count acc)
  else
    mkSummary unlocked' (claimed acc) (atreides_count acc) (harkonnen_count acc).

(** [create_master_embed]: the summary statistics over all houses. *)
Definition create_master_embed (db : Database) : summary :=
  fold_left count_house (get_all_houses db) (mkSummary 0 0 0 0).

(** The text of the "Summary" field. *)
Definition summary_text (s : summary) : string :=
  ("**Unlocked:** " ++ Text.str_int (unlocked s) ++ "/25" ++ Text.nl
   ++ "**Claimed:** " ++ Text.str_int (claimed s) ++ "/25" ++ Text.nl
   ++ "**Atreides:** " ++ Text.str_int (atreides_count s) ++ " 🟢" ++ Text.nl
   ++ "**Harkonnen:** " ++ Text.str_int (harkonnen_count s) ++ " 🔴")%string.

(** ** Buttons *)

Inductive ButtonStyle : Type :=
  | style_primary
  | style_secondary
  | style_success
  | style_danger.

Record Button : Type := mkButton {
  b_style : ButtonStyle;
  b_emoji : option string;
  b_label : string;
  b_custom_id : option string;
  b_disabled : bool;
  b_row : option Z
}.

(** [HouseActionView.__init__]: the buttons shown for a house. *)
Definition house_action_view (house_data : House) : list Button :=
  let a := alliance house_data in
  (if negb (is_locked house_data =? 0) then
     [ mkButton style_secondary (Some "🔓") "Unlock House" (Some "unlock_house")
         false None ]
   else
     [ mkButton style_primary (Some "✏️") "Update House" (Some "update_house")
         false None;
       mkButton style_success (Some "🟢") "Claim for Atreides"
         (Some "claim_atreides") (opt_eqb a ATREIDES) None;
       mkButton style_danger (Some "🔴") "Claim for Harkonnen"
         (Some "claim_harkonnen") (opt_eqb a HARKONNEN) None ]
     ++ (if truthy a then
           [ mkButton style_secondary (Some "🔄") "Unclaim House"
               (Some "unclaim_house") false None ]
         else []))
  ++ [ mkButton style_secondary (Some "❌") "Cancel" (Some "cancel") false None ].

(** [LandsraadView.create_house_button]. *)
Definition create_house_button (house_data : House) (row : Z) : Button :=
  let a := alliance house_data in
  let '(style, emoji) :=
    if negb (is_locked house_data =? 0) then (style_secondary, "🔒")
    else if opt_eqb a ATREIDES then (style_success, "🟢")
    else if opt_eqb a HARKONNEN then (style_danger, "🔴")
    else (style_primary, "🔓") in
  mkButton style (Some emoji) (name house_data)
    (Some ("house_" ++ name house_data)%string) false (Some row).

(** [enumerate(l)], counting from [i]. *)
Fixpoint enumerate_from {A : Type} (i : Z) (l : list A) : list (Z * A) :=
  match l with
  | [] => []
  | x :: rest => (i, x) :: enumerate_from (i + 1) rest
  end.

(** [LandsraadView.create_house_buttons]: at most 25 houses, five to a
    row. *)
Definition create_house_buttons (db : Database) : list Button :=
  map (fun ih => create_house_button (snd ih) (Z.min (fst ih / 5) 4))
    (enumerate_from 0 (firstn 25 (get_all_houses db))).

(** [LandsraadView.house_button_callback]: the house the pressed button
    names, and the action buttons shown for it; [None] stands for the
    "House ... not found." message. *)
Definition house_button_callback (custom_id : string) (db : Database)
    : option (House * list Button) :=
  let house_name := PyStr.replace custom_id "house_" "" in
  match get_house_data house_name db with
  | None => None
  | Some house_data => Some (house_data, house_action_view house_data)
  end.

(** ** Updating a house *)

Inductive UpdateReply : Type :=
  | house_updated (updates_made : list string)  (* "House ... updated!" and the list, or "No changes made" *)
  | update_failed.                              (* "An error occurred: ..." *)

(** One optional numeric field of [UpdateHouseModal.on_submit]: blank or
    not a number, nothing happens ([except ValueError: pass]); a number
    SQLite cannot store raises out of the inner [try]. *)
Definition update_numeric_field (house_name field text user now : string)
    (describe : Z -> string) (st : Database * list string)
    : result (Database * list string) :=
  let '(db, updates_made) := st in
  if String.eqb (Text.strip text) "" then Ok st
  else
    match PyInt.int (PyStr.replace (Text.strip text) "," "") with
    | Raise _ => Ok st
    | Ok v =>
        match update_house_data house_name field (VInt v) user now db with
        | Ok (db', _) => Ok (db', updates_made ++ [describe v])
        | Raise ValueError => Ok st
        | Raise e => Raise e
        end
    end.

(** [UpdateHouseModal.on_submit].  The detail view it builds at the end
    raises when the house is not found, which the handler reports as an
    error; what was written before stays written. *)
Definition update_on_submit
    (house_name current_goal_input deep_desert_input user now1 now2 : string)
    (db : Database) : Database * UpdateReply :=
  match update_numeric_field house_name "current_goal" current_goal_input user
          now1 (fun v => ("Current Goal → " ++ PyStr.format_commas v)%string)
          (db, []) with
  | Raise _ => (db, update_failed)
  | Ok (db1, made1) =>
      match update_numeric_field house_name "deep_desert_cp" deep_desert_input
              user now2 (fun v => ("Deep Desert CP → " ++ Text.str_int v)%string)
              (db1, made1) with
      | Raise _ => (db1, update_failed)
      | Ok (db2, made2) =>
          match get_house_data house_name db2 with
          | None => (db2, update_failed)
          | Some house_data =>
              match create_house_info_embed house_data with
              | Raise _ => (db2, update_failed)
              | Ok _ => (db2, house_updated made2)
              end
          end
      end
  end.

(** ** Repairing corrupted alliances *)

(** [alliance IS NOT NULL AND alliance NOT IN (ATREIDES, HARKONNEN)]. *)
Definition invalid_value (a : option string) : bool :=
  match a with
  | None => false
  | Some s => negb (String.eqb s ATREIDES || String.eqb s HARKONNEN)
  end.

Definition set_completed_by (c : option string) (h : House) : House :=
  mkHouse (house_id h) (name h) (quest h) (current_goal h) (goal h)
    (points_per_delivery h) (is_locked h) c (notes h)
    (desert_location h) (alliance h) (deep_desert_cp h) (last_updated h)
    (updated_by h).

(** What [/fix_database] reports. *)
Record fix_report : Type := mkFixReport {
  all_alliances : list (string * option string);
  invalid_alliances : list (string * option string);
  fixed_count : Z;
  completed_fixed : Z;
  total_houses : Z;
  valid_alliances : list (string * option string)
}.

(** [slash_fix_database]: reconcile the roster, then set to NULL every
    alliance and every completed-by outside the vocabulary. *)
Definition slash_fix_database (now : string) (db : Database)
    : Database * fix_report :=
  let db0 := populate_initial_houses now db in
  let pair h := (name h, alliance h) in
  let all := map pair (filter (fun h => is_not_null (alliance h)) (houses db0)) in
  let invalid := map pair (filter (fun h => invalid_value (alliance h)) (houses db0)) in
  let p1 := fun h => invalid_value (alliance h) in
  let hs1 := update_where p1 (set_alliance None) (houses db0) in
  let fixed := rowcount p1 (houses db0) in
  let p2 := fun h => invalid_value (completed_by h) in
  let hs2 := update_where p2 (set_completed_by None) hs1 in
  let completed := rowcount p2 hs1 in
  let count := Z.of_nat (List.length hs2) in
  let valid :=
    map pair (filter (fun h => opt_eqb (alliance h) ATREIDES
                               || opt_eqb (alliance h) HARKONNEN) hs2) in
  (with_houses hs2 (seq_houses db0) db0,
   mkFixReport all invalid fixed completed count valid).

(** The database part of [on_ready]: reconcile the roster and, when some
    alliance is outside the vocabulary, set those to NULL. *)
Definition on_ready_repair (now : string) (db : Database) : Database :=
  let db0 := populate_initial_houses now db in
  let p := fun h => invalid_value (alliance h) in
  let invalid_count := rowcount p (houses db0) in
  if 0 <? invalid_count then
    with_houses (update_where p (set_alliance None) (houses db0))
      (seq_houses db0) db0
  else db0.

(** ** Predicates and sample states used in the statements *)

(** The columns a claim must leave alone. *)
Definition untouched_by_claim (h h' : House) : Prop :=
  house_id h' = house_id h /\ name h' = name h /\ quest h' = quest h /\
  current_goal h' = current_goal h /\ goal h' = goal h /\
  points_per_delivery h' = points_per_delivery h /\
  is_locked h' = is_locked h /\ completed_by h' = completed_by h /\
  notes h' = notes h /\ desert_location h' = desert_location h /\
  deep_desert_cp h' = deep_desert_cp h.

(** Every table but [houses] is the same in both states. *)
Definition other_tables_unchanged (db db' : Database) : Prop :=
  seq_houses db' = seq_houses db /\
  reset_log db' = reset_log db /\ seq_reset_log db' = seq_reset_log db /\
  sectors db' = sectors db /\
  guild_bases db' = guild_bases db /\ seq_guild_bases db' = seq_guild_bases db /\
  spice_locations db' = spice_locations db /\
  seq_spice_locations db' = seq_spice_locations db /\
  landsraad_points db' = landsraad_points db /\
  seq_landsraad_points db' = seq_landsraad_points db /\
  resource_locations db' = resource_locations db /\
  seq_resource_locations db' = seq_resource_locations db.

(** [h'] is [h] after the weekly reset by [who] at [now]. *)
Definition is_reset (who now : string) (h h' : House) : Prop :=
  house_id h' = house_id h /\ name h' = name h /\ goal h' = goal h /\
  points_per_delivery h' = points_per_delivery h /\ notes h' = notes h /\
  is_locked h' = 1 /\ current_goal h' = 0 /\ quest h' = Some "Unknown" /\
  desert_location h' = None /\ completed_by h' = None /\ alliance h' = None /\
  deep_desert_cp h' = 0 /\ updated_by h' = who /\ last_updated h' = now.

(** Houses whose alliance is not NULL. *)
Definition count_claimed (hs : list House) : Z :=
  Z.of_nat (List.length (filter (fun h => is_not_null (alliance h)) hs)).

(** An alliance of the closed vocabulary: absent, Atreides or Harkonnen. *)
Definition valid_alliance (a : option string) : bool :=
  match a with
  | None => true
  | Some s => String.eqb s ATREIDES || String.eqb s HARKONNEN
  end.

(** Houses whose alliance is Atreides or Harkonnen. *)
Definition count_valid_claims (hs : list House) : Z :=
  Z.of_nat (List.length
    (filter (fun h => opt_eqb (alliance h) ATREIDES || opt_eqb (alliance h) HARKONNEN) hs)).

Definition alliances_valid (db : Database) : Prop :=
  Forall (fun h => valid_alliance (alliance h) = true) (houses db).

Definition empty_db : Database :=
  mkDatabase [] 0 [] 0 [] [] 0 [] 0 [] 0 [] 0.

(** The 25 houses of a fresh installation. *)
Definition fresh_db : Database :=
  populate_initial_houses "2025-01-01 00:00:00" empty_db.

(** A fresh installation in which house Alexin carries a user name where an
    alliance belongs, the corruption [/fix_database] repairs. *)
Definition corrupted_db : Database :=
  with_houses
    (update_where (name_matches "Alexin") (set_alliance (Some "paul#1234"))
       (houses fresh_db))
    (seq_houses fresh_db) fresh_db.

(** A table with a row outside the roster, a lower-case namesake of a
    roster house and one roster house already unlocked. *)
Definition messy_db : Database :=
  with_houses
    [ mkHouse 1 "Harkonnen" (Some "Unknown") 0 70000 1 1 None None None None 0
        "2024-12-01 00:00:00" "System";
      mkHouse 2 "alexin" (Some "Unknown") 0 70000 1 1 None None None None 0
        "2024-12-01 00:00:00" "System";
      mkHouse 3 "Sor" (Some "Deliver spice") 1200 70000 23 0 None None None
        (Some "Atreides") 2 "2024-12-02 10:00:00" "admin" ]
    3 empty_db.

(** A house that has reached its goal, unclaimed. *)
Definition completed_house : House :=
  mkHouse 1 "Alexin" (Some "Deliver spice") 70000 70000 23 0 None None None
    None 0 "2025-01-01 00:00:00" "admin".

(** Wednesday 1 January 2025, 10:00, and Monday 6 January 2025, 17:00. *)
Definition wednesday_10 : Schedule.datetime :=
  Schedule.mkDatetime 739252 10 0 0 0.

Definition monday_17 : Schedule.datetime :=
  Schedule.mkDatetime 739257 17 0 0 0.

(** [ceil(a / b)] for a positive [b]. *)
Definition ceil_div (a b : Z) : Z := (a + b - 1) / b.

(** What remains to the goal. *)
Definition remaining (h : House) : Z := Z.max 0 (goal h - current_goal h).


(** Running [populate_initial_houses] once per clock reading of [nows]. *)
Definition reconcile_many (nows : list string) (db : Database) : Database :=
  fold_left (fun d now => populate_initial_houses now d) nows db.

(** An unlocked house claimed by Atreides whose goal is zero. *)
Definition zero_goal_house : House :=
  mkHouse 1 "Alexin" (Some "Deliver spice") 0 0 23 0 None None None
    (Some "Atreides") 0 "2025-01-01 00:00:00" "admin".

(** A fresh installation in which house Sor is unlocked, claimed by
    Atreides, and has goal 0. *)
Definition zero_goal_db : Database :=
  with_houses
    (update_where (name_matches "Sor")
       (fun h => mkHouse (house_id h) (name h) (Some "Deliver spice") 0 0 23 0
                   None None None (Some "Atreides") 0 (last_updated h) "admin")
       (houses fresh_db))
    (seq_houses fresh_db) fresh_db.

(** One unsurveyed sector. *)
Definition one_sector_db : Database :=
  with_sectors [mkSector "A1" "A" 1 "unsurveyed" None None None] empty_db.


(** The claim and set-alliance actions a user can trigger. *)
Inductive alliance_action : Type :=
  | press_claim_atreides (house : string)
  | press_claim_harkonnen (house : string)
  | press_unclaim (house : string)
  | command_claim_house (house faction : string)
  | command_set_alliance (house alliance_arg : string).

Definition run_alliance_action (a : alliance_action) (user now : string)
    (db : Database) : Database * Reply :=
  match a with
  | press_claim_atreides house => claim_atreides_callback house user now db
  | press_claim_harkonnen house => claim_harkonnen_callback house user now db
  | press_unclaim house => unclaim_house_callback house user now db
  | command_claim_house house faction => slash_claim_house house faction user now db
  | command_set_alliance house a => slash_set_alliance house a user now db
  end.

(** ** The sector grid *)

(** [range(a, b)]. *)
Definition range (a b : Z) : list Z :=
  map (fun i => a + Z.of_nat i) (seq 0 (Z.to_nat (b - a))).

(** [chr(n)] for an ASCII code. *)
Definition chr (n : Z) : string := String (ascii_of_N (Z.to_N n)) EmptyString.

(** The name of the sector in row [row] (0 is A) and column [col]. *)
Definition grid_id (row col : Z) : string :=
  (chr (65 + row) ++ Text.str_int col)%string.

(** [INSERT OR IGNORE INTO deep_desert_sectors (sector_id, row_letter,
    col_number)]: ignored when the sector exists. *)
Definition insert_or_ignore_sector (l : list Sector) (rc : Z * Z) : list Sector :=
  let '(row, col) := rc in
  let sid := grid_id row col in
  if existsb (fun s => String.eqb (sector_id s) sid) l then l
  else l ++ [mkSector sid (chr (65 + row)) col "unsurveyed" None None None].

(** The cells the two loops of [init_database_locations] visit. *)
Definition grid_cells : list (Z * Z) :=
  flat_map (fun row => map (fun col => (row, col)) (range 1 10)) (range 0 9).

(** [init_database_locations]: the tables are created if missing, and the
    81 sectors inserted where missing. *)
Definition init_database_locations (db : Database) : Database :=
  with_sectors (fold_left insert_or_ignore_sector grid_cells (sectors db)) db.

(** The eight DROP TABLE statements of the full reset, followed by the
    CREATE TABLE statements of [init_database]: every modelled table empty,
    every key counter forgotten. *)
Definition drop_and_create (db : Database) : Database := empty_db.

(** [ConfirmFullResetView.confirm_reset]. *)
Definition confirm_full_reset (now : string) (db : Database) : Database :=
  populate_initial_houses now (init_database_locations (drop_and_create db)).

(** The four counts of [create_sector_button]: active bases, spice not
    depleted, Landsraad points, resources not exhausted, in one sector. *)
Definition poi_counts (sector : string) (db : Database) : Z * Z * Z * Z :=
  (Z.of_nat (List.length (filter (fun b => String.eqb (gb_sector_id b) sector
                                           && (gb_is_active b =? 1))
                            (guild_bases db))),
   Z.of_nat (List.length (filter (fun x => String.eqb (sp_sector_id x) sector
                                           && (sp_is_depleted x =? 0))
                            (spice_locations db))),
   Z.of_nat (List.length (filter (fun x => String.eqb (lp_sector_id x) sector)
                            (landsraad_points db))),
   Z.of_nat (List.length (filter (fun x => String.eqb (rl_sector_id x) sector
                                           && (rl_is_exhausted x =? 0))
                            (resource_locations db)))).

Definition total_pois (sector : string) (db : Database) : Z :=
  let '(bases, spice, landsraad, resources) := poi_counts sector db in
  bases + spice + landsraad + resources.

(** [DeepDesertMapView.create_sector_button]. *)
Definition create_sector_button (db : Database) (sector : string) (row : Z) : Button :=
  let survey :=
    match status_of sector db with
    | Some st => st
    | None => "unsurveyed"
    end in
  let '(style, emoji) :=
    if String.eqb survey "unsurveyed" then (style_secondary, "❓")
    else if String.eqb survey "partial" then (style_primary, "🔍")
    else (style_success, "✅") in
  let total := total_pois sector db in
  let label :=
    if 0 <? total then (sector ++ " (" ++ Text.str_int total ++ ")")%string
    else sector in
  mkButton style (Some emoji) label (Some ("sector_" ++ sector)%string) false
    (Some (row mod 5)).

(** The sectors one page of the map shows, each with its row on the page. *)
Definition shown_sectors (start_row : Z) : list (string * Z) :=
  flat_map
    (fun row =>
       flat_map (fun col =>
                   if (row <? 9) && (col <=? 9)
                   then [(grid_id row col, row - start_row)] else [])
         (range 1 6))
    (range start_row (Z.min (start_row + 5) 9)).

(** [discord.ui.View], as far as buttons go: the children in the order
    they were added, and the width used in each of the rows 0 to 4. *)
Record View : Type := mkView {
  children : list Button;
  weights : list Z
}.

Definition empty_view : View := mkView [] [0; 0; 0; 0; 0].

(** The first row with room for one more button. *)
Fixpoint find_open_space (ws : list Z) : option nat :=
  match ws with
  | [] => None
  | w :: rest =>
      if w + 1 <=? 5 then Some 0%nat else option_map S (find_open_space rest)
  end.

(** [l[i] = x]. *)
Fixpoint replace_nth (i : nat) (x : Z) (l : list Z) {struct l} : list Z :=
  match l with
  | [] => []
  | y :: rest =>
      match i with
      | O => x :: rest
      | S i' => y :: replace_nth i' x rest
      end
  end.

(** [View.add_item] for a button: [ValueError] when the view holds 25
    children already, when the row the button names is full, or when no row
    has room for a button that names none.  (A row outside 0 to 4 is
    refused when the button is made, with the same exception.) *)
Definition add_item (item : Button) (v : View) : result View :=
  if 25 <=? Z.of_nat (List.length (children v)) then Raise ValueError
  else
    match b_row item with
    | Some r =>
        if (0 <=? r) && (r <? 5) then
          let total := nth (Z.to_nat r) (weights v) 0 + 1 in
          if 5 <? total then Raise ValueError
          else Ok (mkView (children v ++ [item])
                     (replace_nth (Z.to_nat r) total (weights v)))
        else Raise ValueError
    | None =>
        match find_open_space (weights v) with
        | Some i =>
            Ok (mkView (children v ++ [item])
                  (replace_nth i (nth i (weights v) 0 + 1) (weights v)))
        | None => Raise ValueError
        end
    end.

(** [add_item] on each button in turn; the first refusal ends the loop. *)
Fixpoint add_items (items : list Button) (v : View) : result View :=
  match items with
  | [] => Ok v
  | b :: rest => v' <- add_item b v ;; add_items rest v'
  end.

(** [DeepDesertMapView.create_sector_buttons]: the sector buttons, then
    the navigation buttons, each handed to [add_item]. *)
Definition create_sector_buttons (start_row : Z) (db : Database) (v : View)
    : result View :=
  v1 <- add_items
          (map (fun sr => create_sector_button db (fst sr) (snd sr))
             (shown_sectors start_row)) v ;;
  v2 <- (if 0 <? start_row
         then add_item (mkButton style_secondary None "◀ Previous" None false
                          (Some 4)) v1
         else Ok v1) ;;
  if start_row + 5 <? 9
  then add_item (mkButton style_secondary None "Next ▶" None false (Some 4)) v2
  else Ok v2.

(** [DeepDesertMapView.__init__]. *)
Definition deep_desert_map_view (start_row : Z) (db : Database) : result View :=
  create_sector_buttons start_row db empty_view.

(** The new [start_row] of [next_page] and of [prev_page]. *)
Definition next_page (start_row : Z) : Z := Z.min (start_row + 5) 4.
Definition prev_page (start_row : Z) : Z := Z.max (start_row - 5) 0.

(** The numbers of [create_map_overview_embed]. *)
Record map_overview : Type := mkMapOverview {
  n_complete : Z;
  n_partial : Z;
  n_unsurveyed : Z;
  n_bases : Z;
  n_spice : Z;
  n_landsraad : Z;
  n_resources : Z
}.

Definition count_status (st : string) (l : list Sector) : Z :=
  Z.of_nat (List.length (filter (fun s => String.eqb (survey_status s) st) l)).

Definition create_map_overview_embed (db : Database) : map_overview :=
  mkMapOverview
    (count_status "complete" (sectors db))
    (count_status "partial" (sectors db))
    (count_status "unsurveyed" (sectors db))
    (Z.of_nat (List.length (filter (fun b => gb_is_active b =? 1) (guild_bases db))))
    (Z.of_nat (List.length (filter (fun x => sp_is_depleted x =? 0) (spice_locations db))))
    (Z.of_nat (List.length (landsraad_points db)))
    (Z.of_nat (List.length (filter (fun x => rl_is_exhausted x =? 0)
                              (resource_locations db)))).

(** [/deepdesert]: the sector rows are inserted where missing, then the
    view of the first page is built; an exception there leaves the command
    to the error handler of the command tree before the overview is read or
    anything is sent. *)
Definition slash_deepdesert (db : Database)
    : Database * result (View * map_overview) :=
  let db1 := init_database_locations db in
  match deep_desert_map_view 0 db1 with
  | Raise e => (db1, Raise e)
  | Ok view => (db1, Ok (view, create_map_overview_embed db1))
  end.

(** Whether the values of a form can be bound to its INSERT: all can but
    a yield outside 64 bits. *)
Definition form_binds (f : poi_form) : bool :=
  match f with
  | spice_form _ estimated_yield _ _ =>
      match optional_int estimated_yield with
      | Some z => fits_int64 z
      | None => true
      end
  | _ => true
  end.

(** The actions that write to the sector map, and a run of them. *)
Inductive sector_action : Type :=
  | do_quickadd (sector location_type name_arg : string)
  | do_submit_form (sector : string) (f : poi_form)
  | do_mark_surveyed (sector : string).

Definition run_sector_action (user now : string) (db : Database)
    (a : sector_action) : Database :=
  match a with
  | do_quickadd sector location_type name_arg =>
      fst (slash_quickadd sector location_type name_arg user now db)
  | do_submit_form sector f => fst (submit_form sector f user now db)
  | do_mark_surveyed sector => fst (mark_surveyed_callback sector user now db)
  end.

Definition run_sector_actions (user now : string) (l : list sector_action)
    (db : Database) : Database :=
  fold_left (run_sector_action user now) l db.

(** ** The connection pool *)
Module Pool.

(** A connection handle. *)
Definition connection : Type := Z.

(** [DatabaseManager]: the pooled connections, oldest first. *)
Record DatabaseManager : Type := mkDatabaseManager {
  max_connections : Z;
  connections : list connection
}.

(** Entering [get_connection]: the pooled connection added last, or a new
    one ([fresh], what [sqlite3.connect] returns) when the pool is empty. *)
Definition acquire (fresh : connection) (m : DatabaseManager)
    : connection * DatabaseManager :=
  match connections m with
  | [] => (fresh, m)
  | c :: rest =>
      (last (c :: rest) fresh,
       mkDatabaseManager (max_connections m) (removelast (c :: rest)))
  end.

(** Leaving [get_connection]: the connection goes back to the pool while
    there is room, and is closed otherwise (the flag). *)
Definition release (c : connection) (m : DatabaseManager)
    : DatabaseManager * bool :=
  if Z.of_nat (List.length (connections m)) <? max_connections m
  then (mkDatabaseManager (max_connections m) (connections m ++ [c]), false)
  else (m, true).

(** [close_all]. *)
Definition close_all (m : DatabaseManager) : DatabaseManager :=
  mkDatabaseManager (max_connections m) [].

Inductive operation : Type :=
  | op_acquire (fresh : connection)
  | op_release (c : connection)
  | op_close_all.

Definition step (m : DatabaseManager) (o : operation) : DatabaseManager :=
  match o with
  | op_acquire fresh => snd (acquire fresh m)
  | op_release c => fst (release c m)
  | op_close_all => close_all m
  end.

Definition run (ops : list operation) (m : DatabaseManager) : DatabaseManager :=
  fold_left step ops m.

End Pool.

(** ** Posting the weekly schedule *)
Module Posting.

(** The three module-level variables [save_bot_config] writes. *)
Record bot_config : Type := mkBotConfig {
  SCHEDULE_CHANNEL_ID : option Z;
  last_schedule_message_id : option Z;
  last_schedule_channel_id : option Z
}.

(** The variables and the content of [data/bot_config.json] ([None]: no
    such file).  [json.dump] then [json.load] gives back a dictionary of
    integers and nulls as it was. *)
Record bot_state : Type := mkBotState {
  globals : bot_config;
  config_file : option bot_config
}.

Definition save_bot_config (st : bot_state) : bot_state :=
  mkBotState (globals st) (Some (globals st)).

Definition load_bot_config (st : bot_state) : bot_state :=
  match config_file st with
  | Some c => mkBotState c (config_file st)
  | None => st
  end.

(** Python truthiness of an optional integer. *)
Definition truthy_id (o : option Z) : bool :=
  match o with
  | Some z => negb (z =? 0)
  | None => false
  end.

(** A channel as the handlers see it: identity, name, whether it is a text
    channel, and the bot's two permissions in it. *)
Record channel : Type := mkChannel {
  ch_id : Z;
  ch_name : string;
  ch_is_text : bool;
  ch_send_messages : bool;
  ch_embed_links : bool
}.

(** A guild: its channels, text channels in the order [text_channels]
    lists them. *)
Definition guild : Type := list channel.

Definition get_channel (g : guild) (id : Z) : option channel :=
  find (fun c => ch_id c =? id) g.

(** The first loop: the configured channel in the first guild that has
    it. *)
Fixpoint find_by_id (guilds : list guild) (id : Z) : option channel :=
  match guilds with
  | [] => None
  | g :: rest =>
      match get_channel g id with
      | Some c => Some c
      | None => find_by_id rest id
      end
  end.

Definition schedule_names : list string :=
  ["weeklyschedule"; "weekly-schedule"; "schedule"; "bot-schedule"].

(** The second loop: the first text channel with a conventional name. *)
Fixpoint find_by_name (guilds : list guild) : option channel :=
  match guilds with
  | [] => None
  | g :: rest =>
      match find (fun c => ch_is_text c
                           && Text.mem (Text.lower (ch_name c)) schedule_names) g with
      | Some c => Some c
      | None => find_by_name rest
      end
  end.

(** How fetching and deleting the previous post ends: done, or one of the
    two errors the handler prints and goes on from, or any other error. *)
Inductive delete_outcome : Type :=
  | delete_done
  | delete_not_found
  | delete_http_error
  | delete_other_error.

(** What a run of the task did on the platform. *)
Record post_actions : Type := mkPostActions {
  delete_attempted : option (Z * Z);   (* channel, message *)
  posted : option (Z * Z)              (* channel, new message *)
}.

Definition nothing_done : post_actions := mkPostActions None None.

(** [weekly_schedule_post], run at [current_time].  [on_delete] is how the
    platform answers the deletion of the previous post, [sent] the identity
    of the message it creates ([None]: sending raised). *)
Definition weekly_schedule_post (current_time : Schedule.datetime)
    (guilds : list guild) (on_delete : delete_outcome) (sent : option Z)
    (st : bot_state) : bot_state * post_actions :=
  if negb (Schedule.weekday current_time =? 1) then (st, nothing_done)
  else
    let g := globals st in
    let by_id :=
      match SCHEDULE_CHANNEL_ID g with
      | Some id => if truthy_id (Some id) then find_by_id guilds id else None
      | None => None
      end in
    let target :=
      match by_id with
      | Some c => Some c
      | None => find_by_name guilds
      end in
    match target with
    | None => (st, nothing_done)
    | Some c =>
        if negb (ch_send_messages c) || negb (ch_embed_links c)
        then (st, nothing_done)
        else
          let old :=
            match last_schedule_message_id g, last_schedule_channel_id g with
            | Some m, Some lc =>
                if truthy_id (Some m) && (lc =? ch_id c)
                then Some (ch_id c, m) else None
            | _, _ => None
            end in
          let aborted :=
            match old, on_delete with
            | Some _, delete_other_error => true
            | _, _ => false
            end in
          if aborted then (st, mkPostActions old None)
          else
            match sent with
            | None => (st, mkPostActions old None)
            | Some m =>
                (save_bot_config
                   (mkBotState
                      (mkBotConfig (SCHEDULE_CHANNEL_ID g) (Some m) (Some (ch_id c)))
                      (config_file st)),
                 mkPostActions old (Some (ch_id c, m)))
            end
    end.

(** [/post_schedule]. *)
Definition slash_post_schedule (c : channel) (sent : option Z) (st : bot_state)
    : bot_state * post_actions :=
  if negb (ch_send_messages c) then (st, nothing_done)
  else if negb (ch_embed_links c) then (st, nothing_done)
  else
    match sent with
    | None => (st, nothing_done)
    | Some m =>
        (save_bot_config
           (mkBotState
              (mkBotConfig (SCHEDULE_CHANNEL_ID (globals st)) (Some m)
                 (Some (ch_id c)))
              (config_file st)),
         mkPostActions None (Some (ch_id c, m)))
    end.

(** [/set_schedule_channel]. *)
Definition slash_set_schedule_channel (c : channel) (st : bot_state) : bot_state :=
  save_bot_config
    (mkBotState
       (mkBotConfig (Some (ch_id c)) (last_schedule_message_id (globals st))
          (last_schedule_channel_id (globals st)))
       (config_file st)).

(** [/clear_schedule_memory]. *)
Definition slash_clear_schedule_memory (st : bot_state) : bot_state :=
  save_bot_config
    (mkBotState (mkBotConfig (SCHEDULE_CHANNEL_ID (globals st)) None None)
       (config_file st)).

(** What can happen to the schedule configuration while the bot runs. *)
Inductive event : Type :=
  | ev_daily_task (current_time : Schedule.datetime) (guilds : list guild)
      (on_delete : delete_outcome) (sent : option Z)
  | ev_post_schedule (c : channel) (sent : option Z)
  | ev_set_schedule_channel (c : channel)
  | ev_clear_schedule_memory.

Definition handle (st : bot_state) (e : event) : bot_state :=
  match e with
  | ev_daily_task t gs d s => fst (weekly_schedule_post t gs d s st)
  | ev_post_schedule c s => fst (slash_post_schedule c s st)
  | ev_set_schedule_channel c => slash_set_schedule_channel c st
  | ev_clear_schedule_memory => slash_clear_schedule_memory st
  end.

(** The state at start-up: the variables are [None], then [on_ready] loads
    the file. *)
Definition startup (file : option bot_config) : bot_state :=
  load_bot_config (mkBotState (mkBotConfig None None None) file).

(** Stopping the bot and starting it again: the variables are lost, the
    file is kept. *)
Definition restart (st : bot_state) : bot_state := startup (config_file st).

End Posting.

(** ** Predicates of the further statements *)

(** [a] is not after [b] in name order. *)
Definition name_le (a b : House) : Prop := String.ltb (name b) (name a) = false.

(** The columns [update_house_data] can never write. *)
Definition identity_kept (h h' : House) : Prop :=
  house_id h' = house_id h /\ name h' = name h /\ goal h' = goal h.

(** The columns the update form must leave alone. *)
Definition untouched_by_update (h h' : House) : Prop :=
  house_id h' = house_id h /\ name h' = name h /\ quest h' = quest h /\
  goal h' = goal h /\ points_per_delivery h' = points_per_delivery h /\
  is_locked h' = is_locked h /\ completed_by h' = completed_by h /\
  notes h' = notes h /\ desert_location h' = desert_location h /\
  alliance h' = alliance h.

(** [h'] is [h] after the repair: an alliance or a completed-by outside
    the vocabulary is gone, everything else is as it was. *)
Definition repaired (h h' : House) : Prop :=
  house_id h' = house_id h /\ name h' = name h /\ quest h' = quest h /\
  current_goal h' = current_goal h /\ goal h' = goal h /\
  points_per_delivery h' = points_per_delivery h /\
  is_locked h' = is_locked h /\ notes h' = notes h /\
  desert_location h' = desert_location h /\
  deep_desert_cp h' = deep_desert_cp h /\
  last_updated h' = last_updated h /\ updated_by h' = updated_by h /\
  alliance h' = (if invalid_value (alliance h) then None else alliance h) /\
  completed_by h' =
    (if invalid_value (completed_by h) then None else completed_by h).

(** What the update form may do to a row: nothing to a row it does not
    name, and to the others nothing outside progress, control points and
    the stamps. *)
Definition form_rel (house_name : string) (h h' : House) : Prop :=
  untouched_by_update h h' /\ (name_matches house_name h = false -> h' = h).

(** Whether every character of a string passes a test. *)
Fixpoint all_chars (p : ascii -> bool) (s : string) : bool :=
  match s with
  | EmptyString => true
  | String c s' => p c && all_chars p s'
  end.

(** What the update form may do to the database: [form_rel] row by row,
    every other table as it was. *)
Definition form_step (house_name : string) (db db' : Database) : Prop :=
  Forall2 (form_rel house_name) (houses db) (houses db')
  /\ other_tables_unchanged db db'.

(** A field of the update form that the handler skips: blank, or not a
    number. *)
Definition skipped_input (text : string) : Prop :=
  String.eqb (Text.strip text) "" = true
  \/ exists e, PyInt.int (PyStr.replace (Text.strip text) "," "") = Raise e.

(** The two cells the form writes. *)
Definition form_field (field : string) : Prop :=
  field = "current_goal" \/ field = "deep_desert_cp".

(** A character that is neither white space nor a comma. *)
Definition plain_char (c : ascii) : bool :=
  negb (Text.is_space c) && negb (Ascii.eqb "," c).

(** Whether a string starts with a decimal digit. *)
Definition head_digit (s : string) : bool :=
  match s with
  | EmptyString => false
  | String c _ => PyInt.is_digit c
  end.

(** [s] followed by anything reads as the [k] digits of [n] and then the
    rest. *)
Definition reads (k : Z) (s : string) (n : Z) : Prop :=
  0 <= k /\
  forall (acc : string) (a : Z) (prev : bool),
    PyInt.digits (s ++ acc) a prev = PyInt.digits acc (a * 10 ^ k + n) true.

(** No character of the grouped form is white space. *)
Definition not_space (c : ascii) : bool := negb (Text.is_space c).

(** How many buttons of a view sit in row [r]. *)
Definition in_row (r : Z) (b : Button) : bool :=
  match b_row b with
  | Some r' => r' =? r
  | None => false
  end.

Definition buttons_in_row (r : Z) (bs : list Button) : Z :=
  Z.of_nat (List.length (filter (in_row r) bs)).

(** The 81 sector names of the grid, in the order the loops visit them. *)
Definition grid_ids : list string :=
  map (fun rc => grid_id (fst rc) (snd rc)) grid_cells.

(** Whether table [l] has a row for sector [sid]. *)
Definition has_sector (sid : string) (l : list Sector) : bool :=
  existsb (fun s => String.eqb (sector_id s) sid) l.

(** A row as [init_database_locations] inserts it. *)
Definition blank_sector (s : Sector) : Prop :=
  In (sector_id s) grid_ids /\ survey_status s = "unsurveyed"
  /\ last_surveyed s = None /\ surveyed_by s = None /\ sector_notes s = None.


(** What the sector actions may do to a sector row: the survey status
    stays, goes from "unsurveyed" to "partial", or becomes "complete". *)
Definition status_step (s s' : Sector) : Prop :=
  sector_id s' = sector_id s /\ row_letter s' = row_letter s
  /\ col_number s' = col_number s
  /\ (survey_status s' = survey_status s
      \/ (survey_status s = "unsurveyed" /\ survey_status s' = "partial")
      \/ survey_status s' = "complete").


(** The schedule memory is on file: the file holds the variables, or there
    is no file and nothing has been set. *)
Definition config_saved (st : Posting.bot_state) : Prop :=
  Posting.config_file st = Some (Posting.globals st)
  \/ (Posting.config_file st = None
      /\ Posting.globals st = Posting.mkBotConfig None None None).

(** A channel of one of the guilds. *)
Definition channel_of (guilds : list Posting.guild) (c : Posting.channel) : Prop :=
  exists g, In g guilds /\ In c g.

(** The channel the task chooses: the configured one when some guild has
    it, else the first with a conventional name. *)
Definition target_channel (guilds : list Posting.guild) (g : Posting.bot_config)
    : option Posting.channel :=
  match
    match Posting.SCHEDULE_CHANNEL_ID g with
    | Some id =>
        if Posting.truthy_id (Some id) then Posting.find_by_id guilds id else None
    | None => None
    end
  with
  | Some c => Some c
  | None => Posting.find_by_name guilds
  end.

(** What a button of the action view offers: its id and whether it is
    disabled. *)
Definition offer (b : Button) : option string * bool :=
  (b_custom_id b, b_disabled b).

(** ** The report channels

    Table [channel_config] (primary key [config_name]) is kept beside the
    database: rows in rowid order. *)
Module Reports.

Record ChannelConfig : Type := mkChannelConfig {
  config_name : string;
  channel_id : option string;
  message_id : option string;
  guild_id : option string
}.

(** [INSERT OR REPLACE INTO channel_config (config_name, channel_id,
    guild_id)]: a row with that name is deleted, the new row goes last, its
    [message_id] NULL. *)
Definition insert_or_replace (key channel guild : string)
    (t : list ChannelConfig) : list ChannelConfig :=
  filter (fun r => negb (String.eqb (config_name r) key)) t
  ++ [mkChannelConfig key (Some channel) None (Some guild)].

(** [UPDATE channel_config SET message_id = ? WHERE config_name = ? AND
    guild_id = ?]. *)
Definition set_message_id (key guild message : string)
    (t : list ChannelConfig) : list ChannelConfig :=
  map (fun r =>
         if String.eqb (config_name r) key && opt_eqb (guild_id r) guild
         then mkChannelConfig (config_name r) (channel_id r) (Some message)
                (guild_id r)
         else r) t.

(** How the platform answers: whether the message of a channel can be
    fetched and edited, and the identity of the message a send creates
    ([None]: sending raised). *)
Record platform : Type := mkPlatform {
  can_edit : Z -> Z -> bool;
  send : string -> Z -> option Z
}.

(** What a refresh did in the channels. *)
Inductive action : Type :=
  | edited (config : string) (channel message : Z)
  | sent (config : string) (channel message : Z).

Definition report_kinds : list string :=
  ["base_locations"; "spice_locations"; "control_points"; "resource_locations"].

(** The text of a column when it is truthy. *)
Definition text_of (o : option string) : option string :=
  match o with
  | Some s => if String.eqb s "" then None else Some s
  | None => None
  end.

(** Sending a new report and recording its message. *)
Definition send_new (guild : string) (pf : platform) (key : string) (c : Z)
    (t : list ChannelConfig) (acts : list action)
    : list ChannelConfig * list action :=
  match send pf key c with
  | None => (t, acts)
  | Some m => (set_message_id key guild (Text.str_int m) t, acts ++ [sent key c m])
  end.

(** The [try] of one turn of the loop: edit the recorded message, or send
    a new one when there is none or the edit fails. *)
Definition report_step (guild : string) (pf : platform) (row : ChannelConfig)
    (c : Z) (t : list ChannelConfig) (acts : list action)
    : list ChannelConfig * list action :=
  match text_of (message_id row) with
  | Some mtext =>
      match PyInt.int mtext with
      | Ok m =>
          if can_edit pf c m then (t, acts ++ [edited (config_name row) c m])
          else send_new guild pf (config_name row) c t acts
      | Raise _ => send_new guild pf (config_name row) c t acts
      end
  | None => send_new guild pf (config_name row) c t acts
  end.

(** The loop of [update_location_reports] over the rows it has read; an
    [int(channel_id)] that raises ends the function. *)
Fixpoint update_rows (guild : string) (g : Posting.guild) (pf : platform)
    (rows t : list ChannelConfig) (acts : list action)
    : list ChannelConfig * list action * option exn :=
  match rows with
  | [] => (t, acts, None)
  | row :: rest =>
      match text_of (channel_id row) with
      | None => update_rows guild g pf rest t acts
      | Some ctext =>
          match PyInt.int ctext with
          | Raise e => (t, acts, Some e)
          | Ok c =>
              match Posting.get_channel g c with
              | None => update_rows guild g pf rest t acts
              | Some _ =>
                  if negb (Text.mem (config_name row) report_kinds)
                  then update_rows guild g pf rest t acts
                  else
                    let '(t', acts') := report_step guild pf row c t acts in
                    update_rows guild g pf rest t' acts'
              end
          end
      end
  end.

(** [update_location_reports]; [g] is what [bot.get_guild] returns. *)
Definition update_location_reports (guild : Z) (g : option Posting.guild)
    (pf : platform) (t : list ChannelConfig)
    : list ChannelConfig * list action * option exn :=
  let guild_text := Text.str_int guild in
  let configs := filter (fun r => opt_eqb (guild_id r) guild_text) t in
  match g with
  | None => (t, [], None)
  | Some g => update_rows guild_text g pf configs t []
  end.

(** What a [set_..._channel] command leaves and did. *)
Record outcome : Type := mkOutcome {
  out_db : Database;
  out_config : list ChannelConfig;
  out_actions : list action;
  out_raised : option exn;
  out_accepted : bool
}.

(** The four [set_..._channel] commands, which differ in the name they
    write. *)
Definition set_channel (key : string) (manage_channels : bool)
    (channel guild : Z) (g : option Posting.guild) (pf : platform)
    (db : Database) (t : list ChannelConfig) : outcome :=
  if negb manage_channels then mkOutcome db t [] None false
  else
    let db' := init_database_locations db in
    let t' := insert_or_replace key (Text.str_int channel) (Text.str_int guild) t in
    let '(t'', acts, e) := update_location_reports guild g pf t' in
    mkOutcome db' t'' acts e true.

Definition set_base_locations_channel := set_channel "base_locations".
Definition set_spice_locations_channel := set_channel "spice_locations".
Definition set_control_points_channel := set_channel "control_points".
Definition set_resource_locations_channel := set_channel "resource_locations".

(** [refresh_location_reports]. *)
Definition refresh_location_reports (manage_messages : bool) (guild : Z)
    (g : option Posting.guild) (pf : platform) (t : list ChannelConfig)
    : list ChannelConfig * list action :=
  if negb manage_messages then (t, [])
  else
    let '(t', acts, _) := update_location_reports guild g pf t in (t', acts).

End Reports.

(** The table after the messages of [acts] have been recorded. *)
Definition record_action (guild : string) (t : list Reports.ChannelConfig)
    (a : Reports.action) : list Reports.ChannelConfig :=
  match a with
  | Reports.sent key _ m => Reports.set_message_id key guild (Text.str_int m) t
  | Reports.edited _ _ _ => t
  end.

Definition action_config (a : Reports.action) : string :=
  match a with
  | Reports.sent key _ _ => key
  | Reports.edited key _ _ => key
  end.

Definition is_sent (a : Reports.action) : bool :=
  match a with
  | Reports.sent _ _ _ => true
  | Reports.edited _ _ _ => false
  end.

(** A row after a refresh: only the recorded message may differ, and only
    in a row of the guild. *)
Definition refreshed (guild : string) (r r' : Reports.ChannelConfig) : Prop :=
  Reports.config_name r' = Reports.config_name r
  /\ Reports.channel_id r' = Reports.channel_id r
  /\ Reports.guild_id r' = Reports.guild_id r
  /\ (opt_eqb (Reports.guild_id r) guild = false -> r' = r).

(** How many rows carry a name. *)
Definition count_config (key : string) (t : list Reports.ChannelConfig) : nat :=
  List.length (filter (fun r => String.eqb (Reports.config_name r) key) t).

(** What entitles a refresh to an action on behalf of a row whose channel
    is [c]. *)
Definition justified_by (pf : Reports.platform) (row : Reports.ChannelConfig)
    (c : Z) (a : Reports.action) : Prop :=
  match a with
  | Reports.edited key c' m =>
      key = Reports.config_name row /\ c' = c
      /\ exists mtext,
           Reports.text_of (Reports.message_id row) = Some mtext
           /\ PyInt.int mtext = Ok m /\ Reports.can_edit pf c m = true
  | Reports.sent key c' m =>
      key = Reports.config_name row /\ c' = c
      /\ Reports.send pf (Reports.config_name row) c = Some m
  end.

Definition justified (g : Posting.guild) (pf : Reports.platform)
    (rows : list Reports.ChannelConfig) (a : Reports.action) : Prop :=
  exists row c,
    In row rows
    /\ Text.mem (Reports.config_name row) Reports.report_kinds = true
    /\ (exists ctext,
          Reports.text_of (Reports.channel_id row) = Some ctext
          /\ PyInt.int ctext = Ok c)
    /\ (exists ch, Posting.get_channel g c = Some ch)
    /\ justified_by pf row c a.

(** A row the export writes without dividing: a locked house, or an
    unclaimed one that has reached its goal. *)
Definition no_division (h : House) : bool :=
  negb (is_locked h =? 0)
  || (negb (truthy (alliance h)) && (goal h <=? current_goal h)).

(** The status and percentage cells of an export row. *)
Definition status_cells (r : list string) : string * string :=
  (nth 5 r "", nth 6 r "").

(** The columns of a house the weekly reset keeps. *)
Definition kept_by_reset (h : House) : Z * string * Z * Z * option string :=
  (house_id h, name h, goal h, points_per_delivery h, notes h).

(** What users do to the houses during a week, unlocking apart: claim
    actions and submissions of the update form. *)
Inductive week_action : Type :=
  | alliance_step (a : alliance_action) (user now : string)
  | update_step (house_name current_goal_input deep_desert_input user now1 now2 : string).

Definition run_week_action (db : Database) (w : week_action) : Database :=
  match w with
  | alliance_step a user now => fst (run_alliance_action a user now db)
  | update_step house_name cg dd user now1 now2 =>
      fst (update_on_submit house_name cg dd user now1 now2 db)
  end.

Definition run_week (l : list week_action) (db : Database) : Database :=
  fold_left run_week_action l db.

(** * Proofs *)

Section ListFacts.

Context {A B : Type}.

Lemma Forall2_map_self (P : A -> B -> Prop) (f : A -> B) (l : list A) :
  (forall x, In x l -> P x (f x)) -> Forall2 P l (map f l).
Proof.
  induction l as [|x l IH]; intros H; simpl; constructor.
  - apply H; left; reflexivity.
  - apply IH; intros y Hy; apply H; right; exact Hy.
Qed.

End ListFacts.

Lemma mem_In (x : string) (l : list string) : Text.mem x l = true <-> In x l.
Proof.
  unfold Text.mem. rewrite existsb_exists. split.
  - intros [y [Hy E]]. apply String.eqb_eq in E. subst. exact Hy.
  - intros H. exists x. split; [exact H | apply String.eqb_refl].
Qed.

Lemma update_where_Forall2 (P : House -> House -> Prop)
    (p : House -> bool) (f : House -> House) (hs : list House) :
  (forall h, In h hs -> P h (if p h then f h else h)) ->
  Forall2 P hs (update_where p f hs).
Proof. intros H. unfold update_where. apply Forall2_map_self. exact H. Qed.

Lemma update_where_compose (p : House -> bool) (f g : House -> House)
    (hs : list House) :
  (forall h, p (f h) = p h) ->
  update_where p g (update_where p f hs)
  = update_where p (fun h => g (f h)) hs.
Proof.
  intros Hp. unfold update_where. rewrite map_map. apply map_ext.
  intros h. destruct (p h) eqn:E.
  - rewrite Hp, E. reflexivity.
  - rewrite E. reflexivity.
Qed.

Lemma update_where_none (p : House -> bool) (f : House -> House) (l : list House) :
  (forall h, In h l -> p h = false) -> update_where p f l = l.
Proof.
  intros H. unfold update_where. induction l as [|h l IH]; [reflexivity|].
  cbn [map]. rewrite (H h (or_introl eq_refl)). f_equal. apply IH.
  intros x Hx. apply H. right. exact Hx.
Qed.

Lemma find_update_where (p : House -> bool) (f : House -> House) (l : list House) :
  (forall h, p (f h) = p h) ->
  find p (update_where p f l) = option_map f (find p l).
Proof.
  intros Hp. unfold update_where. induction l as [|x l IH]; [reflexivity|].
  cbn [map find]. destruct (p x) eqn:E.
  - rewrite Hp, E. reflexivity.
  - rewrite E. exact IH.
Qed.

(** C3: a claim, whatever alliance it is given, changes only [alliance] and
    the two stamps of the houses it names and leaves [completed_by], every
    other column, every other house and every other table as they were;
    after claiming for Atreides, then for Harkonnen, then unclaiming, the
    named house has no alliance and each house has the [completed_by] it
    started with. *)
Theorem claim_sets_only_alliance :
  forall (house_name : string) (a : option string) (who now : string)
         (db : Database),
    let db' := fst (claim_house_for_alliance house_name a who now db) in
    Forall2 (fun h h' =>
               untouched_by_claim h h' /\
               if name_matches house_name h
               then alliance h' = a /\ updated_by h' = who /\ last_updated h' = now
               else h' = h)
            (houses db) (houses db')
    /\ other_tables_unchanged db db'
    /\ forall u1 u2 u3 t1 t2 t3 : string,
         let db1 := fst (claim_house_for_alliance house_name (Some ATREIDES) u1 t1 db) in
         let db2 := fst (claim_house_for_alliance house_name (Some HARKONNEN) u2 t2 db1) in
         let db3 := fst (claim_house_for_alliance house_name None u3 t3 db2) in
         Forall2 (fun h h' =>
                    completed_by h' = completed_by h /\
                    if name_matches house_name h then alliance h' = None
                    else h' = h)
                 (houses db) (houses db3).
Proof.
  intros house_name a who now db. cbv zeta.
  split; [|split].
  - simpl. apply update_where_Forall2. intros h _.
    destruct (name_matches house_name h); unfold untouched_by_claim; simpl;
      repeat split; reflexivity.
  - unfold other_tables_unchanged; simpl. repeat split; reflexivity.
  - intros u1 u2 u3 t1 t2 t3. simpl.
    rewrite !update_where_compose by (intros; reflexivity).
    apply update_where_Forall2. intros h _.
    destruct (name_matches house_name h); simpl; repeat split; reflexivity.
Qed.

Lemma filter_ext_length (p q : House -> bool) (hs : list House) :
  (forall h, In h hs -> p h = q h) ->
  List.length (filter p hs) = List.length (filter q hs).
Proof.
  induction hs as [|h hs IH]; intros H; simpl; [reflexivity|].
  rewrite (H h (or_introl eq_refl)).
  destruct (q h); simpl; rewrite IH; auto; intros x Hx; apply H; right; exact Hx.
Qed.

(** With every stored alliance in the closed vocabulary, "not NULL" and
    "Atreides or Harkonnen" select the same houses. *)
Lemma count_claimed_valid (hs : list House) :
  Forall (fun h => valid_alliance (alliance h) = true) hs ->
  count_claimed hs = count_valid_claims hs.
Proof.
  intros H. unfold count_claimed, count_valid_claims. f_equal.
  apply filter_ext_length. intros h Hh.
  rewrite Forall_forall in H. specialize (H h Hh).
  destruct (alliance h) as [s|]; simpl in *; [|reflexivity].
  symmetry. exact H.
Qed.

(** C1, as stated, fails: with a user name stored as the alliance of one
    house, the reset logs one claimed house although no house is held by
    Atreides or Harkonnen. *)
Lemma weekly_reset_counts_corrupted_alliance :
  exists row : ResetLog,
    reset_log (fst (confirm_reset "admin" "2025-01-07 03:00:00"
                      "2025-01-07 03:00:00" corrupted_db)) = [row]
    /\ houses_completed row = 1
    /\ count_valid_claims (houses corrupted_db) = 0.
Proof.
  eexists. split; [vm_compute; reflexivity|]. split; reflexivity.
Qed.

(** C1, amended: whatever the houses table holds, the weekly reset leaves
    every row locked, with progress 0, quest "Unknown", no location, no
    completed-by, no alliance and control points 0, stamped with the actor
    and the time, keeps the rows' identity, goal, points per delivery and
    notes, and appends exactly one reset-log row, with [houses_reset] 25 and
    [houses_completed] the number of houses whose alliance was not NULL
    before the reset; that number is the number of houses held by Atreides
    or Harkonnen when every stored alliance is Atreides, Harkonnen or
    absent. *)
Theorem weekly_reset_resets_all_rows :
  forall (user now_update now_log : string) (db : Database),
    let db' := fst (confirm_reset user now_update now_log db) in
    Forall2 (is_reset user now_update) (houses db) (houses db')
    /\ (exists key : Z,
          reset_log db' =
          reset_log db ++
          [mkResetLog key now_log user 25 (count_claimed (houses db))])
    /\ snd (confirm_reset user now_update now_log db)
       = reset_complete (count_claimed (houses db))
    /\ (alliances_valid db ->
        count_claimed (houses db) = count_valid_claims (houses db))
    /\ sectors db' = sectors db.
Proof.
  intros user now_update now_log db. cbv zeta.
  split; [|split; [|split; [|split]]].
  - simpl. apply Forall2_map_self. intros h _.
    unfold is_reset; simpl. repeat split; reflexivity.
  - eexists. reflexivity.
  - reflexivity.
  - apply count_claimed_valid.
  - reflexivity.
Qed.

(** *** Roster reconciliation *)

Lemma has_name_In (n : string) (hs : list House) :
  existsb (fun h => String.eqb (name h) n) hs = true <-> In n (map name hs).
Proof.
  rewrite existsb_exists, in_map_iff. split.
  - intros [h [Hh E]]. apply String.eqb_eq in E. exists h. auto.
  - intros [h [E Hh]]. exists h. split; [exact Hh|]. apply String.eqb_eq. exact E.
Qed.

Lemma initial_houses_NoDup : NoDup initial_houses.
Proof.
  assert (E : nodup string_dec initial_houses = initial_houses)
    by (vm_compute; reflexivity).
  rewrite <- E. apply NoDup_nodup.
Qed.

Lemma filter_all {A : Type} (p : A -> bool) (l : list A) :
  (forall x, In x l -> p x = true) -> filter p l = l.
Proof.
  induction l as [|x l IH]; intros H; simpl; [reflexivity|].
  rewrite (H x (or_introl eq_refl)). f_equal. apply IH.
  intros y Hy. apply H. right. exact Hy.
Qed.

(** A DELETE keeps the names of the remaining rows unique. *)
Lemma kept_names_unique (keep : House -> bool) (hs : list House) :
  NoDup (map name hs) -> NoDup (map name (filter keep hs)).
Proof.
  intros Hnd. induction hs as [|h hs IH]; cbn [filter map]; [constructor|].
  apply NoDup_cons_iff in Hnd. destruct Hnd as [Hfresh Hrest].
  destruct (keep h); cbn [map]; [|exact (IH Hrest)].
  apply NoDup_cons_iff. split; [|exact (IH Hrest)].
  intros Hin. apply Hfresh.
  apply in_map_iff in Hin. destruct Hin as [h' [E Hh']].
  apply filter_In in Hh'. rewrite <- E. apply in_map. tauto.
Qed.

(** One INSERT OR IGNORE: a name already present leaves the rows alone; a
    new name appends its default row.  Either way the counter moves to the
    key that was picked. *)
Lemma insert_or_ignore_house_cases now hs sq n :
  (In n (map name hs)
   /\ insert_or_ignore_house now (hs, sq) n = (hs, next_key (map house_id hs) sq))
  \/ (~ In n (map name hs) /\
      exists key, insert_or_ignore_house now (hs, sq) n
                  = (hs ++ [default_house key n now], key)).
Proof.
  unfold insert_or_ignore_house.
  destruct (existsb (fun h => String.eqb (name h) n) hs) eqn:E.
  - left. split; [apply has_name_In; exact E | reflexivity].
  - right. split.
    + intros H. apply has_name_In in H. congruence.
    + eexists. reflexivity.
Qed.

Lemma fold_insert_spec now (L : list string) :
  forall hs sq hs' sq',
    fold_left (insert_or_ignore_house now) L (hs, sq) = (hs', sq') ->
    (forall h, In h hs -> In h hs')
    /\ (forall h, In h hs' ->
          In h hs \/ (In (name h) L /\ exists key, h = default_house key (name h) now))
    /\ (forall n, In n L -> In n (map name hs'))
    /\ (NoDup (map name hs) -> NoDup (map name hs')).
Proof.
  induction L as [|n L IH]; intros hs sq hs' sq' H; cbn [fold_left] in H.
  - inversion H; subst. repeat split; auto. intros m [].
  - destruct (insert_or_ignore_house_cases now hs sq n) as [[Hin E]|[Hnin [key E]]];
      rewrite E in H; apply IH in H; destruct H as (Ha & Hb & Hc & Hd).
    + repeat split; auto.
      * intros h Hh. destruct (Hb h Hh) as [?|[? ?]]; [left; auto|].
        right. split; [right|]; assumption.
      * intros m [<-|Hm]; [|auto].
        apply in_map_iff in Hin. destruct Hin as [h [<- Hh]].
        apply in_map. auto.
    + repeat split.
      * intros h Hh. apply Ha. apply in_or_app. left. exact Hh.
      * intros h Hh. destruct (Hb h Hh) as [Hh'|[? ?]].
        -- apply in_app_or in Hh'. destruct Hh' as [?|[<-|[]]]; [left; auto|].
           right. split; [left; reflexivity|]. exists key. reflexivity.
        -- right. split; [right|]; assumption.
      * intros m [<-|Hm]; [|auto].
        apply in_map_iff. exists (default_house key n now). split; [reflexivity|].
        apply Ha. apply in_or_app. right. left. reflexivity.
      * intros Hnd. apply Hd. rewrite map_app. simpl.
        apply NoDup_app_remove_l with (l := []). simpl.
        apply Permutation_NoDup with (l := n :: map name hs).
        -- apply Permutation_cons_append.
        -- constructor; assumption.
Qed.

(** The key picked is above every key of the table and above the counter. *)
Lemma next_key_bounds (keys : list Z) (sq : Z) :
  sq < next_key keys sq /\ Forall (fun k => k < next_key keys sq) keys.
Proof.
  unfold next_key. induction keys as [|k keys [IH1 IH2]]; cbn [fold_right].
  - split; [lia | constructor].
  - split; [lia|]. constructor; [lia|].
    eapply Forall_impl; [|exact IH2]. cbv beta. intros; lia.
Qed.

(** On a table whose keys the counter has reached, the key picked is the
    counter plus one. *)
Lemma next_key_above (keys : list Z) (sq : Z) :
  Forall (fun k => k <= sq) keys -> next_key keys sq = sq + 1.
Proof.
  unfold next_key. intros H. f_equal.
  induction H as [|k keys Hk _ IH]; cbn [fold_right]; lia.
Qed.

(** After an INSERT OR IGNORE the counter has reached every key. *)
Lemma insert_keys_reached now hs sq n hs' sq' :
  insert_or_ignore_house now (hs, sq) n = (hs', sq') ->
  Forall (fun k => k <= sq') (map house_id hs').
Proof.
  destruct (next_key_bounds (map house_id hs) sq) as [_ B].
  unfold insert_or_ignore_house.
  destruct (existsb (fun h => String.eqb (name h) n) hs); intros E;
    injection E as <- <-.
  - eapply Forall_impl; [|exact B]. cbv beta. intros; lia.
  - rewrite map_app. apply Forall_app. split.
    + eapply Forall_impl; [|exact B]. cbv beta. intros; lia.
    + constructor; [cbn; lia | constructor].
Qed.

Lemma fold_insert_keys_reached now (L : list string) :
  forall hs sq hs' sq',
    L <> [] ->
    fold_left (insert_or_ignore_house now) L (hs, sq) = (hs', sq') ->
    Forall (fun k => k <= sq') (map house_id hs').
Proof.
  induction L as [|n L IH]; intros hs sq hs' sq' NE H; [congruence|].
  cbn [fold_left] in H.
  destruct (insert_or_ignore_house now (hs, sq) n) as [hs1 sq1] eqn:E.
  destruct L as [|m L'].
  - cbn [fold_left] in H. injection H as <- <-.
    exact (insert_keys_reached _ _ _ _ _ _ E).
  - eapply IH; [discriminate | exact H].
Qed.

(** Inserting names that are all there leaves the rows alone and moves the
    counter by one for each name. *)
Lemma fold_insert_noop now (L : list string) (hs : list House) (sq : Z) :
  (forall n, In n L -> In n (map name hs)) ->
  Forall (fun k => k <= sq) (map house_id hs) ->
  fold_left (insert_or_ignore_house now) L (hs, sq)
  = (hs, sq + Z.of_nat (List.length L)).
Proof.
  revert sq.
  induction L as [|n L IH]; intros sq H K; cbn [fold_left List.length].
  - f_equal. lia.
  - destruct (insert_or_ignore_house_cases now hs sq n) as [[_ E]|[Hnin _]].
    + rewrite E, (next_key_above _ _ K).
      rewrite IH.
      * f_equal. lia.
      * intros m Hm. apply H. right. exact Hm.
      * eapply Forall_impl; [|exact K]. cbv beta. intros; lia.
    + exfalso. apply Hnin. apply H. left. reflexivity.
Qed.

Lemma with_houses_same (db : Database) :
  with_houses (houses db) (seq_houses db) db = db.
Proof. destruct db; reflexivity. Qed.

Lemma with_houses_twice (hs hs' : list House) (sq sq' : Z) (db : Database) :
  with_houses hs' sq' (with_houses hs sq db) = with_houses hs' sq' db.
Proof. reflexivity. Qed.

(** After a reconciliation the counter has reached every key. *)
Lemma populate_keys_reached now (db : Database) :
  Forall (fun k => k <= seq_houses (populate_initial_houses now db))
    (map house_id (houses (populate_initial_houses now db))).
Proof.
  unfold populate_initial_houses.
  destruct (fold_left (insert_or_ignore_house now) initial_houses
              (filter (fun h => Text.mem (name h) initial_houses) (houses db),
               seq_houses db)) as [hs sq] eqn:F.
  cbn [houses seq_houses with_houses].
  eapply fold_insert_keys_reached; [|exact F]. discriminate.
Qed.

(** A table that holds exactly roster names, each of them, keeps its rows
    under the reconciliation; the 25 ignored inserts move the counter. *)
Lemma populate_keeps_rows now (db : Database) :
  (forall h, In h (houses db) -> In (name h) initial_houses) ->
  (forall n, In n initial_houses -> In n (map name (houses db))) ->
  Forall (fun k => k <= seq_houses db) (map house_id (houses db)) ->
  populate_initial_houses now db
  = with_houses (houses db) (seq_houses db + 25) db.
Proof.
  intros Hall Hevery K. unfold populate_initial_houses.
  rewrite filter_all by (intros h Hh; apply mem_In; auto).
  rewrite fold_insert_noop by assumption.
  reflexivity.
Qed.

Lemma fold_left_cons_eq {A B : Type} (f : A -> B -> A) (x : B) (l : list B) (a : A) :
  fold_left f (x :: l) a = fold_left f l (f a x).
Proof. reflexivity. Qed.

Lemma reconcile_many_cons (t : string) (ts : list string) (db : Database) :
  reconcile_many (t :: ts) db = reconcile_many ts (populate_initial_houses t db).
Proof.
  exact (fold_left_cons_eq (fun d now => populate_initial_houses now d) t ts db).
Qed.

Lemma reconcile_many_keeps_rows (nows : list string) (db : Database) :
  (forall h, In h (houses db) -> In (name h) initial_houses) ->
  (forall n, In n initial_houses -> In n (map name (houses db))) ->
  Forall (fun k => k <= seq_houses db) (map house_id (houses db)) ->
  reconcile_many nows db
  = with_houses (houses db)
      (seq_houses db + 25 * Z.of_nat (List.length nows)) db.
Proof.
  revert db. induction nows as [|t nows IH]; intros db Hall Hevery K.
  - cbn [List.length Z.of_nat]. rewrite Z.mul_0_r, Z.add_0_r.
    symmetry. apply with_houses_same.
  - rewrite reconcile_many_cons, populate_keeps_rows by assumption.
    rewrite IH.
    + cbn [houses seq_houses with_houses List.length].
      rewrite with_houses_twice. f_equal. lia.
    + exact Hall.
    + exact Hevery.
    + cbn [houses seq_houses with_houses].
      eapply Forall_impl; [|exact K]. cbv beta. intros; lia.
Qed.

(** C4: on a houses table whose names are unique (the UNIQUE constraint of
    column [name]), one reconciliation, and so any non-empty sequence of
    them, leaves exactly the 25 roster houses: rows outside the roster are
    gone, roster rows that existed are kept as they were, each missing
    roster house is there as a fresh default row, and no other table
    changes.  A further reconciliation leaves every row of every table as
    it is; its 25 ignored inserts each take a key, so the key counter of
    table [houses], and nothing else, moves on by 25. *)
Theorem reconcile_roster_exact :
  forall (now : string) (later : list string) (db : Database),
    NoDup (map name (houses db)) ->
    let db' := populate_initial_houses now db in
    reconcile_many (now :: later) db
    = with_houses (houses db')
        (seq_houses db' + 25 * Z.of_nat (List.length later)) db'
    /\ Permutation (map name (houses db')) initial_houses
    /\ List.length (houses db') = 25%nat
    /\ (forall h, In h (houses db) -> In (name h) initial_houses ->
          In h (houses db'))
    /\ (forall h, In h (houses db) -> ~ In (name h) initial_houses ->
          ~ In h (houses db'))
    /\ (forall n, In n initial_houses -> ~ In n (map name (houses db)) ->
          exists key, In (default_house key n now) (houses db'))
    /\ (forall h, In h (houses db') ->
          In h (houses db) \/ exists key, h = default_house key (name h) now)
    /\ reset_log db' = reset_log db /\ sectors db' = sectors db
    /\ forall now' : string,
         populate_initial_houses now' db'
         = with_houses (houses db') (seq_houses db' + 25) db'.
Proof.
  intros now later db Hnd. cbv zeta.
  pose proof (populate_keys_reached now db) as K.
  set (kept := filter (fun h => Text.mem (name h) initial_houses) (houses db)).
  destruct (fold_left (insert_or_ignore_house now) initial_houses
              (kept, seq_houses db)) as [hs sq] eqn:F.
  assert (Hpop : populate_initial_houses now db = with_houses hs sq db).
  { unfold populate_initial_houses. fold kept. rewrite F. reflexivity. }
  rewrite Hpop in K. rewrite Hpop. cbn [houses seq_houses with_houses] in K.
  destruct (fold_insert_spec _ _ _ _ _ _ F) as (Ha & Hb & Hc & Hd).
  assert (Hkept : forall h, In h kept <-> In h (houses db) /\ In (name h) initial_houses).
  { intros h. unfold kept. rewrite filter_In, mem_In. reflexivity. }
  assert (Hnames : forall h, In h hs -> In (name h) initial_houses).
  { intros h Hh. destruct (Hb h Hh) as [Hk|[Hn _]]; [apply Hkept in Hk; tauto | exact Hn]. }
  assert (HndK : NoDup (map name kept)) by (apply kept_names_unique; exact Hnd).
  assert (Hperm : Permutation (map name hs) initial_houses).
  { apply NoDup_Permutation; [auto | apply initial_houses_NoDup |].
    intros n. split; [|apply Hc].
    intros Hn. apply in_map_iff in Hn. destruct Hn as [h [<- Hh]]. auto. }
  cbn [houses seq_houses with_houses].
  split; [|split; [|split; [|split; [|split; [|split; [|split; [|split; [|split]]]]]]]].
  - rewrite reconcile_many_cons, Hpop.
    rewrite (reconcile_many_keeps_rows later)
      by (cbn [houses seq_houses with_houses]; auto).
    reflexivity.
  - exact Hperm.
  - rewrite <- (length_map name), (Permutation_length Hperm). reflexivity.
  - intros h Hh Hn. apply Ha, Hkept. auto.
  - intros h Hh Hn Hin. apply Hn, Hnames, Hin.
  - intros n Hn Hnin.
    specialize (Hc n Hn). apply in_map_iff in Hc. destruct Hc as [h [E Hh]].
    destruct (Hb h Hh) as [Hk|[_ [key Hkey]]].
    + exfalso. apply Hnin. apply Hkept in Hk. rewrite <- E. apply in_map. tauto.
    + exists key. rewrite <- E, <- Hkey. exact Hh.
  - intros h Hh. destruct (Hb h Hh) as [Hk|[_ Hkey]].
    + left. apply Hkept in Hk. tauto.
    + right. exact Hkey.
  - reflexivity.
  - reflexivity.
  - intros t.
    rewrite populate_keeps_rows by (cbn [houses seq_houses with_houses]; auto).
    reflexivity.
Qed.

Lemma messy_db_unique_names : NoDup (map name (houses messy_db)).
Proof.
  assert (E : nodup string_dec (map name (houses messy_db))
              = map name (houses messy_db)) by (vm_compute; reflexivity).
  rewrite <- E. apply NoDup_nodup.
Qed.

(** The reconciliation of [messy_db] leaves the 25 roster names and keeps
    the row of house Sor. *)
Lemma reconcile_roster_exact_witness :
  Permutation
    (map name (houses (populate_initial_houses "2025-01-01 00:00:00" messy_db)))
    initial_houses
  /\ List.length (houses (populate_initial_houses "2025-01-01 00:00:00" messy_db))
     = 25%nat.
Proof.
  destruct (reconcile_roster_exact "2025-01-01 00:00:00" [] messy_db
              messy_db_unique_names) as (_ & Hperm & Hlen & _).
  split; [exact Hperm | exact Hlen].
Defined.

(** *** Unlocking *)









(** *** Turns remaining *)

Lemma ceil_div_spec (a b : Z) :
  0 < b -> (ceil_div a b - 1) * b < a <= ceil_div a b * b.
Proof.
  intros Hb. unfold ceil_div.
  pose proof (Z.div_mod (a + b - 1) b ltac:(lia)) as E.
  pose proof (Z.mod_pos_bound (a + b - 1) b Hb) as M.
  nia.
Qed.

(** The source's [-(-a // b)] is the ceiling of [a / b]. *)
Lemma neg_floor_neg_is_ceil (a b : Z) :
  0 < b -> - ((- a) / b) = ceil_div a b.
Proof.
  intros Hb. pose proof (ceil_div_spec a b Hb) as C.
  symmetry. apply Z.opp_inj. rewrite Z.opp_involutive.
  apply Z.div_unique with (r := ceil_div a b * b - a); lia.
Qed.

(** C6, as stated, fails: with nothing remaining the display shows one
    turn, not zero. *)
Lemma turns_at_goal_is_one :
  deliveries completed_house = ("PPD: 23" ++ Text.nl ++ "Turns: 1")%string
  /\ remaining completed_house = 0
  /\ ceil_div (remaining completed_house) (points_per_delivery completed_house) = 0.
Proof. repeat split; reflexivity. Qed.

(** C6, amended: a house claimed before reaching its goal shows "Claimed
    before completion" and no turns; otherwise, with points per delivery
    positive the turns shown are the ceiling of remaining over points per
    delivery, raised to 1 when that is 0 (so 100 remaining at 23 shows 5, and
    nothing remaining shows 1), and with points per delivery not positive
    the display shows the infinity sign. *)
Theorem turns_needed_is_ceiling_at_least_one :
  forall h : House,
    let ppd := points_per_delivery h in
    deliveries h =
      (if truthy (alliance h) && (current_goal h <? goal h)%Z then
         "PPD: " ++ Text.str_int ppd ++ Text.nl ++ "Claimed before completion"
       else if (0 <? ppd)%Z then
         "PPD: " ++ Text.str_int ppd ++ Text.nl ++ "Turns: "
         ++ Text.str_int (Z.max 1 (ceil_div (remaining h) ppd))%Z
       else "PPD: " ++ Text.str_int ppd ++ Text.nl ++ "Turns: ∞")%string
    /\ (0 < ppd ->
        (ceil_div (remaining h) ppd - 1) * ppd < remaining h
          <= ceil_div (remaining h) ppd * ppd)
    /\ (truthy (alliance h) = false -> remaining h = 100 -> ppd = 23 ->
        deliveries h = ("PPD: 23" ++ Text.nl ++ "Turns: 5")%string)
    /\ (truthy (alliance h) = false -> remaining h = 0 -> 0 < ppd ->
        deliveries h = ("PPD: " ++ Text.str_int ppd ++ Text.nl ++ "Turns: 1")%string).
Proof.
  intros h. cbv zeta.
  assert (D : deliveries h =
      (if truthy (alliance h) && (current_goal h <? goal h)%Z then
         "PPD: " ++ Text.str_int (points_per_delivery h) ++ Text.nl
         ++ "Claimed before completion"
       else if (0 <? points_per_delivery h)%Z then
         "PPD: " ++ Text.str_int (points_per_delivery h) ++ Text.nl ++ "Turns: "
         ++ Text.str_int (Z.max 1 (ceil_div (remaining h) (points_per_delivery h)))
       else "PPD: " ++ Text.str_int (points_per_delivery h) ++ Text.nl
            ++ "Turns: ∞")%string).
  { unfold deliveries, remaining.
    destruct (truthy (alliance h) && (current_goal h <? goal h)); [reflexivity|].
    destruct (0 <? points_per_delivery h) eqn:P; [|reflexivity].
    apply Z.ltb_lt in P. rewrite neg_floor_neg_is_ceil by exact P. reflexivity. }
  split; [exact D|]. split; [apply ceil_div_spec|]. split.
  - intros Ha Hr Hp. rewrite D, Ha, Hr, Hp. reflexivity.
  - intros Ha Hr Hp. rewrite D, Ha, Hr.
    apply Z.ltb_lt in Hp as Hp'. rewrite Hp'. cbn [andb].
    replace (ceil_div 0 (points_per_delivery h)) with 0; [reflexivity|].
    unfold ceil_div. symmetry. apply Z.div_small. lia.
Qed.

(** *** Percentages *)

Lemma truediv_raises (a b : Z) (e : exn) :
  PyFloat.truediv a b = Raise e ->
  (b = 0 /\ e = ZeroDivisionError) \/ (b <> 0 /\ e = OverflowError).
Proof.
  unfold PyFloat.truediv. destruct (b =? 0) eqn:E; intros H.
  - apply Z.eqb_eq in E. inversion H. auto.
  - apply Z.eqb_neq in E.
    destruct (SFdiv PyFloat.prec PyFloat.emax (PyFloat.exact a) (PyFloat.exact b));
      inversion H. auto.
Qed.

Lemma to_int_raises (x : PyFloat.float) (e : exn) :
  PyFloat.to_int x = Raise e -> e <> ZeroDivisionError.
Proof. destruct x; cbn [PyFloat.to_int]; intros H; inversion H; discriminate. Qed.

(** The progress bar never divides by zero. *)
Lemma create_progress_bar_guarded (current max_val : Z) :
  create_progress_bar current max_val <> Raise ZeroDivisionError.
Proof.
  unfold create_progress_bar.
  destruct (max_val <=? 0) eqn:G; [discriminate|]. apply Z.leb_gt in G.
  destruct (PyFloat.truediv current max_val) as [ratio|e] eqn:T.
  - cbn [bind].
    destruct (PyFloat.to_int
                (PyFloat.div_int (PyFloat.min_int 100 (PyFloat.mul_int ratio 100)) 5))
      as [filled|e] eqn:I; cbn [bind]; [discriminate|].
    apply to_int_raises in I. congruence.
  - apply truediv_raises in T. destruct T as [[T _]|[_ ->]]; [lia|discriminate].
Qed.

(** The percentage of the detail view never divides by zero. *)
Lemma progress_pct_guarded (current goal_arg : Z) :
  progress_pct current goal_arg <> Raise ZeroDivisionError.
Proof.
  unfold progress_pct. destruct (0 <? goal_arg) eqn:G; [|discriminate].
  apply Z.ltb_lt in G.
  destruct (PyFloat.truediv current goal_arg) as [ratio|e] eqn:T;
    cbn [bind]; [discriminate|].
  apply truediv_raises in T. destruct T as [[T _]|[_ ->]]; [lia|discriminate].
Qed.

Lemma create_house_info_embed_guarded (h : House) :
  create_house_info_embed h <> Raise ZeroDivisionError.
Proof.
  unfold create_house_info_embed.
  pose proof (progress_pct_guarded (current_goal h) (goal h)) as P.
  destruct (progress_pct (current_goal h) (goal h)) as [pct|e]; cbn [bind];
    [|congruence].
  pose proof (create_progress_bar_guarded (current_goal h) (goal h)) as B.
  destruct (create_progress_bar (current_goal h) (goal h)) as [bar|e];
    cbn [bind]; [discriminate|congruence].
Qed.

Lemma create_progress_bar_cells (current max_val : Z) (bar : string) :
  create_progress_bar current max_val = Ok bar ->
  exists filled empty pct,
    progress_bar_cells current max_val = Ok (filled, empty)
    /\ filled + empty = 20
    /\ bar = ("[" ++ Text.repeat "█" filled ++ Text.repeat "░" empty ++ "] "
              ++ pct ++ "%")%string.
Proof.
  unfold create_progress_bar, progress_bar_cells.
  destruct (max_val <=? 0).
  - intros H. inversion H. exists 0, 20, "0.0". repeat split; reflexivity.
  - destruct (PyFloat.truediv current max_val) as [ratio|e]; cbn [bind];
      [|discriminate].
    destruct (PyFloat.to_int _) as [filled|e]; cbn [bind]; [|discriminate].
    intros H. inversion H. do 3 eexists. repeat split. lia.
Qed.

Lemma insert_by_name_In (h x : House) (sorted : list House) :
  In x (insert_by_name h sorted) <-> x = h \/ In x sorted.
Proof.
  induction sorted as [|y rest IH]; cbn [insert_by_name].
  - simpl. intuition.
  - destruct (String.ltb (name h) (name y)); simpl; [intuition|].
    rewrite IH. intuition.
Qed.

(** Sorting loses no row. *)
Lemma get_all_houses_In (db : Database) (h : House) :
  In h (houses db) -> In h (get_all_houses db).
Proof.
  unfold get_all_houses.
  assert (G : forall l acc, In h l \/ In h acc ->
              In h (fold_left (fun sorted x => insert_by_name x sorted) l acc)).
  { induction l as [|x l IH]; intros acc [H|H]; cbn [fold_left];
      try contradiction; auto.
    - apply IH. destruct H as [->|H]; [right|left; exact H].
      apply insert_by_name_In. left. reflexivity.
    - apply IH. right. apply insert_by_name_In. right. exact H. }
  intros H. apply G. left. exact H.
Qed.

(** One failing row fails the whole export. *)
Lemma export_rows_raises (hs : list House) (h : House) (e : exn) :
  In h hs -> export_row h = Raise e -> exists e', export_rows hs = Raise e'.
Proof.
  induction hs as [|x hs IH]; intros Hin Hr; [contradiction|].
  cbn [export_rows]. destruct (export_row x) as [r|ex] eqn:X; cbn [bind].
  - destruct Hin as [->|Hin]; [congruence|].
    destruct (IH Hin Hr) as [e' ->]. cbn [bind]. eauto.
  - eauto.
Qed.

(** C7: the progress bar and the detail view guard their division, and
    render 35000 of 70000 as 50.0% with 10 filled and 10 empty cells and 0
    of 0 as 0.0%; the export divides by the goal without a guard, so the
    row of an unlocked house with an alliance and goal 0 raises
    [ZeroDivisionError], and with it the whole export. *)
Theorem export_divides_by_zero_goal :
  export_row zero_goal_house = Raise ZeroDivisionError
  /\ slash_export_data zero_goal_db = Raise ZeroDivisionError
  /\ (forall h : House,
        is_locked h = 0 -> truthy (alliance h) = true -> goal h = 0 ->
        export_row h = Raise ZeroDivisionError)
  /\ (forall (db : Database) (h : House) (e : exn),
        In h (houses db) -> export_row h = Raise e ->
        exists e', slash_export_data db = Raise e')
  /\ (forall current max_val : Z,
        create_progress_bar current max_val <> Raise ZeroDivisionError)
  /\ (forall h : House, create_house_info_embed h <> Raise ZeroDivisionError)
  /\ (forall current max_val : Z, max_val <= 0 ->
        create_progress_bar current max_val = Ok "[░░░░░░░░░░░░░░░░░░░░] 0.0%")
  /\ create_progress_bar 0 0 = Ok "[░░░░░░░░░░░░░░░░░░░░] 0.0%"
  /\ create_progress_bar 35000 70000 = Ok "[██████████░░░░░░░░░░] 50.0%"
  /\ progress_bar_cells 35000 70000 = Ok (10, 10).
Proof.
  split; [vm_compute; reflexivity|].
  split; [vm_compute; reflexivity|].
  split.
  { intros h Hl Ha Hg. unfold export_row. rewrite Hl, Ha, Hg.
    cbn [Z.eqb negb]. unfold PyFloat.truediv. cbn [Z.eqb bind]. reflexivity. }
  split.
  { intros db h e Hin Hr. unfold slash_export_data.
    apply export_rows_raises with (h := h) (e := e); [|exact Hr].
    apply get_all_houses_In. exact Hin. }
  split; [exact create_progress_bar_guarded|].
  split; [exact create_house_info_embed_guarded|].
  split.
  { intros current max_val H. unfold create_progress_bar.
    apply Z.leb_le in H. rewrite H. reflexivity. }
  split; [reflexivity|].
  split; vm_compute; reflexivity.
Qed.

(** *** Weekly schedule *)

Section ScheduleFacts.

Import Schedule.

Lemma weekday_range (d : datetime) : 0 <= weekday d < 7.
Proof. unfold weekday. apply Z.mod_pos_bound. lia. Qed.

Lemma of_us_to_us (d : datetime) : valid d -> of_us (to_us d) = d.
Proof.
  destruct d as [o h m s u]. unfold valid, of_us, to_us. simpl.
  intros (Hh & Hm & Hs & Hu).
  assert (E1 : ((((o * 24 + h) * 60 + m) * 60 + s) * 1000000 + u) / 86400000000 = o).
  { symmetry. apply Z.div_unique with (r := ((h * 60 + m) * 60 + s) * 1000000 + u); lia. }
  assert (E2 : ((((o * 24 + h) * 60 + m) * 60 + s) * 1000000 + u) / 3600000000
               = o * 24 + h).
  { symmetry. apply Z.div_unique with (r := (m * 60 + s) * 1000000 + u); lia. }
  assert (E3 : ((((o * 24 + h) * 60 + m) * 60 + s) * 1000000 + u) / 60000000
               = (o * 24 + h) * 60 + m).
  { symmetry. apply Z.div_unique with (r := s * 1000000 + u); lia. }
  assert (E4 : ((((o * 24 + h) * 60 + m) * 60 + s) * 1000000 + u) / 1000000
               = ((o * 24 + h) * 60 + m) * 60 + s).
  { symmetry. apply Z.div_unique with (r := u); lia. }
  rewrite E1, E2, E3, E4. f_equal.
  - symmetry. apply Z.mod_unique with (q := o); lia.
  - symmetry. apply Z.mod_unique with (q := o * 24 + h); lia.
  - symmetry. apply Z.mod_unique with (q := (o * 24 + h) * 60 + m); lia.
  - symmetry. apply Z.mod_unique with (q := ((o * 24 + h) * 60 + m) * 60 + s); lia.
Qed.

(** Adding whole days to a valid datetime moves the date and nothing
    else. *)
Lemma add_days (d : datetime) (k : Z) :
  valid d ->
  add_timedelta d k 0 =
  mkDatetime (ordinal d + k) (hour d) (minute d) (second d) (microsecond d).
Proof.
  intros V. unfold add_timedelta.
  replace (to_us d + k * 86400000000 + 0 * 3600000000)
    with (to_us (mkDatetime (ordinal d + k) (hour d) (minute d) (second d)
                   (microsecond d)))
    by (unfold to_us; simpl; lia).
  apply of_us_to_us. exact V.
Qed.

(** Ten hours after 17:00 is 03:00 of the next day. *)
Lemma ten_hours_after_17 (o : Z) :
  add_timedelta (mkDatetime o 17 0 0 0) 0 10 = mkDatetime (o + 1) 3 0 0 0.
Proof.
  unfold add_timedelta.
  replace (to_us (mkDatetime o 17 0 0 0) + 0 * 86400000000 + 10 * 3600000000)
    with (to_us (mkDatetime (o + 1) 3 0 0 0))
    by (unfold to_us; simpl; lia).
  apply of_us_to_us. unfold valid. simpl. lia.
Qed.

Lemma get_next_weekday_refines (wd h m : Z) (now : datetime) :
  valid now -> 0 <= wd < 7 -> 0 <= h < 24 -> 0 <= m < 60 ->
  get_next_weekday wd h m now = next_occurrence_spec wd h m now.
Proof.
  intros V Hwd Hh Hm. pose proof (weekday_range now) as W.
  unfold get_next_weekday, next_occurrence_spec, this_week_occurrence, geb.
  destruct V as (Vh & Vm & Vs & Vu).
  assert (V : valid now) by (unfold valid; auto).
  cbn [ordinal].
  destruct (wd - weekday now <? 0) eqn:C1.
  - apply Z.ltb_lt in C1. rewrite add_days by exact V. unfold replace. cbn [ordinal].
    replace (to_us (mkDatetime (ordinal now - weekday now + wd) h m 0 0) <=? to_us now)
      with true
      by (symmetry; apply Z.leb_le; unfold to_us; simpl; lia).
    f_equal. lia.
  - apply Z.ltb_ge in C1. destruct (wd - weekday now =? 0) eqn:C2.
    + apply Z.eqb_eq in C2.
      replace (ordinal now - weekday now + wd) with (ordinal now) by lia.
      unfold replace.
      destruct (to_us (mkDatetime (ordinal now) h m 0 0) <=? to_us now);
        rewrite add_days by exact V; cbn [ordinal]; f_equal; lia.
    + apply Z.eqb_neq in C2. rewrite add_days by exact V. unfold replace. cbn [ordinal].
      replace (to_us (mkDatetime (ordinal now - weekday now + wd) h m 0 0) <=? to_us now)
        with false
        by (symmetry; apply Z.leb_gt; unfold to_us; simpl; lia).
      f_equal. lia.
Qed.

Lemma next_occurrence_spec_weekday (wd h m : Z) (now : datetime) :
  0 <= wd < 7 -> weekday (next_occurrence_spec wd h m now) = wd.
Proof.
  intros Hwd. unfold next_occurrence_spec, this_week_occurrence.
  pose proof (Z.div_mod (ordinal now + 6) 7 ltac:(lia)) as E.
  destruct (_ <=? _); unfold weekday in *; cbn [ordinal]; symmetry.
  - apply Z.mod_unique with (q := (ordinal now + 6) / 7 + 1); lia.
  - apply Z.mod_unique with (q := (ordinal now + 6) / 7); lia.
Qed.

Lemma next_occurrence_spec_after (wd h m : Z) (now : datetime) :
  valid now -> 0 <= wd < 7 -> 0 <= h < 24 -> 0 <= m < 60 ->
  to_us now < to_us (next_occurrence_spec wd h m now)
            <= to_us now + 7 * 86400000000.
Proof.
  intros (Vh & Vm & Vs & Vu) Hwd Hh Hm. pose proof (weekday_range now) as W.
  unfold next_occurrence_spec, this_week_occurrence.
  destruct (_ <=? _) eqn:C; [apply Z.leb_le in C | apply Z.leb_gt in C];
    unfold to_us in *; cbn [ordinal hour minute second microsecond] in *; lia.
Qed.

End ScheduleFacts.

(** C8: for a clock reading [now] and a target weekday and time, the next
    occurrence the code computes is the one the rule describes: this week's
    occurrence when it is still ahead, and seven days later when it has
    passed or is exactly now; it falls on the target weekday, strictly after
    [now] and at most a week ahead.  So at Wednesday 10:00 the storm starts
    on the Monday five days ahead at 17:00, at Monday 17:00 sharp it starts
    on the Monday a week later, the storm ends ten hours after it starts
    (Tuesday 03:00) and the new term starts when the storm ends. *)
Theorem next_occurrence_rule :
  forall (wd h m : Z) (now now2 : Schedule.datetime),
    Schedule.valid now -> 0 <= wd < 7 -> 0 <= h < 24 -> 0 <= m < 60 ->
    let r := Schedule.get_next_weekday wd h m now in
    let ev := Schedule.calculate_schedule_events now now2 in
    r = Schedule.next_occurrence_spec wd h m now
    /\ Schedule.weekday r = wd
    /\ Schedule.to_us now < Schedule.to_us r
         <= Schedule.to_us now + 7 * 86400000000
    /\ (Schedule.weekday now = 2 -> Schedule.hour now = 10 ->
        Schedule.minute now = 0 ->
        Schedule.coriolis_start ev
        = Schedule.mkDatetime (Schedule.ordinal now + 5) 17 0 0 0)
    /\ (Schedule.weekday now = 0 -> Schedule.hour now = 17 ->
        Schedule.minute now = 0 -> Schedule.second now = 0 ->
        Schedule.microsecond now = 0 ->
        Schedule.coriolis_start ev
        = Schedule.mkDatetime (Schedule.ordinal now + 7) 17 0 0 0)
    /\ Schedule.to_us (Schedule.coriolis_end ev)
       = Schedule.to_us (Schedule.coriolis_start ev) + 10 * 3600000000
    /\ Schedule.coriolis_end ev
       = Schedule.mkDatetime (Schedule.ordinal (Schedule.coriolis_start ev) + 1)
           3 0 0 0
    /\ Schedule.landsraad_new_term ev = Schedule.coriolis_end ev.
Proof.
  intros wd h m now now2 V Hwd Hh Hm. cbv zeta.
  rewrite (get_next_weekday_refines wd h m now V Hwd Hh Hm).
  split; [reflexivity|].
  split; [apply next_occurrence_spec_weekday; exact Hwd|].
  split; [apply next_occurrence_spec_after; assumption|].
  unfold Schedule.calculate_schedule_events.
  cbn [Schedule.coriolis_start Schedule.coriolis_end Schedule.landsraad_new_term].
  rewrite (get_next_weekday_refines 0 17 0 now V) by lia.
  assert (S17 : Schedule.next_occurrence_spec 0 17 0 now =
                Schedule.mkDatetime
                  (Schedule.ordinal (Schedule.next_occurrence_spec 0 17 0 now))
                  17 0 0 0).
  { unfold Schedule.next_occurrence_spec, Schedule.this_week_occurrence.
    destruct (_ <=? _); reflexivity. }
  split; [|split; [|split; [|split]]].
  - intros Hw Hhr Hmin. destruct V as (Vh & Vm & Vs & Vu).
    unfold Schedule.next_occurrence_spec, Schedule.this_week_occurrence.
    rewrite Hw. cbn [Schedule.ordinal].
    replace (_ <=? _) with true
      by (symmetry; apply Z.leb_le; unfold Schedule.to_us; simpl; lia).
    f_equal. lia.
  - intros Hw Hhr Hmin Hsec Hus.
    unfold Schedule.next_occurrence_spec, Schedule.this_week_occurrence.
    rewrite Hw. cbn [Schedule.ordinal].
    replace (_ <=? _) with true
      by (symmetry; apply Z.leb_le; unfold Schedule.to_us; simpl; lia).
    f_equal. lia.
  - rewrite S17, ten_hours_after_17. unfold Schedule.to_us.
    cbn [Schedule.ordinal Schedule.hour Schedule.minute Schedule.second
         Schedule.microsecond]. lia.
  - rewrite S17 at 1. rewrite ten_hours_after_17. reflexivity.
  - reflexivity.
Qed.

(** At Wednesday 1 January 2025, 10:00, the next Monday 17:00 is 6 January,
    five days ahead. *)
Lemma next_occurrence_rule_witness :
  Schedule.get_next_weekday 0 17 0 wednesday_10
  = Schedule.next_occurrence_spec 0 17 0 wednesday_10
  /\ Schedule.coriolis_start
       (Schedule.calculate_schedule_events wednesday_10 wednesday_10)
     = monday_17.
Proof.
  assert (V : Schedule.valid wednesday_10)
    by (unfold Schedule.valid, wednesday_10; simpl; lia).
  destruct (next_occurrence_rule 0 17 0 wednesday_10 wednesday_10 V
              ltac:(lia) ltac:(lia) ltac:(lia)) as (E & _ & _ & W & _).
  split; [exact E|].
  exact (W eq_refl eq_refl eq_refl).
Defined.

(** *** Survey status when a point of interest is added *)

Lemma status_of_advance (sector : string) (l : list Sector) (db : Database) :
  status_of sector (with_sectors (advance_to_partial sector l) db)
  = option_map (fun st => if String.eqb st "unsurveyed" then "partial" else st)
      (status_of sector (with_sectors l db)).
Proof.
  unfold status_of. cbn [sectors with_sectors].
  induction l as [|s l IH]; [reflexivity|].
  cbn [advance_to_partial map find].
  destruct (String.eqb (sector_id s) sector) eqn:E.
  - cbn [sector_id]. rewrite E. reflexivity.
  - rewrite E. exact IH.
Qed.

Lemma status_of_sectors (sector : string) (d1 d2 : Database) :
  sectors d1 = sectors d2 -> status_of sector d1 = status_of sector d2.
Proof. unfold status_of. intros ->. reflexivity. Qed.

(** A successful [/quickadd] moves the sector from "unsurveyed" to
    "partial" and leaves any other status. *)
Lemma quickadd_status (sector location_type name_arg user now : string)
    (db db' : Database) :
  slash_quickadd sector location_type name_arg user now db
  = (db', Ok location_added) ->
  status_of (Text.upper sector) db'
  = option_map (fun st => if String.eqb st "unsurveyed" then "partial" else st)
      (status_of (Text.upper sector) db).
Proof.
  unfold slash_quickadd.
  destruct (valid_sector (Text.upper sector)); cbn [negb]; [|discriminate].
  destruct (Text.mem (Text.lower location_type) _); cbn [negb]; [|discriminate].
  destruct (String.eqb (Text.lower location_type) "base");
    [|destruct (String.eqb (Text.lower location_type) "spice");
      [|destruct (String.eqb (Text.lower location_type) "landsraad");
        [discriminate|]]];
    intros H; inversion H; subst; clear H;
    rewrite status_of_advance; f_equal; apply status_of_sectors; reflexivity.
Qed.

(** C9: the four forms of the sector view add their point of interest and
    leave the sectors table as it was, so a sector that was "unsurveyed"
    stays "unsurveyed" (the claim says it becomes "partial"); each form
    answers that the location was added, but for a spice form whose yield
    is an integer beyond 64 bits, which raises instead; [/quickadd],
    where it succeeds, does advance "unsurveyed" to "partial" and keeps
    "complete"; its [landsraad] branch raises and adds nothing. *)
Theorem form_add_leaves_unsurveyed :
  (let r := submit_form "A1"
              (guild_base_form "Cold Breakfast Militia" "main" "" "" "")
              "scout" "2025-01-03 12:00:00" one_sector_db in
   status_of "A1" one_sector_db = Some "unsurveyed"
   /\ List.length (guild_bases (fst r)) = 1%nat
   /\ status_of "A1" (fst r) = Some "unsurveyed")
  /\ (forall (sector : string) (f : poi_form) (user now : string) (db : Database),
        sectors (fst (submit_form sector f user now db)) = sectors db
        /\ snd (submit_form sector f user now db)
           = if form_binds f then Ok location_added else Raise OverflowError)
  /\ (forall (sector location_type name_arg user now : string) (db db' : Database),
        slash_quickadd sector location_type name_arg user now db
        = (db', Ok location_added) ->
        (status_of (Text.upper sector) db = Some "unsurveyed" ->
         status_of (Text.upper sector) db' = Some "partial")
        /\ (status_of (Text.upper sector) db = Some "complete" ->
            status_of (Text.upper sector) db' = Some "complete"))
  /\ slash_quickadd "a1" "spice" "big field" "scout" "2025-01-03 12:00:00"
       one_sector_db
     = (with_sectors [mkSector "A1" "A" 1 "partial" None None None]
          (with_spice_locations
             [mkSpiceLocation 1 "A1" "unknown" (Some "unknown") None
                "2025-01-03 12:00:00" (Some "scout") None 0 None
                (Some "big field")] 1 one_sector_db),
        Ok location_added)
  /\ (let db1 := fst (mark_surveyed_callback "A1" "scout" "2025-01-03 11:00:00"
                        one_sector_db) in
      status_of "A1" db1 = Some "complete"
      /\ status_of "A1"
           (fst (slash_quickadd "A1" "base" "Cold Breakfast Militia" "scout"
                   "2025-01-03 12:00:00" db1)) = Some "complete")
  /\ (forall (sector name_arg user now : string) (db : Database),
        valid_sector (Text.upper sector) = true ->
        slash_quickadd sector "landsraad" name_arg user now db
        = (db, Raise OperationalError)).
Proof.
  split; [vm_compute; repeat split; reflexivity|].
  split.
  { intros sector f user now db. destruct f; try (split; reflexivity).
    cbn [submit_form form_binds]. unfold add_spice_on_submit. cbv zeta.
    destruct (match optional_int estimated_yield with
              | Some z => fits_int64 z
              | None => true
              end); split; reflexivity. }
  split.
  { intros sector location_type name_arg user now db db' H.
    apply quickadd_status in H. rewrite H.
    split; intros ->; reflexivity. }
  split; [vm_compute; reflexivity|].
  split; [vm_compute; split; reflexivity|].
  intros sector name_arg user now db V. unfold slash_quickadd. rewrite V.
  reflexivity.
Qed.

(** *** The alliance vocabulary *)













(** * Further properties of the code *)

(** *** Counting rows *)

Lemma rowcount_cons (p : House -> bool) (h : House) (l : list House) :
  rowcount p (h :: l) = (if p h then 1 else 0) + rowcount p l.
Proof.
  unfold rowcount. cbn [filter]. destruct (p h); cbn [List.length]; lia.
Qed.

Lemma rowcount_nonneg (p : House -> bool) (l : list House) : 0 <= rowcount p l.
Proof. unfold rowcount. lia. Qed.

Lemma rowcount_le_length (p : House -> bool) (l : list House) :
  rowcount p l <= Z.of_nat (List.length l).
Proof.
  induction l as [|h l IH]; [unfold rowcount; simpl; lia|].
  rewrite rowcount_cons. cbn [List.length]. destruct (p h); lia.
Qed.

Lemma rowcount_perm (p : House -> bool) (l l' : list House) :
  Permutation l l' -> rowcount p l = rowcount p l'.
Proof.
  induction 1 as [|x l l' _ IH|x y l|l l' l'' _ IH1 _ IH2];
    rewrite ?rowcount_cons; lia.
Qed.

(** A row is found exactly when the UPDATE with the same WHERE clause
    changes at least one row. *)
Lemma rowcount_positive_find (p : House -> bool) (l : list House) :
  (0 <? rowcount p l) = true <-> exists h, find p l = Some h.
Proof.
  induction l as [|x l IH].
  - unfold rowcount. simpl. split; [discriminate | intros [h H]; discriminate].
  - rewrite rowcount_cons. cbn [find]. destruct (p x).
    + pose proof (rowcount_nonneg p l). split; [eauto | intros _; apply Z.ltb_lt; lia].
    + cbn [Z.add]. exact IH.
Qed.

(** *** The houses in name order *)

Lemma insert_by_name_perm (h : House) (l : list House) :
  Permutation (insert_by_name h l) (h :: l).
Proof.
  induction l as [|x l IH]; cbn [insert_by_name]; [reflexivity|].
  destruct (String.ltb (name h) (name x)); [reflexivity|].
  rewrite IH. apply perm_swap.
Qed.

Lemma ltb_asym (a b : string) : String.ltb a b = true -> String.ltb b a = false.
Proof.
  unfold String.ltb. destruct (String.compare a b) eqn:E; try discriminate.
  intros _. rewrite String.compare_antisym, E. reflexivity.
Qed.

Lemma insert_by_name_sorted (h : House) (l : list House) :
  Sorted.Sorted name_le l -> Sorted.Sorted name_le (insert_by_name h l).
Proof.
  induction 1 as [|x l Hs IH Hd]; cbn [insert_by_name].
  - repeat constructor.
  - destruct (String.ltb (name h) (name x)) eqn:E.
    + constructor; [constructor; assumption|].
      constructor. unfold name_le. apply ltb_asym. exact E.
    + constructor; [exact IH|].
      destruct l as [|y l]; cbn [insert_by_name].
      * constructor. exact E.
      * destruct (String.ltb (name h) (name y)); constructor;
          [exact E | inversion Hd; assumption].
Qed.

Lemma sort_by_name_spec (hs acc : list House) :
  Sorted.Sorted name_le acc ->
  Sorted.Sorted name_le (fold_left (fun sorted h => insert_by_name h sorted) hs acc)
  /\ Permutation (fold_left (fun sorted h => insert_by_name h sorted) hs acc)
       (hs ++ acc).
Proof.
  revert acc. induction hs as [|h hs IH]; intros acc Hs; cbn [fold_left].
  - split; [exact Hs | reflexivity].
  - destruct (IH (insert_by_name h acc) (insert_by_name_sorted h acc Hs)) as [S P].
    split; [exact S|]. rewrite P, insert_by_name_perm.
    cbn [app]. symmetry. apply Permutation_middle.
Qed.

Lemma get_all_houses_perm (db : Database) :
  Permutation (get_all_houses db) (houses db).
Proof.
  unfold get_all_houses.
  destruct (sort_by_name_spec (houses db) [] (Sorted.Sorted_nil _)) as [_ P].
  rewrite P, app_nil_r. reflexivity.
Qed.

Lemma get_all_houses_sorted (db : Database) :
  Sorted.Sorted name_le (get_all_houses db).
Proof.
  unfold get_all_houses.
  exact (proj1 (sort_by_name_spec (houses db) [] (Sorted.Sorted_nil _))).
Qed.

Lemma export_row_first_cell (h : House) (r : list string) :
  export_row h = Ok r -> hd "" r = name h /\ List.length r = 11%nat.
Proof.
  unfold export_row.
  match goal with |- bind ?c _ = _ -> _ => destruct c as [cells|e] end;
    cbn [bind]; intros H; inversion H. split; reflexivity.
Qed.

Lemma export_rows_names (hs : list House) (rows : list (list string)) :
  export_rows hs = Ok rows ->
  map (hd "") rows = map name hs
  /\ Forall (fun r => List.length r = 11%nat) rows.
Proof.
  revert rows. induction hs as [|h hs IH]; intros rows; cbn [export_rows].
  - intros H. inversion H. split; [reflexivity | constructor].
  - destruct (export_row h) as [r|e] eqn:R; cbn [bind]; [|discriminate].
    destruct (export_rows hs) as [rs|e] eqn:RS; cbn [bind]; [|discriminate].
    intros H. inversion H. destruct (IH rs eq_refl) as [N F].
    destruct (export_row_first_cell h r R) as [E L].
    cbn [map]. split; [rewrite E, N; reflexivity | constructor; assumption].
Qed.

(** X1: [get_all_houses] returns every row of the table exactly once, in
    ascending name order; an export that succeeds has one row of 11 cells
    per house, in that order, each starting with the house's name. *)
Theorem export_one_row_per_house_in_name_order :
  forall db : Database,
    Permutation (get_all_houses db) (houses db)
    /\ Sorted.Sorted name_le (get_all_houses db)
    /\ forall rows : list (list string),
         slash_export_data db = Ok rows ->
         List.length rows = List.length (houses db)
         /\ map (hd "") rows = map name (get_all_houses db)
         /\ Forall (fun r => List.length r = 11%nat) rows.
Proof.
  intros db. split; [apply get_all_houses_perm|].
  split; [apply get_all_houses_sorted|].
  intros rows H. unfold slash_export_data in H.
  destruct (export_rows_names _ _ H) as [N F].
  split; [|split; assumption].
  rewrite <- (length_map (hd "")), N, length_map.
  apply Permutation_length, get_all_houses_perm.
Qed.

(** *** Field updates *)

Lemma set_field_identity (field : string) (v : Value) (h : House) :
  identity_kept h (set_field field v h).
Proof. unfold identity_kept. repeat split; reflexivity. Qed.

(** The UPDATE statement, whatever it writes, keeps id, name and goal of
    every row, touches only the rows whose name matches and no other
    table, and counts a row exactly when the house is found. *)
Lemma execute_update_frame (house_name field : string) (value : Value)
    (who now : string) (db : Database) :
  let r := execute_update house_name field value who now db in
  Forall2 (fun h h' =>
             identity_kept h h' /\
             (name_matches house_name h = false -> h' = h))
    (houses db) (houses (fst r))
  /\ other_tables_unchanged db (fst r)
  /\ (snd r = true <-> exists h, get_house_data house_name db = Some h).
Proof.
  cbv zeta. unfold execute_update. split; [|split].
  - cbn [fst houses with_houses]. apply update_where_Forall2. intros h _.
    destruct (name_matches house_name h); split; try reflexivity;
      try discriminate; unfold identity_kept; repeat split; reflexivity.
  - unfold other_tables_unchanged. cbn. repeat split; reflexivity.
  - cbn [snd]. unfold get_house_data. rewrite rowcount_positive_find. tauto.
Qed.

(** X2: [update_house_data] refuses a field outside its whitelist, with no
    change and before the value is looked at; for an allowed field, an
    integer outside 64 bits makes it raise [OverflowError], nothing
    written, and with any other value it returns.  Whatever the field and
    the value, a call that returns never changed a row's id, name or goal,
    touched only the rows whose name matches (case ignored) and no other
    table, and it reports success exactly when the field is allowed, the
    value can be bound and the house is found. *)
Theorem update_house_data_whitelist_and_frame :
  forall (house_name field : string) (value : Value) (who now : string)
         (db : Database),
    let r := update_house_data house_name field value who now db in
    (Text.mem field allowed_fields = false -> r = Ok (db, false))
    /\ (Text.mem field allowed_fields = true -> bindable value = false ->
        r = Raise OverflowError)
    /\ (Text.mem field allowed_fields = true -> bindable value = true ->
        exists (db' : Database) (found : bool), r = Ok (db', found))
    /\ (forall (db' : Database) (found : bool),
          r = Ok (db', found) ->
          Forall2 (fun h h' =>
                     identity_kept h h' /\
                     (name_matches house_name h = false -> h' = h))
            (houses db) (houses db')
          /\ other_tables_unchanged db db')
    /\ ((exists db', r = Ok (db', true)) <->
        Text.mem field allowed_fields = true
        /\ bindable value = true
        /\ exists h, get_house_data house_name db = Some h).
Proof.
  intros house_name field value who now db. cbv zeta.
  pose proof (execute_update_frame house_name field value who now db) as F.
  cbv zeta in F. destruct F as (F1 & F2 & F3).
  unfold update_house_data.
  set (x := execute_update house_name field value who now db) in *.
  clearbody x. destruct x as [d ok]. cbn [fst snd] in F1, F2, F3.
  destruct (Text.mem field allowed_fields) eqn:A; cbn [negb].
  - destruct (bindable value) eqn:B; cbn [negb].
    + split; [discriminate|]. split; [discriminate|].
      split; [intros _ _; exists d, ok; reflexivity|]. split.
      * intros db' found E. injection E as <- <-. split; assumption.
      * split.
        -- intros [db' E]. injection E as <- ->.
           split; [reflexivity|]. split; [reflexivity|]. apply F3. reflexivity.
        -- intros (_ & _ & H). apply F3 in H. subst ok. exists d. reflexivity.
    + split; [discriminate|]. split; [reflexivity|].
      split; [discriminate|]. split; [discriminate|].
      split; [intros [db' E]; discriminate | intros (_ & E & _); discriminate].
  - split; [reflexivity|]. split; [discriminate|]. split; [discriminate|].
    split.
    + intros db' found E. injection E as <- <-. split.
      * clear. induction (houses db) as [|h l IH]; constructor; [|exact IH].
        split; [unfold identity_kept; repeat split; reflexivity | reflexivity].
      * unfold other_tables_unchanged. repeat split; reflexivity.
    + split; [intros [db' E]; discriminate | intros (E & _); discriminate].
Qed.

(** *** Looking a house up *)

Lemma lower_upper_char (c : ascii) :
  Text.lower_char (Text.upper_char c) = Text.lower_char c.
Proof. destruct c as [[] [] [] [] [] [] [] []]; reflexivity. Qed.

Lemma lower_lower_char (c : ascii) :
  Text.lower_char (Text.lower_char c) = Text.lower_char c.
Proof. destruct c as [[] [] [] [] [] [] [] []]; reflexivity. Qed.

Lemma lower_upper (s : string) : Text.lower (Text.upper s) = Text.lower s.
Proof.
  induction s as [|c s IH]; [reflexivity|].
  cbn [Text.upper Text.lower]. rewrite lower_upper_char, IH. reflexivity.
Qed.

Lemma lower_lower (s : string) : Text.lower (Text.lower s) = Text.lower s.
Proof.
  induction s as [|c s IH]; [reflexivity|].
  cbn [Text.lower]. rewrite lower_lower_char, IH. reflexivity.
Qed.

Lemma find_same {A : Type} (p q : A -> bool) (l : list A) :
  (forall x, p x = q x) -> find p l = find q l.
Proof.
  intros E. induction l as [|x l IH]; [reflexivity|].
  cbn [find]. rewrite E, IH. reflexivity.
Qed.

(** No two roster names differ only by case. *)
Lemma roster_lower_injective (a b : string) :
  In a initial_houses -> In b initial_houses ->
  Text.lower a = Text.lower b -> a = b.
Proof.
  assert (C : forallb (fun x =>
                forallb (fun y =>
                  implb (String.eqb (Text.lower x) (Text.lower y)) (String.eqb x y))
                  initial_houses) initial_houses = true)
    by (vm_compute; reflexivity).
  intros Ha Hb E. rewrite forallb_forall in C. specialize (C a Ha).
  rewrite forallb_forall in C. specialize (C b Hb).
  rewrite E, String.eqb_refl in C. apply String.eqb_eq. exact C.
Qed.

(** After the reconciliation the table holds roster names only, and each
    of them. *)
Lemma populate_names (now : string) (db : Database) :
  (forall h, In h (houses (populate_initial_houses now db)) ->
             In (name h) initial_houses)
  /\ (forall n, In n initial_houses ->
                In n (map name (houses (populate_initial_houses now db)))).
Proof.
  unfold populate_initial_houses.
  destruct (fold_left (insert_or_ignore_house now) initial_houses
              (filter (fun h => Text.mem (name h) initial_houses) (houses db),
               seq_houses db)) as [hs sq] eqn:F.
  destruct (fold_insert_spec _ _ _ _ _ _ F) as (_ & Hb & Hc & _).
  cbn [houses with_houses]. split; [|exact Hc].
  intros h Hh. destruct (Hb h Hh) as [Hk|[Hn _]]; [|exact Hn].
  apply filter_In in Hk. apply mem_In. tauto.
Qed.

(** X3: the house lookup ignores the case of the name asked for, answers
    [None] exactly when no row's name matches up to case, and after a
    roster reconciliation it finds, for each of the 25 roster names, the
    row that carries exactly that name. *)
Theorem lookup_ignores_case_and_finds_roster :
  forall (n : string) (db : Database),
    get_house_data (Text.upper n) db = get_house_data n db
    /\ get_house_data (Text.lower n) db = get_house_data n db
    /\ (get_house_data n db = None <->
        forall h, In h (houses db) -> Text.lower (name h) <> Text.lower n)
    /\ (forall h, get_house_data n db = Some h ->
          In h (houses db) /\ Text.lower (name h) = Text.lower n)
    /\ (forall now : string, In n initial_houses ->
          exists h, get_house_data n (populate_initial_houses now db) = Some h
                    /\ name h = n).
Proof.
  intros n db. unfold get_house_data.
  assert (U : forall h, name_matches (Text.upper n) h = name_matches n h)
    by (intros h; unfold name_matches; rewrite lower_upper; reflexivity).
  assert (L : forall h, name_matches (Text.lower n) h = name_matches n h)
    by (intros h; unfold name_matches; rewrite lower_lower; reflexivity).
  split; [apply find_same; exact U|]. split; [apply find_same; exact L|].
  split; [|split].
  - split.
    + intros H h Hh E. pose proof (find_none _ _ H h Hh) as F.
      unfold name_matches in F. rewrite E, String.eqb_refl in F. discriminate.
    + intros H. destruct (find (name_matches n) (houses db)) as [h|] eqn:F;
        [|reflexivity].
      apply find_some in F. destruct F as [Hh M]. exfalso. apply (H h Hh).
      apply String.eqb_eq. exact M.
  - intros h F. apply find_some in F. destruct F as [Hh M].
    split; [exact Hh | apply String.eqb_eq; exact M].
  - intros now Hn. destruct (populate_names now db) as [Hall Hevery].
    remember (houses (populate_initial_houses now db)) as hs eqn:Ehs.
    clear Ehs.
    destruct (find (name_matches n) hs) as [h|] eqn:F.
    + exists h. split; [reflexivity|]. apply find_some in F. destruct F as [Hh M].
      apply roster_lower_injective;
        [apply Hall; exact Hh | exact Hn | apply String.eqb_eq; exact M].
    + exfalso. specialize (Hevery n Hn). apply in_map_iff in Hevery.
      destruct Hevery as [h [E Hh]]. pose proof (find_none _ _ F h Hh) as M.
      unfold name_matches in M. rewrite E, String.eqb_refl in M. discriminate.
Qed.

(** *** The summary of the master panel *)

Lemma rowcount_none (p : House -> bool) (l : list House) :
  (forall h, In h l -> p h = false) -> rowcount p l = 0.
Proof.
  induction l as [|h l IH]; intros H; [reflexivity|].
  rewrite rowcount_cons, (H h (or_introl eq_refl)), IH; [reflexivity|].
  intros x Hx. apply H. right. exact Hx.
Qed.

Lemma fold_count_house (l : list House) (acc : summary) :
  fold_left count_house l acc =
  mkSummary
    (unlocked acc + rowcount (fun h => is_locked h =? 0) l)
    (claimed acc + rowcount (fun h => opt_eqb (alliance h) ATREIDES
                                      || opt_eqb (alliance h) HARKONNEN) l)
    (atreides_count acc + rowcount (fun h => opt_eqb (alliance h) ATREIDES) l)
    (harkonnen_count acc + rowcount (fun h => opt_eqb (alliance h) HARKONNEN) l).
Proof.
  revert acc. induction l as [|h l IH]; intros acc.
  - cbn [fold_left]. unfold rowcount. cbn [filter List.length Z.of_nat].
    rewrite !Z.add_0_r. destruct acc; reflexivity.
  - cbn [fold_left]. rewrite IH, !rowcount_cons. unfold count_house.
    destruct (alliance h) as [s|]; cbn [is_not_null opt_eqb andb orb].
    + destruct (String.eqb s ATREIDES) eqn:EA;
        destruct (String.eqb s HARKONNEN) eqn:EH; cbn [orb];
        cbn [unlocked claimed atreides_count harkonnen_count];
        try (apply String.eqb_eq in EA; apply String.eqb_eq in EH;
             subst s; discriminate);
        destruct (is_locked h =? 0); f_equal; lia.
    + cbn [unlocked claimed atreides_count harkonnen_count].
      destruct (is_locked h =? 0); f_equal; lia.
Qed.

Lemma claimed_split (l : list House) :
  rowcount (fun h => opt_eqb (alliance h) ATREIDES
                     || opt_eqb (alliance h) HARKONNEN) l
  = rowcount (fun h => opt_eqb (alliance h) ATREIDES) l
    + rowcount (fun h => opt_eqb (alliance h) HARKONNEN) l.
Proof.
  induction l as [|h l IH]; [reflexivity|]. rewrite !rowcount_cons, IH.
  destruct (alliance h) as [s|]; cbn [opt_eqb orb]; [|lia].
  destruct (String.eqb s ATREIDES) eqn:EA;
    destruct (String.eqb s HARKONNEN) eqn:EH; cbn [orb]; try lia.
  apply String.eqb_eq in EA. apply String.eqb_eq in EH. subst s. discriminate.
Qed.

Lemma valid_claims_le_claimed (l : list House) :
  count_valid_claims l <= count_claimed l.
Proof.
  unfold count_valid_claims, count_claimed.
  change (rowcount (fun h => opt_eqb (alliance h) ATREIDES
                             || opt_eqb (alliance h) HARKONNEN) l
          <= rowcount (fun h => is_not_null (alliance h)) l).
  induction l as [|h l IH]; [reflexivity|]. rewrite !rowcount_cons.
  destruct (alliance h) as [s|]; cbn [opt_eqb is_not_null orb]; [|lia].
  destruct (String.eqb s ATREIDES || String.eqb s HARKONNEN); lia.
Qed.

Lemma create_master_embed_counts (db : Database) :
  create_master_embed db =
  mkSummary
    (rowcount (fun h => is_locked h =? 0) (houses db))
    (count_valid_claims (houses db))
    (rowcount (fun h => opt_eqb (alliance h) ATREIDES) (houses db))
    (rowcount (fun h => opt_eqb (alliance h) HARKONNEN) (houses db)).
Proof.
  unfold create_master_embed. rewrite fold_count_house.
  cbn [unlocked claimed atreides_count harkonnen_count Z.add].
  pose proof (get_all_houses_perm db) as P.
  rewrite !(rowcount_perm _ _ _ P). reflexivity.
Qed.

(** X4: the summary of the master panel counts as claimed exactly the
    houses whose alliance is Atreides or Harkonnen, so a corrupted alliance
    is never counted; claimed is the sum of the two alliance counts, and no
    count exceeds the number of houses. *)
Theorem summary_counts_only_the_two_alliances :
  forall db : Database,
    let s := create_master_embed db in
    claimed s = count_valid_claims (houses db)
    /\ claimed s = atreides_count s + harkonnen_count s
    /\ claimed s <= count_claimed (houses db)
    /\ unlocked s = rowcount (fun h => is_locked h =? 0) (houses db)
    /\ 0 <= atreides_count s /\ 0 <= harkonnen_count s
    /\ 0 <= unlocked s <= Z.of_nat (List.length (houses db))
    /\ claimed s <= Z.of_nat (List.length (houses db)).
Proof.
  intros db. cbv zeta. rewrite create_master_embed_counts.
  cbn [unlocked claimed atreides_count harkonnen_count].
  split; [reflexivity|].
  split; [apply claimed_split|].
  split; [apply valid_claims_le_claimed|].
  split; [reflexivity|].
  split; [apply rowcount_nonneg|].
  split; [apply rowcount_nonneg|].
  split; [split; [apply rowcount_nonneg | apply rowcount_le_length]|].
  apply rowcount_le_length.
Qed.

(** *** After a weekly reset *)

Lemma In_enumerate_from {A : Type} (l : list A) (i k : Z) (x : A) :
  In (k, x) (enumerate_from i l) -> In x l /\ i <= k < i + Z.of_nat (List.length l).
Proof.
  revert i. induction l as [|y l IH]; intros i; cbn [enumerate_from In List.length].
  - intros [].
  - intros [E|H].
    + inversion E; subst. split; [left; reflexivity | lia].
    + apply IH in H. destruct H as [H R]. split; [right; exact H | lia].
Qed.

Lemma In_firstn {A : Type} (n : nat) (l : list A) (x : A) :
  In x (firstn n l) -> In x l.
Proof.
  revert l. induction n as [|n IH]; intros l; [intros []|].
  destruct l as [|y l]; cbn [firstn In]; [intros []|].
  intros [E|H]; [left; exact E | right; apply IH; exact H].
Qed.

(** Every button of the panel shows a house of the table. *)
Lemma create_house_buttons_In (db : Database) (b : Button) :
  In b (create_house_buttons db) ->
  exists h row, In h (houses db) /\ 0 <= row <= 4 /\ b = create_house_button h row.
Proof.
  unfold create_house_buttons. intros H. apply in_map_iff in H.
  destruct H as [[i h] [E H]]. cbn [fst snd] in E.
  apply In_enumerate_from in H. destruct H as [H R].
  assert (L : Z.of_nat (List.length (firstn 25 (get_all_houses db))) <= 25)
    by (rewrite length_firstn; lia).
  apply In_firstn in H.
  exists h, (Z.min (i / 5) 4). split; [|split; [|symmetry; exact E]].
  - apply (Permutation_in h (get_all_houses_perm db)). exact H.
  - pose proof (Z.div_pos i 5 ltac:(lia) ltac:(lia)). lia.
Qed.

(** X5: right after a weekly reset the panel summary reads
    0 unlocked, 0 claimed, 0 Atreides, 0 Harkonnen, every panel button is
    the grey locked one, the action view of every house offers only
    "Unlock House" and "Cancel" (no claim is possible before an unlock),
    and a second reset logs 0 claimed houses. *)
Theorem after_reset_all_locked_and_unclaimed :
  forall (user t1 t2 user' t3 t4 : string) (db : Database),
    let db' := fst (confirm_reset user t1 t2 db) in
    create_master_embed db' = mkSummary 0 0 0 0
    /\ (forall h, In h (houses db') ->
          map b_custom_id (house_action_view h)
          = [Some "unlock_house"; Some "cancel"])
    /\ (forall b, In b (create_house_buttons db') ->
          b_style b = style_secondary /\ b_emoji b = Some "🔒")
    /\ snd (confirm_reset user' t3 t4 db') = reset_complete 0.
Proof.
  intros user t1 t2 user' t3 t4 db. cbv zeta.
  assert (R : forall h, In h (houses (fst (confirm_reset user t1 t2 db))) ->
                        is_locked h = 1 /\ alliance h = None).
  { cbn [confirm_reset fst houses with_houses with_reset_log]. intros h Hh.
    apply in_map_iff in Hh. destruct Hh as [h0 [<- _]]. split; reflexivity. }
  split; [|split; [|split]].
  - rewrite create_master_embed_counts. unfold count_valid_claims.
    change (Z.of_nat (List.length (filter ?p ?l))) with (rowcount p l).
    rewrite !rowcount_none; [reflexivity| | | |];
      intros h Hh; destruct (R h Hh) as [Hl Ha]; rewrite ?Hl, ?Ha; reflexivity.
  - intros h Hh. destruct (R h Hh) as [Hl _]. unfold house_action_view.
    rewrite Hl. reflexivity.
  - intros b Hb. apply create_house_buttons_In in Hb.
    destruct Hb as (h & row & Hh & _ & ->). destruct (R h Hh) as [Hl _].
    unfold create_house_button. rewrite Hl. split; reflexivity.
  - cbn [confirm_reset snd]. f_equal.
    change (Z.of_nat (List.length (filter ?p ?l))) with (rowcount p l).
    apply rowcount_none. intros h Hh. destruct (R h Hh) as [_ Ha].
    rewrite Ha. reflexivity.
Qed.

(** *** Repairing corrupted alliances *)

Lemma invalid_value_valid (a : option string) :
  invalid_value a = negb (valid_alliance a).
Proof. destruct a; reflexivity. Qed.

Lemma update_where_names (p : House -> bool) (f : House -> House) (l : list House) :
  (forall h, name (f h) = name h) ->
  map name (update_where p f l) = map name l.
Proof.
  intros H. unfold update_where. rewrite map_map. apply map_ext.
  intros h. destruct (p h); [apply H | reflexivity].
Qed.

Lemma rowcount_zero_none (p : House -> bool) (l : list House) :
  rowcount p l <= 0 -> forall h, In h l -> p h = false.
Proof.
  induction l as [|x l IH]; intros H h Hh; [contradiction|].
  rewrite rowcount_cons in H. pose proof (rowcount_nonneg p l).
  destruct (p x) eqn:E; [lia|]. destruct Hh as [<-|Hh]; [exact E|].
  apply IH; [lia | exact Hh].
Qed.

(** The reconciliation of a table with unique names leaves 25 rows. *)
Lemma populate_length (now : string) (db : Database) :
  NoDup (map name (houses db)) ->
  List.length (houses (populate_initial_houses now db)) = 25%nat.
Proof.
  intros Hnd. destruct (populate_names now db) as [Hall Hevery].
  assert (N : NoDup (map name (houses (populate_initial_houses now db)))).
  { unfold populate_initial_houses.
    destruct (fold_left (insert_or_ignore_house now) initial_houses
                (filter (fun h => Text.mem (name h) initial_houses) (houses db),
                 seq_houses db)) as [hs sq] eqn:F.
    destruct (fold_insert_spec _ _ _ _ _ _ F) as (_ & _ & _ & Hd).
    cbn [houses with_houses]. apply Hd, kept_names_unique, Hnd. }
  assert (P : Permutation (map name (houses (populate_initial_houses now db)))
                initial_houses).
  { apply NoDup_Permutation; [exact N | apply initial_houses_NoDup|].
    intros n. split; [|apply Hevery].
    intros Hn. apply in_map_iff in Hn. destruct Hn as [h [<- Hh]].
    apply Hall. exact Hh. }
  rewrite <- (length_map name), (Permutation_length P). reflexivity.
Qed.

Lemma invalid_count (l : list House) :
  rowcount (fun h => invalid_value (alliance h)) l
  = count_claimed l - count_valid_claims l.
Proof.
  unfold count_claimed, count_valid_claims.
  change (rowcount (fun h => invalid_value (alliance h)) l
          = rowcount (fun h => is_not_null (alliance h)) l
            - rowcount (fun h => opt_eqb (alliance h) ATREIDES
                                 || opt_eqb (alliance h) HARKONNEN) l).
  induction l as [|h l IH]; [reflexivity|]. rewrite !rowcount_cons, IH.
  destruct (alliance h) as [s|]; cbn [invalid_value is_not_null opt_eqb orb];
    [|lia].
  destruct (String.eqb s ATREIDES || String.eqb s HARKONNEN); cbn [negb]; lia.
Qed.

Lemma update_where_compose2 (p q : House -> bool) (f g : House -> House)
    (l : list House) :
  update_where q g (update_where p f l)
  = map (fun h => let h1 := if p h then f h else h in
                  if q h1 then g h1 else h1) l.
Proof. unfold update_where. rewrite map_map. reflexivity. Qed.

(** The houses of the repaired table, row by row. *)
Lemma fix_database_rows (now : string) (db : Database) :
  Forall2 repaired (houses (populate_initial_houses now db))
    (houses (fst (slash_fix_database now db))).
Proof.
  unfold slash_fix_database. cbn [fst houses with_houses].
  rewrite update_where_compose2. apply Forall2_map_self. intros h _.
  unfold repaired. cbv zeta.
  destruct (invalid_value (alliance h)) eqn:A;
    cbn [set_alliance completed_by alliance];
    destruct (invalid_value (completed_by h)) eqn:C;
    cbn; rewrite ?A, ?C; repeat split; reflexivity.
Qed.

Lemma repaired_names (l l' : list House) :
  Forall2 repaired l l' -> map name l' = map name l.
Proof.
  induction 1 as [|h h' l l' R _ IH]; [reflexivity|].
  cbn [map]. destruct R as (_ & N & _). rewrite N, IH. reflexivity.
Qed.

Lemma repaired_valid (l l' : list House) :
  Forall2 repaired l l' ->
  Forall (fun h => valid_alliance (alliance h) = true) l'
  /\ Forall (fun h => valid_alliance (completed_by h) = true) l'.
Proof.
  induction 1 as [|h h' l l' R _ [IHa IHc]]; [split; constructor|].
  unfold repaired in R.
  destruct R as (_ & _ & _ & _ & _ & _ & _ & _ & _ & _ & _ & _ & A & C).
  split; constructor; try assumption.
  - rewrite A, invalid_value_valid.
    destruct (valid_alliance (alliance h)) eqn:V; [exact V | reflexivity].
  - rewrite C, invalid_value_valid.
    destruct (valid_alliance (completed_by h)) eqn:V; [exact V | reflexivity].
Qed.

Lemma repaired_ids (l l' : list House) :
  Forall2 repaired l l' -> map house_id l' = map house_id l.
Proof.
  induction 1 as [|h h' l l' R _ IH]; [reflexivity|].
  cbn [map]. destruct R as (I & _). rewrite I, IH. reflexivity.
Qed.

(** On a reconciled table without corrupted values the repair changes no
    row and reports nothing fixed; the reconciliation it starts with moves
    the key counter. *)
Lemma fix_on_clean (now : string) (db : Database) :
  populate_initial_houses now db
  = with_houses (houses db) (seq_houses db + 25) db ->
  Forall (fun h => valid_alliance (alliance h) = true) (houses db) ->
  Forall (fun h => valid_alliance (completed_by h) = true) (houses db) ->
  fst (slash_fix_database now db)
  = with_houses (houses db) (seq_houses db + 25) db
  /\ fixed_count (snd (slash_fix_database now db)) = 0
  /\ completed_fixed (snd (slash_fix_database now db)) = 0.
Proof.
  intros P V C. unfold slash_fix_database. cbv zeta. rewrite P.
  cbn [fst snd fixed_count completed_fixed houses seq_houses with_houses].
  rewrite Forall_forall in V, C.
  assert (NA : forall h, In h (houses db) -> invalid_value (alliance h) = false)
    by (intros h Hh; rewrite invalid_value_valid, (V h Hh); reflexivity).
  assert (NC : forall h, In h (houses db) -> invalid_value (completed_by h) = false)
    by (intros h Hh; rewrite invalid_value_valid, (C h Hh); reflexivity).
  rewrite (update_where_none _ _ _ NA), (update_where_none _ _ _ NC).
  split; [reflexivity|].
  split; apply rowcount_none; assumption.
Qed.

(** X6: on a houses table with unique names, [/fix_database] leaves
    exactly the 25 roster houses, every alliance and every completed-by
    either absent or one of Atreides and Harkonnen; values that were valid
    are kept and no other column changes (not even the stamps); the number
    it reports as fixed is the number of non-NULL alliances minus the number
    of valid ones; and running it again changes no row of any table and
    reports 0: the 25 ignored inserts of its reconciliation move the key
    counter of table [houses] by 25, and that is all. *)
Theorem fix_database_repairs :
  forall (now : string) (db : Database),
    NoDup (map name (houses db)) ->
    let db0 := populate_initial_houses now db in
    let r := slash_fix_database now db in
    alliances_valid (fst r)
    /\ Forall (fun h => valid_alliance (completed_by h) = true) (houses (fst r))
    /\ Forall2 repaired (houses db0) (houses (fst r))
    /\ total_houses (snd r) = 25
    /\ fixed_count (snd r) = Z.of_nat (List.length (invalid_alliances (snd r)))
    /\ fixed_count (snd r)
       = count_claimed (houses db0) - count_valid_claims (houses db0)
    /\ forall now' : string,
         fst (slash_fix_database now' (fst r))
         = with_houses (houses (fst r)) (seq_houses (fst r) + 25) (fst r)
         /\ fixed_count (snd (slash_fix_database now' (fst r))) = 0
         /\ completed_fixed (snd (slash_fix_database now' (fst r))) = 0.
Proof.
  intros now db Hnd. cbv zeta.
  pose proof (fix_database_rows now db) as R.
  destruct (repaired_valid _ _ R) as [VA VC].
  pose proof (repaired_names _ _ R) as N.
  pose proof (repaired_ids _ _ R) as I.
  split; [exact VA|]. split; [exact VC|]. split; [exact R|].
  split; [|split; [|split]].
  - unfold slash_fix_database. cbn [snd total_houses].
    unfold update_where. rewrite !length_map, (populate_length now db Hnd).
    reflexivity.
  - unfold slash_fix_database. cbn [snd fixed_count invalid_alliances].
    rewrite length_map. reflexivity.
  - unfold slash_fix_database. cbn [snd fixed_count]. apply invalid_count.
  - intros now'. apply fix_on_clean; [|exact VA|exact VC].
    destruct (populate_names now db) as [Hall Hevery].
    apply populate_keeps_rows.
    + intros h Hh. apply (in_map name) in Hh. rewrite N in Hh.
      apply in_map_iff in Hh. destruct Hh as [h0 [<- Hh0]].
      apply Hall. exact Hh0.
    + intros n Hn. rewrite N. apply Hevery. exact Hn.
    + rewrite I.
      replace (seq_houses (fst (slash_fix_database now db)))
        with (seq_houses (populate_initial_houses now db)) by reflexivity.
      apply populate_keys_reached.
Qed.

Lemma corrupted_db_unique_names : NoDup (map name (houses corrupted_db)).
Proof.
  assert (E : nodup string_dec (map name (houses corrupted_db))
              = map name (houses corrupted_db)) by (vm_compute; reflexivity).
  rewrite <- E. apply NoDup_nodup.
Qed.

(** The repair of [corrupted_db] leaves valid alliances and reports 25
    houses. *)
Lemma fix_database_repairs_witness :
  alliances_valid (fst (slash_fix_database "2025-01-05 09:00:00" corrupted_db))
  /\ total_houses (snd (slash_fix_database "2025-01-05 09:00:00" corrupted_db))
     = 25.
Proof.
  destruct (fix_database_repairs "2025-01-05 09:00:00" corrupted_db
              corrupted_db_unique_names) as (V & _ & _ & T & _).
  split; [exact V | exact T].
Defined.

(** The startup repair leaves valid alliances. *)
Lemma on_ready_repair_valid (now : string) (db : Database) :
  alliances_valid (on_ready_repair now db).
Proof.
  unfold alliances_valid, on_ready_repair.
  remember (populate_initial_houses now db) as db0 eqn:E. clear E.
  destruct (0 <? rowcount (fun h => invalid_value (alliance h)) (houses db0)) eqn:C.
  - cbn [houses with_houses]. unfold update_where.
    apply Forall_forall. intros h Hh. apply in_map_iff in Hh.
    destruct Hh as [h0 [<- _]].
    destruct (invalid_value (alliance h0)) eqn:I; [reflexivity|].
    rewrite invalid_value_valid in I.
    destruct (valid_alliance (alliance h0)); [reflexivity | discriminate].
  - apply Z.ltb_ge in C. apply Forall_forall. intros h Hh.
    pose proof (rowcount_zero_none _ _ C h Hh) as I. cbv beta in I.
    rewrite invalid_value_valid in I.
    destruct (valid_alliance (alliance h)); [reflexivity | discriminate].
Qed.

(** With valid alliances the panel's claimed count is the count the
    weekly reset logs. *)
Lemma panel_count_is_reset_count (user t1 t2 : string) (db1 : Database) :
  alliances_valid db1 ->
  claimed (create_master_embed db1) = count_claimed (houses db1)
  /\ snd (confirm_reset user t1 t2 db1)
     = reset_complete (claimed (create_master_embed db1))
  /\ exists key : Z,
       reset_log (fst (confirm_reset user t1 t2 db1))
       = reset_log db1
         ++ [mkResetLog key t2 user 25 (claimed (create_master_embed db1))].
Proof.
  intros V.
  assert (C : claimed (create_master_embed db1) = count_claimed (houses db1)).
  { rewrite create_master_embed_counts. cbn [claimed]. symmetry.
    apply count_claimed_valid. exact V. }
  split; [exact C|]. rewrite C. unfold confirm_reset, count_claimed.
  cbn [fst snd reset_log with_reset_log with_houses].
  split; [reflexivity|]. eexists. reflexivity.
Qed.

(** X7: after the repair that runs at startup every alliance is Atreides,
    Harkonnen or absent, so from then on the number of claimed houses the
    panel shows and the number the next weekly reset logs are the same
    number. *)
Theorem startup_repair_aligns_panel_and_reset :
  forall (now user t1 t2 : string) (db : Database),
    let db1 := on_ready_repair now db in
    alliances_valid db1
    /\ claimed (create_master_embed db1) = count_claimed (houses db1)
    /\ snd (confirm_reset user t1 t2 db1)
       = reset_complete (claimed (create_master_embed db1))
    /\ exists key : Z,
         reset_log (fst (confirm_reset user t1 t2 db1))
         = reset_log db1
           ++ [mkResetLog key t2 user 25 (claimed (create_master_embed db1))].
Proof.
  intros now user t1 t2 db. cbv zeta.
  pose proof (on_ready_repair_valid now db) as V.
  split; [exact V|].
  exact (panel_count_is_reset_count user t1 t2 (on_ready_repair now db) V).
Qed.

(** *** The update form *)

Lemma form_rel_refl (house_name : string) (h : House) : form_rel house_name h h.
Proof.
  split; [unfold untouched_by_update; repeat split; reflexivity | reflexivity].
Qed.

Lemma form_rel_trans (house_name : string) (h1 h2 h3 : House) :
  form_rel house_name h1 h2 -> form_rel house_name h2 h3 ->
  form_rel house_name h1 h3.
Proof.
  intros [U12 K12] [U23 K23].
  assert (N : name h2 = name h1) by (destruct U12 as (_ & N & _); exact N).
  split.
  - unfold untouched_by_update in *.
    destruct U12 as (a1 & a2 & a3 & a4 & a5 & a6 & a7 & a8 & a9 & a10).
    destruct U23 as (b1 & b2 & b3 & b4 & b5 & b6 & b7 & b8 & b9 & b10).
    repeat split; congruence.
  - intros M. rewrite K23, K12; try exact M; try reflexivity.
    unfold name_matches in *. rewrite N. exact M.
Qed.

Lemma form_rows_refl (house_name : string) (l : list House) :
  Forall2 (form_rel house_name) l l.
Proof. induction l; constructor; [apply form_rel_refl | assumption]. Qed.

Lemma form_rows_trans (house_name : string) (l1 l2 l3 : list House) :
  Forall2 (form_rel house_name) l1 l2 -> Forall2 (form_rel house_name) l2 l3 ->
  Forall2 (form_rel house_name) l1 l3.
Proof.
  intros H12. revert l3. induction H12 as [|a b l1 l2 R _ IH]; intros l3 H23.
  - inversion H23. constructor.
  - inversion H23 as [|b' c l2' l3' R' H' E1 E2]; subst. constructor.
    + exact (form_rel_trans _ _ _ _ R R').
    + apply IH. exact H'.
Qed.

Lemma form_step_refl (house_name : string) (db : Database) :
  form_step house_name db db.
Proof.
  split; [apply form_rows_refl|].
  unfold other_tables_unchanged. repeat split; reflexivity.
Qed.

Lemma form_step_trans (house_name : string) (d1 d2 d3 : Database) :
  form_step house_name d1 d2 -> form_step house_name d2 d3 ->
  form_step house_name d1 d3.
Proof.
  intros [R12 O12] [R23 O23]. split; [exact (form_rows_trans _ _ _ _ R12 R23)|].
  unfold other_tables_unchanged in *.
  destruct O12 as (a1 & a2 & a3 & a4 & a5 & a6 & a7 & a8 & a9 & a10 & a11 & a12).
  destruct O23 as (b1 & b2 & b3 & b4 & b5 & b6 & b7 & b8 & b9 & b10 & b11 & b12).
  repeat split; congruence.
Qed.

Lemma form_field_allowed (field : string) :
  form_field field -> Text.mem field allowed_fields = true.
Proof. intros [-> | ->]; reflexivity. Qed.

Lemma form_field_write (house_name field : string) (v : Z) (who now : string)
    (db : Database) :
  form_field field ->
  form_step house_name db
    (fst (execute_update house_name field (VInt v) who now db)).
Proof.
  intros F. unfold execute_update.
  cbn [negb fst]. split.
  - cbn [houses with_houses]. apply update_where_Forall2. intros h _.
    destruct (name_matches house_name h) eqn:M.
    + split; [|intros M'; congruence]. unfold untouched_by_update.
      destruct F as [-> | ->]; repeat split; reflexivity.
    + apply form_rel_refl.
  - unfold other_tables_unchanged. cbn. repeat split; reflexivity.
Qed.

(** A number the form read is written when it fits 64 bits, and raises
    otherwise. *)
Lemma form_field_update (house_name field : string) (v : Z) (who now : string)
    (db : Database) :
  form_field field ->
  update_house_data house_name field (VInt v) who now db
  = if fits_int64 v
    then Ok (execute_update house_name field (VInt v) who now db)
    else Raise OverflowError.
Proof.
  intros F. unfold update_house_data. rewrite (form_field_allowed field F).
  cbn [negb bindable]. destruct (fits_int64 v); reflexivity.
Qed.

(** What one numeric field of the form can do. *)
Lemma update_numeric_field_cases (house_name field text who now : string)
    (describe : Z -> string) (db : Database) (made : list string) :
  form_field field ->
  let r := update_numeric_field house_name field text who now describe (db, made) in
  (skipped_input text /\ r = Ok (db, made))
  \/ (exists v,
        String.eqb (Text.strip text) "" = false
        /\ PyInt.int (PyStr.replace (Text.strip text) "," "") = Ok v
        /\ ((fits_int64 v = true
             /\ r = Ok (fst (execute_update house_name field (VInt v) who now db),
                        made ++ [describe v]))
            \/ (fits_int64 v = false /\ r = Raise OverflowError))).
Proof.
  intros F. cbv zeta. unfold update_numeric_field, skipped_input.
  destruct (String.eqb (Text.strip text) "") eqn:B; [left; split; auto|].
  destruct (PyInt.int (PyStr.replace (Text.strip text) "," "")) as [v|e] eqn:P.
  - right. exists v. split; [reflexivity|]. split; [reflexivity|].
    rewrite (form_field_update _ _ _ _ _ _ F).
    destruct (fits_int64 v); [left | right]; split; reflexivity.
  - left. split; [right; exists e; reflexivity | reflexivity].
Qed.

Lemma update_numeric_field_step (house_name field text who now : string)
    (describe : Z -> string) (db db' : Database) (made made' : list string) :
  form_field field ->
  update_numeric_field house_name field text who now describe (db, made)
  = Ok (db', made') ->
  form_step house_name db db'.
Proof.
  intros F H.
  destruct (update_numeric_field_cases house_name field text who now describe
              db made F) as [[_ E] | (v & _ & _ & [[_ E] | [_ E]])];
    cbv zeta in E; rewrite E in H.
  - injection H as <- _. apply form_step_refl.
  - injection H as <- _. apply form_field_write. exact F.
  - discriminate.
Qed.


Lemma form_result_cases (house_name : string) (db2 : Database)
    (made2 : list string) :
  fst (match get_house_data house_name db2 with
       | None => (db2, update_failed)
       | Some house_data =>
           match create_house_info_embed house_data with
           | Raise _ => (db2, update_failed)
           | Ok _ => (db2, house_updated made2)
           end
       end) = db2.
Proof.
  destruct (get_house_data house_name db2) as [h|]; [|reflexivity].
  destruct (create_house_info_embed h); reflexivity.
Qed.

Lemma update_on_submit_step
    (house_name cg dd who now1 now2 : string) (db : Database) :
  form_step house_name db
    (fst (update_on_submit house_name cg dd who now1 now2 db)).
Proof.
  unfold update_on_submit.
  destruct (update_numeric_field house_name "current_goal" cg who now1 _ (db, []))
    as [[db1 made1]|e1] eqn:E1; [|apply form_step_refl].
  pose proof (update_numeric_field_step _ _ _ _ _ _ _ _ _ _
                (or_introl eq_refl) E1) as S1.
  destruct (update_numeric_field house_name "deep_desert_cp" dd who now2 _
              (db1, made1)) as [[db2 made2]|e2] eqn:E2; [|exact S1].
  pose proof (update_numeric_field_step _ _ _ _ _ _ _ _ _ _
                (or_intror eq_refl) E2) as S2.
  rewrite form_result_cases. exact (form_step_trans _ _ _ _ S1 S2).
Qed.





(** *** Printing an integer and reading it back *)

Lemma digit_cases (d : Z) :
  0 <= d < 10 ->
  d = 0 \/ d = 1 \/ d = 2 \/ d = 3 \/ d = 4 \/ d = 5 \/ d = 6 \/ d = 7 \/
  d = 8 \/ d = 9.
Proof. lia. Qed.

Ltac each_digit d H :=
  destruct (digit_cases d H) as [-> | [-> | [-> | [-> | [-> | [-> | [-> | [-> |
    [-> | ->]]]]]]]]]; reflexivity.

Lemma digit_char_is_digit (d : Z) :
  0 <= d < 10 -> PyInt.is_digit (Text.digit_char d) = true.
Proof. intros H. each_digit d H. Qed.

Lemma digit_char_val (d : Z) :
  0 <= d < 10 -> PyInt.digit_val (Text.digit_char d) = d.
Proof. intros H. each_digit d H. Qed.

Lemma digit_char_plain (d : Z) :
  0 <= d < 10 -> plain_char (Text.digit_char d) = true.
Proof. intros H. each_digit d H. Qed.

Lemma mod10_digit (n : Z) : 0 <= n mod 10 < 10.
Proof. apply Z.mod_pos_bound. lia. Qed.

Lemma digits_fuel_plain (fuel : nat) :
  forall (n : Z) (acc : string),
    all_chars plain_char acc = true ->
    all_chars plain_char (Text.digits_fuel fuel n acc) = true.
Proof.
  induction fuel as [|fuel IH]; intros n acc Hacc; [exact Hacc|].
  cbn [Text.digits_fuel].
  assert (Hacc' : all_chars plain_char (String (Text.digit_char (n mod 10)) acc)
                  = true).
  { cbn [all_chars]. rewrite (digit_char_plain _ (mod10_digit n)). exact Hacc. }
  destruct (n <? 10); [exact Hacc' | apply IH; exact Hacc'].
Qed.

Lemma digits_fuel_head (fuel : nat) :
  forall (n : Z) (acc : string),
    exists c t, Text.digits_fuel (S fuel) n acc = String c t
                /\ PyInt.is_digit c = true.
Proof.
  induction fuel as [|fuel IH]; intros n acc.
  - exists (Text.digit_char (n mod 10)), acc. split.
    + cbn [Text.digits_fuel]. destruct (n <? 10); reflexivity.
    + apply digit_char_is_digit, mod10_digit.
  - change (Text.digits_fuel (S (S fuel)) n acc)
      with (let acc' := String (Text.digit_char (n mod 10)) acc in
            if n <? 10 then acc' else Text.digits_fuel (S fuel) (n / 10) acc').
    cbv zeta. destruct (n <? 10).
    + exists (Text.digit_char (n mod 10)), acc.
      split; [reflexivity | apply digit_char_is_digit, mod10_digit].
    + apply IH.
Qed.

(** Reading the printed digits of [n] in front of [acc] continues with
    [acc] from the value shifted by those digits. *)
Lemma digits_of_digits_fuel (fuel : nat) :
  forall n : Z,
    0 <= n < 10 ^ Z.of_nat (S fuel) ->
    exists k, 0 <= k /\
      forall (acc : string) (a : Z) (prev : bool),
        PyInt.digits (Text.digits_fuel (S fuel) n acc) a prev
        = PyInt.digits acc (a * 10 ^ k + n) true.
Proof.
  induction fuel as [|fuel IH]; intros n Hn.
  - change (10 ^ Z.of_nat 1) with 10 in Hn.
    exists 1. split; [lia|]. intros acc a prev. cbn [Text.digits_fuel].
    destruct (n <? 10) eqn:L; [|apply Z.ltb_ge in L; lia].
    cbn [PyInt.digits]. rewrite Z.mod_small by lia.
    rewrite (digit_char_is_digit n Hn), (digit_char_val n Hn).
    f_equal.
  - destruct (n <? 10) eqn:L.
    + apply Z.ltb_lt in L. exists 1. split; [lia|]. intros acc a prev.
      change (Text.digits_fuel (S (S fuel)) n acc)
        with (let acc' := String (Text.digit_char (n mod 10)) acc in
              if n <? 10 then acc' else Text.digits_fuel (S fuel) (n / 10) acc').
      cbv zeta. replace (n <? 10) with true by (symmetry; apply Z.ltb_lt; exact L).
      cbn [PyInt.digits]. rewrite Z.mod_small by lia.
      rewrite (digit_char_is_digit n) by lia.
      rewrite (digit_char_val n) by lia. f_equal.
    + assert (L' := L). apply Z.ltb_ge in L.
      assert (Hdiv : 0 <= n / 10 < 10 ^ Z.of_nat (S fuel)).
      { split; [apply Z.div_pos; lia|].
        apply Z.div_lt_upper_bound; [lia|].
        replace (10 * 10 ^ Z.of_nat (S fuel)) with (10 ^ Z.of_nat (S (S fuel)));
          [lia|].
        rewrite (Nat2Z.inj_succ (S fuel)), Z.pow_succ_r by lia. reflexivity. }
      destruct (IH (n / 10) Hdiv) as [k [Hk E]].
      exists (k + 1). split; [lia|]. intros acc a prev.
      change (Text.digits_fuel (S (S fuel)) n acc)
        with (let acc' := String (Text.digit_char (n mod 10)) acc in
              if n <? 10 then acc' else Text.digits_fuel (S fuel) (n / 10) acc').
      cbv zeta. rewrite L', E.
      cbn [PyInt.digits].
      rewrite (digit_char_is_digit _ (mod10_digit n)).
      rewrite (digit_char_val _ (mod10_digit n)). f_equal.
      rewrite Z.pow_add_r by lia. change (10 ^ 1) with 10.
      pose proof (Z.div_mod n 10). lia.
Qed.

Lemma enough_fuel (a : Z) :
  0 <= a -> 0 <= a < 10 ^ Z.of_nat (S (Z.to_nat (Z.log2 a))).
Proof.
  intros Ha. split; [exact Ha|].
  rewrite Nat2Z.inj_succ, Z2Nat.id by apply Z.log2_nonneg.
  destruct (Z.eq_dec a 0) as [-> | Hne]; [reflexivity|].
  assert (H2 : a < 2 ^ Z.succ (Z.log2 a)) by (apply Z.log2_spec; lia).
  assert (H10 : 2 ^ Z.succ (Z.log2 a) <= 10 ^ Z.succ (Z.log2 a)).
  { apply Z.pow_le_mono_l. lia. }
  lia.
Qed.

Lemma lstrip_plain (s : string) :
  all_chars plain_char s = true -> Text.lstrip s = s.
Proof.
  destruct s as [|c s]; [reflexivity|]. cbn [all_chars Text.lstrip].
  unfold plain_char. destruct (Text.is_space c); [discriminate | reflexivity].
Qed.

Lemma rstrip_plain (s : string) :
  all_chars plain_char s = true -> Text.rstrip s = s.
Proof.
  induction s as [|c s IH]; [reflexivity|]. cbn [all_chars Text.rstrip].
  intros H. apply andb_true_iff in H. destruct H as [Hc Hs].
  rewrite (IH Hs). destruct s; [|reflexivity].
  unfold plain_char in Hc. destruct (Text.is_space c); [discriminate | reflexivity].
Qed.

Lemma strip_plain (s : string) :
  all_chars plain_char s = true -> Text.strip s = s.
Proof.
  intros H. unfold Text.strip. rewrite (lstrip_plain s H). apply rstrip_plain, H.
Qed.

Lemma replace_plain (s : string) :
  all_chars plain_char s = true -> PyStr.replace s "," "" = s.
Proof.
  unfold PyStr.replace. induction s as [|c s IH]; [reflexivity|].
  cbn [all_chars]. intros H. apply andb_true_iff in H. destruct H as [Hc Hs].
  cbn [PyStr.replace_from PyStr.starts_with].
  unfold plain_char in Hc. apply andb_true_iff in Hc. destruct Hc as [_ Hc].
  destruct (Ascii.eqb "," c); [discriminate|].
  cbn [andb]. rewrite (IH Hs). reflexivity.
Qed.

Lemma int_digit_head (c : ascii) (t : string) :
  PyInt.is_digit c = true ->
  Text.strip (String c t) = String c t ->
  PyInt.int (String c t) = PyInt.digits (String c t) 0 false.
Proof.
  intros D S. unfold PyInt.int. rewrite S.
  destruct c as [[] [] [] [] [] [] [] []]; try discriminate D; reflexivity.
Qed.

(** The printed integer is plain text and reads back as the integer. *)
Lemma str_int_plain (z : Z) : all_chars plain_char (Text.str_int z) = true.
Proof.
  unfold Text.str_int. cbv zeta. destruct (z <? 0).
  - cbn [all_chars]. rewrite digits_fuel_plain by reflexivity. reflexivity.
  - apply digits_fuel_plain. reflexivity.
Qed.

Lemma int_str_int (z : Z) : PyInt.int (Text.str_int z) = Ok z.
Proof.
  pose proof (str_int_plain z) as P. revert P.
  unfold Text.str_int. cbv zeta.
  pose proof (enough_fuel (Z.abs z) (Z.abs_nonneg z)) as F.
  destruct (digits_of_digits_fuel _ _ F) as [k [_ E]].
  destruct (z <? 0) eqn:L; intros P.
  - apply Z.ltb_lt in L. unfold PyInt.int. rewrite (strip_plain _ P).
    rewrite E. cbn [PyInt.digits bind]. f_equal. lia.
  - apply Z.ltb_ge in L.
    destruct (digits_fuel_head (Z.to_nat (Z.log2 (Z.abs z))) (Z.abs z) EmptyString)
      as [c [t [Ec Dc]]].
    rewrite Ec in P. rewrite Ec.
    rewrite (int_digit_head c t Dc (strip_plain _ P)).
    rewrite <- Ec, E. cbn [PyInt.digits]. f_equal. lia.
Qed.

(** *** Thousands separators *)

Lemma all_chars_app (p : ascii -> bool) (s1 s2 : string) :
  all_chars p (s1 ++ s2) = all_chars p s1 && all_chars p s2.
Proof.
  induction s1 as [|c s1 IH]; [reflexivity|].
  cbn [String.append all_chars]. rewrite IH. apply andb_assoc.
Qed.

Lemma append_assoc (s1 s2 s3 : string) :
  ((s1 ++ s2) ++ s3 = s1 ++ (s2 ++ s3))%string.
Proof.
  induction s1 as [|c s1 IH]; [reflexivity|].
  cbn [String.append]. rewrite IH. reflexivity.
Qed.

Lemma append_empty (s : string) : (s ++ "")%string = s.
Proof.
  induction s as [|c s IH]; [reflexivity|].
  cbn [String.append]. rewrite IH. reflexivity.
Qed.

Lemma digits_fuel_app (fuel : nat) :
  forall (n : Z) (acc : string),
    Text.digits_fuel fuel n acc
    = (Text.digits_fuel fuel n EmptyString ++ acc)%string.
Proof.
  induction fuel as [|fuel IH]; intros n acc; [reflexivity|].
  cbn [Text.digits_fuel]. destruct (n <? 10); [reflexivity|].
  rewrite (IH (n / 10) (String _ acc)), (IH (n / 10) (String _ EmptyString)).
  rewrite append_assoc. reflexivity.
Qed.

Lemma str_int_reads (n : Z) : 0 <= n -> exists k, reads k (Text.str_int n) n.
Proof.
  intros Hn. unfold Text.str_int. cbv zeta.
  destruct (n <? 0) eqn:L; [apply Z.ltb_lt in L; lia|].
  rewrite Z.abs_eq by exact Hn.
  destruct (digits_of_digits_fuel _ n (enough_fuel n Hn)) as [k [Hk E]].
  exists k. split; [exact Hk|]. intros acc a prev.
  rewrite <- digits_fuel_app. apply E.
Qed.

Lemma reads_app (k1 k2 : Z) (s1 s2 : string) (n1 n2 : Z) :
  reads k1 s1 n1 -> reads k2 s2 n2 ->
  reads (k1 + k2) (s1 ++ s2) (n1 * 10 ^ k2 + n2).
Proof.
  intros [H1 R1] [H2 R2]. split; [lia|]. intros acc a prev.
  rewrite append_assoc, R1, R2. f_equal. rewrite Z.pow_add_r by lia. ring.
Qed.

Lemma div_digit (n b : Z) : 0 <= n < 10 * b -> 0 < b -> 0 <= n / b < 10.
Proof.
  intros Hn Hb. split; [apply Z.div_pos; lia|].
  apply Z.div_lt_upper_bound; lia.
Qed.

Lemma pad3_reads (m : Z) : 0 <= m < 1000 -> reads 3 (PyStr.pad3 m) m.
Proof.
  intros Hm. split; [lia|]. intros acc a prev. unfold PyStr.pad3.
  assert (D1 : 0 <= m / 100 < 10) by (apply div_digit; lia).
  assert (D2 : 0 <= (m / 10) mod 10 < 10) by apply mod10_digit.
  assert (D3 : 0 <= m mod 10 < 10) by apply mod10_digit.
  cbn [String.append PyInt.digits].
  rewrite !digit_char_is_digit, !digit_char_val by assumption.
  f_equal. change (10 ^ 3) with 1000.
  pose proof (Z.div_mod m 10). pose proof (Z.div_mod (m / 10) 10).
  assert (m / 10 / 10 = m / 100) by (rewrite Z.div_div by lia; reflexivity).
  lia.
Qed.

(** Dropping the commas. *)
Lemma replace_app (s1 s2 : string) :
  PyStr.replace (s1 ++ s2) "," ""
  = (PyStr.replace s1 "," "" ++ PyStr.replace s2 "," "")%string.
Proof.
  unfold PyStr.replace. induction s1 as [|c s1 IH]; [reflexivity|].
  cbn [String.append PyStr.replace_from PyStr.starts_with].
  destruct (Ascii.eqb "," c); cbn [andb String.length Nat.pred String.append];
    rewrite IH; reflexivity.
Qed.

Lemma pad3_plain (m : Z) :
  0 <= m < 1000 -> all_chars plain_char (PyStr.pad3 m) = true.
Proof.
  intros Hm. unfold PyStr.pad3. cbn [all_chars].
  rewrite !digit_char_plain;
    [reflexivity | apply mod10_digit | apply mod10_digit | apply div_digit; lia].
Qed.

Lemma head_digit_app (s1 s2 : string) :
  head_digit s1 = true -> head_digit (s1 ++ s2) = true.
Proof. destruct s1; [discriminate | intros H; exact H]. Qed.

Lemma str_int_head (n : Z) : 0 <= n -> head_digit (Text.str_int n) = true.
Proof.
  intros Hn. unfold Text.str_int. cbv zeta.
  destruct (n <? 0) eqn:L; [apply Z.ltb_lt in L; lia|].
  destruct (digits_fuel_head (Z.to_nat (Z.log2 (Z.abs n))) (Z.abs n) EmptyString)
    as [c [t [E D]]].
  rewrite E. exact D.
Qed.

Lemma str_int_plain_nonneg (n : Z) :
  0 <= n -> PyStr.replace (Text.str_int n) "," "" = Text.str_int n.
Proof. intros _. apply replace_plain, str_int_plain. Qed.

(** Without its commas the grouped form of [n] is plain text that starts
    with a digit and reads as [n]. *)
Lemma groups_read (fuel : nat) :
  forall n : Z, 0 <= n ->
    let s := PyStr.replace (PyStr.groups fuel n) "," "" in
    all_chars plain_char s = true
    /\ head_digit s = true
    /\ exists k, reads k s n.
Proof.
  assert (Base : forall n, 0 <= n ->
            let s := PyStr.replace (Text.str_int n) "," "" in
            all_chars plain_char s = true /\ head_digit s = true
            /\ exists k, reads k s n).
  { intros n Hn. cbv zeta. rewrite (str_int_plain_nonneg n Hn).
    split; [apply str_int_plain|]. split; [apply str_int_head, Hn|].
    apply str_int_reads, Hn. }
  induction fuel as [|fuel IH]; intros n Hn; [apply Base, Hn|].
  cbn [PyStr.groups]. destruct (n <? 1000) eqn:L; [apply Base, Hn|].
  apply Z.ltb_ge in L. cbv zeta.
  assert (Hq : 0 <= n / 1000) by (apply Z.div_pos; lia).
  assert (Hr : 0 <= n mod 1000 < 1000) by (apply Z.mod_pos_bound; lia).
  destruct (IH (n / 1000) Hq) as (P & H & k & R). cbv zeta in P, H, R.
  rewrite !replace_app.
  change (PyStr.replace "," "," "") with EmptyString.
  cbn [String.append].
  rewrite (replace_plain _ (pad3_plain _ Hr)).
  split; [|split].
  - rewrite all_chars_app, P, (pad3_plain _ Hr). reflexivity.
  - apply head_digit_app, H.
  - exists (k + 3).
    pose proof (reads_app _ _ _ _ _ _ R (pad3_reads _ Hr)) as RR.
    replace (n / 1000 * 10 ^ 3 + n mod 1000) with n in RR
      by (change (10 ^ 3) with 1000; pose proof (Z.div_mod n 1000); lia).
    exact RR.
Qed.

Lemma int_head_digit (s : string) :
  head_digit s = true -> all_chars plain_char s = true ->
  PyInt.int s = PyInt.digits s 0 false.
Proof.
  destruct s as [|c t]; [discriminate|]. intros D P.
  apply int_digit_head; [exact D | apply strip_plain, P].
Qed.

Lemma reads_all (k : Z) (s : string) (n : Z) :
  reads k s n -> PyInt.digits s 0 false = Ok n.
Proof.
  intros [_ R]. rewrite <- (append_empty s), R. cbn [PyInt.digits]. f_equal.
Qed.

Lemma plain_not_space (s : string) :
  all_chars plain_char s = true -> all_chars not_space s = true.
Proof.
  induction s as [|c s IH]; [reflexivity|]. cbn [all_chars]. intros H.
  apply andb_true_iff in H. destruct H as [Hc Hs]. rewrite (IH Hs).
  unfold plain_char in Hc. apply andb_true_iff in Hc. destruct Hc as [Hc _].
  unfold not_space. rewrite Hc. reflexivity.
Qed.

Lemma groups_not_space (fuel : nat) :
  forall n : Z, 0 <= n -> all_chars not_space (PyStr.groups fuel n) = true.
Proof.
  induction fuel as [|fuel IH]; intros n Hn;
    [apply plain_not_space, str_int_plain|].
  cbn [PyStr.groups]. destruct (n <? 1000) eqn:L;
    [apply plain_not_space, str_int_plain|].
  apply Z.ltb_ge in L.
  rewrite !all_chars_app, IH by (apply Z.div_pos; lia).
  rewrite (plain_not_space _ (pad3_plain (n mod 1000)
                                (Z.mod_pos_bound n 1000 ltac:(lia)))).
  reflexivity.
Qed.

Lemma lstrip_not_space (s : string) :
  all_chars not_space s = true -> Text.lstrip s = s.
Proof.
  destruct s as [|c s]; [reflexivity|]. cbn [all_chars Text.lstrip].
  unfold not_space. destruct (Text.is_space c); [discriminate | reflexivity].
Qed.

Lemma rstrip_not_space (s : string) :
  all_chars not_space s = true -> Text.rstrip s = s.
Proof.
  induction s as [|c s IH]; [reflexivity|]. cbn [all_chars Text.rstrip].
  intros H. apply andb_true_iff in H. destruct H as [Hc Hs].
  rewrite (IH Hs). destruct s; [|reflexivity].
  unfold not_space in Hc. destruct (Text.is_space c); [discriminate | reflexivity].
Qed.

Lemma strip_not_space (s : string) :
  all_chars not_space s = true -> Text.strip s = s.
Proof.
  intros H. unfold Text.strip. rewrite (lstrip_not_space s H).
  apply rstrip_not_space, H.
Qed.

Lemma int_commas (z : Z) :
  PyInt.int (PyStr.replace (Text.strip (PyStr.format_commas z)) "," "") = Ok z.
Proof.
  unfold PyStr.format_commas. cbv zeta.
  pose proof (Z.abs_nonneg z) as Ha.
  pose proof (groups_not_space (Z.to_nat (Z.log2 (Z.abs z))) (Z.abs z) Ha) as NS.
  destruct (groups_read (Z.to_nat (Z.log2 (Z.abs z))) (Z.abs z) Ha)
    as (P & H & k & R). cbv zeta in P, H, R.
  destruct (z <? 0) eqn:L.
  - apply Z.ltb_lt in L.
    rewrite strip_not_space by (cbn [all_chars]; rewrite NS; reflexivity).
    change (String "-" ?b) with ("-" ++ b)%string.
    rewrite replace_app. change (PyStr.replace "-" "," "") with "-".
    cbn [String.append]. unfold PyInt.int.
    rewrite strip_plain by (cbn [all_chars]; rewrite P; reflexivity).
    rewrite (reads_all _ _ _ R). cbn [bind]. f_equal. lia.
  - apply Z.ltb_ge in L. rewrite (strip_not_space _ NS).
    rewrite (int_head_digit _ H P), (reads_all _ _ _ R). f_equal. lia.
Qed.

(** X9: the update form opens with the stored numbers printed by [str];
    such a text, and also the number printed with thousands separators,
    parses back to the same number after the form's [strip] and removal of
    commas, so the field writes that very number whenever SQLite can hold
    it. *)
Theorem printed_number_parses_back :
  forall (v : Z),
    PyInt.int (PyStr.replace (Text.strip (Text.str_int v)) "," "") = Ok v
    /\ PyInt.int (PyStr.replace (Text.strip (PyStr.format_commas v)) "," "")
       = Ok v
    /\ forall (house_name field text who now : string) (describe : Z -> string)
              (db : Database) (made : list string),
         text = Text.str_int v \/ text = PyStr.format_commas v ->
         fits_int64 v = true ->
         exists (db' : Database) (found : bool),
           update_house_data house_name field (VInt v) who now db
           = Ok (db', found)
           /\ update_numeric_field house_name field text who now describe
                (db, made)
              = Ok (db', made ++ [describe v]).
Proof.
  intros v.
  assert (A : PyInt.int (PyStr.replace (Text.strip (Text.str_int v)) "," "")
              = Ok v).
  { rewrite (strip_plain _ (str_int_plain v)).
    rewrite (replace_plain _ (str_int_plain v)). apply int_str_int. }
  pose proof (int_commas v) as B.
  split; [exact A|]. split; [exact B|].
  intros house_name field text who now describe db made Ht F.
  assert (P : PyInt.int (PyStr.replace (Text.strip text) "," "") = Ok v)
    by (destruct Ht as [-> | ->]; assumption).
  unfold update_numeric_field.
  destruct (String.eqb (Text.strip text) "") eqn:E.
  - apply String.eqb_eq in E. rewrite E in P. discriminate P.
  - rewrite P.
    assert (U : exists db' found,
              update_house_data house_name field (VInt v) who now db
              = Ok (db', found)).
    { unfold update_house_data. cbn [bindable]. rewrite F.
      destruct (Text.mem field allowed_fields); cbn [negb].
      - destruct (execute_update house_name field (VInt v) who now db)
          as [d ok]. eauto.
      - eauto. }
    destruct U as (db' & found & U). exists db', found. rewrite U.
    split; reflexivity.
Qed.

(** *** The layout of the master panel *)

Lemma enumerate_from_length {A : Type} (l : list A) (i : Z) :
  List.length (enumerate_from i l) = List.length l.
Proof.
  revert i. induction l as [|x l IH]; intros i; [reflexivity|].
  cbn [enumerate_from List.length]. rewrite IH. reflexivity.
Qed.

Lemma enumerate_from_snd {A : Type} (l : list A) (i : Z) :
  map snd (enumerate_from i l) = l.
Proof.
  revert i. induction l as [|x l IH]; intros i; [reflexivity|].
  cbn [enumerate_from map snd]. rewrite IH. reflexivity.
Qed.

(** Among consecutive indices from [i], those in [lo, hi) are no more than
    the interval is long. *)
Lemma enumerate_window {A : Type} (lo hi : Z) (l : list A) :
  forall i : Z,
    Z.of_nat (List.length
      (filter (fun ix : Z * A => (lo <=? fst ix) && (fst ix <? hi))
         (enumerate_from i l)))
    <= Z.max 0 (Z.min (i + Z.of_nat (List.length l)) hi - Z.max i lo).
Proof.
  induction l as [|x l IH]; intros i; cbn [enumerate_from filter List.length fst].
  - lia.
  - specialize (IH (i + 1)).
    destruct (lo <=? i) eqn:A1; destruct (i <? hi) eqn:A2;
      cbn [andb List.length];
      try apply Z.leb_le in A1; try apply Z.leb_gt in A1;
      try apply Z.ltb_lt in A2; try apply Z.ltb_ge in A2; lia.
Qed.

Lemma filter_map_length {A B : Type} (f : A -> B) (p : B -> bool) (l : list A) :
  List.length (filter p (map f l))
  = List.length (filter (fun x => p (f x)) l).
Proof.
  induction l as [|x l IH]; [reflexivity|]. cbn [map filter].
  destruct (p (f x)); cbn [List.length]; rewrite IH; reflexivity.
Qed.

Lemma filter_same_on {A : Type} (p q : A -> bool) (l : list A) :
  (forall x, In x l -> p x = q x) -> filter p l = filter q l.
Proof.
  induction l as [|x l IH]; intros H; [reflexivity|]. cbn [filter].
  rewrite (H x (or_introl eq_refl)), IH; [reflexivity|].
  intros y Hy. apply H. right. exact Hy.
Qed.

Lemma panel_row_window (i r : Z) :
  0 <= i < 25 ->
  (Z.min (i / 5) 4 =? r) = ((5 * r <=? i) && (i <? 5 * r + 5)).
Proof.
  intros Hi.
  assert (D : 0 <= i / 5 <= 4).
  { split; [apply Z.div_pos; lia|]. apply Z.lt_succ_r.
    apply Z.div_lt_upper_bound; lia. }
  pose proof (Z.div_mod i 5 ltac:(lia)) as E.
  pose proof (Z.mod_pos_bound i 5 ltac:(lia)) as M.
  rewrite Z.min_l by lia.
  destruct (i / 5 =? r) eqn:Q.
  - apply Z.eqb_eq in Q. symmetry. apply andb_true_iff.
    split; [apply Z.leb_le | apply Z.ltb_lt]; lia.
  - apply Z.eqb_neq in Q. symmetry. apply andb_false_iff.
    destruct (Z_lt_le_dec (i / 5) r);
      [left; apply Z.leb_gt | right; apply Z.ltb_ge]; lia.
Qed.

(** Stripping the prefix of a panel button's id gives the roster name
    back. *)
Lemma custom_id_roster (n : string) :
  In n initial_houses -> PyStr.replace ("house_" ++ n) "house_" "" = n.
Proof.
  assert (C : forallb (fun x =>
                String.eqb (PyStr.replace ("house_" ++ x) "house_" "") x)
                initial_houses = true) by (vm_compute; reflexivity).
  intros Hn. rewrite forallb_forall in C. apply String.eqb_eq, C, Hn.
Qed.

(** After the reconciliation each roster name is found, in the row that
    carries exactly that name. *)
Lemma lookup_roster_name (now n : string) (db : Database) :
  In n initial_houses ->
  exists h, get_house_data n (populate_initial_houses now db) = Some h
            /\ name h = n.
Proof.
  intros Hn. unfold get_house_data.
  destruct (populate_names now db) as [Hall Hevery].
  remember (houses (populate_initial_houses now db)) as hs eqn:Ehs. clear Ehs.
  destruct (find (name_matches n) hs) as [h|] eqn:F.
  - exists h. split; [reflexivity|]. apply find_some in F. destruct F as [Hh M].
    apply roster_lower_injective;
      [apply Hall; exact Hh | exact Hn | apply String.eqb_eq; exact M].
  - exfalso. specialize (Hevery n Hn). apply in_map_iff in Hevery.
    destruct Hevery as [h [E Hh]]. pose proof (find_none _ _ F h Hh) as M.
    unfold name_matches in M. rewrite E, String.eqb_refl in M. discriminate.
Qed.

(** X10: the master panel never exceeds the platform's limits and its
    buttons lead where they say: at most 25 buttons, one per house in name
    order, each in a row 0..4 and no row with more than five; and after a
    roster reconciliation, pressing any button opens the house the button is
    labelled with. *)
Theorem panel_layout_and_button_round_trip :
  forall (db : Database),
    let bs := create_house_buttons db in
    (List.length bs <= 25)%nat
    /\ map b_label bs = firstn 25 (map name (get_all_houses db))
    /\ (forall b, In b bs -> exists r, b_row b = Some r /\ 0 <= r <= 4)
    /\ (forall r, buttons_in_row r bs <= 5)
    /\ (forall (now : string) (b : Button),
          In b (create_house_buttons (populate_initial_houses now db)) ->
          exists cid h,
            b_custom_id b = Some cid
            /\ house_button_callback cid (populate_initial_houses now db)
               = Some (h, house_action_view h)
            /\ name h = b_label b).
Proof.
  intros db. cbv zeta. split; [|split; [|split; [|split]]].
  - unfold create_house_buttons.
    rewrite length_map, enumerate_from_length, length_firstn. lia.
  - unfold create_house_buttons. rewrite map_map, firstn_map.
    transitivity (map name (map snd (enumerate_from 0
                                       (firstn 25 (get_all_houses db)))));
      [|rewrite enumerate_from_snd; reflexivity].
    rewrite map_map. apply map_ext. intros [i h]. cbn [fst snd].
    unfold create_house_button. cbv zeta.
    destruct (negb (is_locked h =? 0)); [reflexivity|].
    destruct (opt_eqb (alliance h) ATREIDES); [reflexivity|].
    destruct (opt_eqb (alliance h) HARKONNEN); reflexivity.
  - intros b Hb. destruct (create_house_buttons_In db b Hb) as (h & row & _ & R & ->).
    exists row. split; [|exact R]. unfold create_house_button. cbv zeta.
    destruct (negb (is_locked h =? 0)); [reflexivity|].
    destruct (opt_eqb (alliance h) ATREIDES); [reflexivity|].
    destruct (opt_eqb (alliance h) HARKONNEN); reflexivity.
  - intros r. unfold buttons_in_row, create_house_buttons.
    rewrite filter_map_length.
    remember (firstn 25 (get_all_houses db)) as l eqn:El.
    assert (Hl : Z.of_nat (List.length l) <= 25)
      by (rewrite El, length_firstn; lia).
    clear El.
    rewrite (filter_same_on _
               (fun ix : Z * House => (5 * r <=? fst ix) && (fst ix <? 5 * r + 5))).
    + pose proof (enumerate_window (5 * r) (5 * r + 5) l 0). lia.
    + intros [i h] Hin. cbn [fst snd]. apply In_enumerate_from in Hin.
      destruct Hin as [_ Hi].
      rewrite <- (panel_row_window i r) by lia.
      unfold in_row, create_house_button. cbv zeta.
      destruct (negb (is_locked h =? 0)); [reflexivity|].
      destruct (opt_eqb (alliance h) ATREIDES); [reflexivity|].
      destruct (opt_eqb (alliance h) HARKONNEN); reflexivity.
  - intros now b Hb.
    destruct (create_house_buttons_In _ b Hb) as (h & row & Hh & _ & ->).
    destruct (populate_names now db) as [Hall _].
    pose proof (Hall h Hh) as Hn.
    destruct (lookup_roster_name now (name h) db Hn) as [h' [G N]].
    exists ("house_" ++ name h)%string, h'.
    split; [|split].
    + unfold create_house_button. cbv zeta.
      destruct (negb (is_locked h =? 0)); [reflexivity|].
      destruct (opt_eqb (alliance h) ATREIDES); [reflexivity|].
      destruct (opt_eqb (alliance h) HARKONNEN); reflexivity.
    + unfold house_button_callback. cbv zeta.
      rewrite (custom_id_roster _ Hn), G. reflexivity.
    + rewrite N. unfold create_house_button. cbv zeta.
      destruct (negb (is_locked h =? 0)); [reflexivity|].
      destruct (opt_eqb (alliance h) ATREIDES); [reflexivity|].
      destruct (opt_eqb (alliance h) HARKONNEN); reflexivity.
Qed.

(** *** The sector grid *)

Lemma has_sector_app (sid : string) (l1 l2 : list Sector) :
  has_sector sid (l1 ++ l2) = has_sector sid l1 || has_sector sid l2.
Proof. unfold has_sector. apply existsb_app. Qed.

Lemma insert_or_ignore_sector_spec (l : list Sector) (rc : Z * Z) :
  exists added,
    insert_or_ignore_sector l rc = l ++ added
    /\ Forall (fun s => sector_id s = grid_id (fst rc) (snd rc)
                        /\ survey_status s = "unsurveyed"
                        /\ last_surveyed s = None /\ surveyed_by s = None
                        /\ sector_notes s = None) added
    /\ has_sector (grid_id (fst rc) (snd rc)) (l ++ added) = true
    /\ (has_sector (grid_id (fst rc) (snd rc)) l = true -> added = []).
Proof.
  destruct rc as [row col]. unfold insert_or_ignore_sector. cbn [fst snd].
  fold (has_sector (grid_id row col) l).
  destruct (has_sector (grid_id row col) l) eqn:E.
  - exists []. rewrite app_nil_r. repeat split; [constructor | exact E].
  - eexists. split; [reflexivity|]. split; [|split; [|discriminate]].
    + constructor; [|constructor]. repeat split; reflexivity.
    + rewrite has_sector_app. unfold has_sector at 2. cbn [existsb sector_id].
      rewrite String.eqb_refl. apply orb_true_iff. right. reflexivity.
Qed.

Lemma fold_insert_sector_spec (cells : list (Z * Z)) :
  forall l : list Sector,
    exists added,
      fold_left insert_or_ignore_sector cells l = l ++ added
      /\ Forall (fun s => In (sector_id s)
                            (map (fun rc => grid_id (fst rc) (snd rc)) cells)
                          /\ survey_status s = "unsurveyed"
                          /\ last_surveyed s = None /\ surveyed_by s = None
                          /\ sector_notes s = None) added
      /\ (forall rc, In rc cells ->
            has_sector (grid_id (fst rc) (snd rc)) (l ++ added) = true)
      /\ ((forall rc, In rc cells ->
             has_sector (grid_id (fst rc) (snd rc)) l = true) -> added = []).
Proof.
  induction cells as [|rc cells IH]; intros l; cbn [fold_left].
  - exists []. rewrite app_nil_r.
    split; [reflexivity|]. split; [constructor|].
    split; [intros rc []| reflexivity].
  - destruct (insert_or_ignore_sector_spec l rc) as (a1 & E1 & F1 & H1 & N1).
    rewrite E1. destruct (IH (l ++ a1)) as (a2 & E2 & F2 & H2 & N2).
    exists (a1 ++ a2). rewrite E2, app_assoc.
    split; [reflexivity|]. split; [|split].
    + apply Forall_app. split.
      * eapply Forall_impl; [|exact F1]. cbv beta.
        intros s (I & R). split; [left; symmetry; exact I | exact R].
      * eapply Forall_impl; [|exact F2]. cbv beta.
        intros s (I & R). split; [right; exact I | exact R].
    + intros rc' [<- | Hin].
      * rewrite has_sector_app, H1. reflexivity.
      * apply H2. exact Hin.
    + intros Hall.
      rewrite (N1 (Hall rc (or_introl eq_refl))) in *.
      rewrite app_nil_r in N2. rewrite N2; [reflexivity|].
      intros rc' Hin. apply Hall. right. exact Hin.
Qed.

Lemma grid_ids_valid :
  forallb valid_sector grid_ids = true.
Proof. vm_compute. reflexivity. Qed.

Lemma row_letter_cases (r : ascii) :
  Text.char_in r "ABCDEFGHI" = true ->
  In r ["A"; "B"; "C"; "D"; "E"; "F"; "G"; "H"; "I"]%char.
Proof.
  cbn [Text.char_in]. intros H.
  repeat (apply orb_true_iff in H; destruct H as [H | H];
          [apply Ascii.eqb_eq in H; subst r; cbn [In]; tauto|]).
  discriminate H.
Qed.

Lemma col_digit_cases (c : ascii) :
  Text.char_in c "123456789" = true ->
  In c ["1"; "2"; "3"; "4"; "5"; "6"; "7"; "8"; "9"]%char.
Proof.
  cbn [Text.char_in]. intros H.
  repeat (apply orb_true_iff in H; destruct H as [H | H];
          [apply Ascii.eqb_eq in H; subst c; cbn [In]; tauto|]).
  discriminate H.
Qed.

(** The sector names the commands accept are exactly those of the grid. *)
Lemma valid_sector_grid (s : string) :
  valid_sector s = true <-> In s grid_ids.
Proof.
  split.
  - destruct s as [|r [|c [|d t]]]; try discriminate.
    cbn [valid_sector]. intros H. apply andb_true_iff in H. destruct H as [Hr Hc].
    apply row_letter_cases in Hr. apply col_digit_cases in Hc.
    assert (C : forallb (fun r =>
                  forallb (fun c =>
                    Text.mem (String r (String c EmptyString)) grid_ids)
                    ["1"; "2"; "3"; "4"; "5"; "6"; "7"; "8"; "9"]%char)
                  ["A"; "B"; "C"; "D"; "E"; "F"; "G"; "H"; "I"]%char = true)
      by (vm_compute; reflexivity).
    rewrite forallb_forall in C. specialize (C r Hr).
    rewrite forallb_forall in C. specialize (C c Hc).
    apply mem_In. exact C.
  - intros H. pose proof grid_ids_valid as V. rewrite forallb_forall in V.
    apply V. exact H.
Qed.

(** X12: [init_database_locations] only appends: the rows already in the
    sector table stay as they are (survey data included), each appended row
    is an unsurveyed sector of the grid, and afterwards every sector name
    the commands accept (A1..I9) has a row; no other table changes; and a
    second run changes nothing. *)
Theorem sector_grid_initialisation :
  forall (db : Database),
    let db' := init_database_locations db in
    (exists added,
       sectors db' = sectors db ++ added /\ Forall blank_sector added)
    /\ (forall s, valid_sector s = true <-> In s grid_ids)
    /\ (forall s, valid_sector s = true -> has_sector s (sectors db') = true)
    /\ db' = with_sectors (sectors db') db
    /\ init_database_locations db' = db'.
Proof.
  intros db. cbv zeta. unfold init_database_locations.
  destruct (fold_insert_sector_spec grid_cells (sectors db))
    as (added & E & F & H & _).
  cbn [sectors with_sectors]. rewrite E.
  split; [|split; [|split; [|split]]].
  - exists added. split; [reflexivity|]. exact F.
  - exact valid_sector_grid.
  - intros s V. apply valid_sector_grid in V. unfold grid_ids in V.
    apply in_map_iff in V. destruct V as [rc [<- Hin]]. apply H. exact Hin.
  - reflexivity.
  - destruct (fold_insert_sector_spec grid_cells (sectors db ++ added))
      as (added2 & E2 & _ & _ & N2).
    rewrite E2, (N2 H), app_nil_r. destruct db; reflexivity.
Qed.

(** *** The map view *)

Lemma page_cases (start_row : Z) :
  0 <= start_row <= 4 ->
  start_row = 0 \/ start_row = 1 \/ start_row = 2 \/ start_row = 3 \/ start_row = 4.
Proof. lia. Qed.

Lemma create_sector_button_row (db : Database) (sector : string) (row : Z) :
  b_row (create_sector_button db sector row) = Some (row mod 5).
Proof.
  unfold create_sector_button. cbv zeta.
  destruct (String.eqb _ "unsurveyed"); [reflexivity|].
  destruct (String.eqb _ "partial"); reflexivity.
Qed.

Lemma create_sector_button_id (db : Database) (sector : string) (row : Z) :
  b_custom_id (create_sector_button db sector row)
  = Some ("sector_" ++ sector)%string.
Proof.
  unfold create_sector_button. cbv zeta.
  destruct (String.eqb _ "unsurveyed"); [reflexivity|].
  destruct (String.eqb _ "partial"); reflexivity.
Qed.

(** What one page shows, checked on each of the five start rows. *)
Lemma shown_sectors_shape (start_row : Z) :
  0 <= start_row <= 4 ->
  List.length (shown_sectors start_row) = 25%nat
  /\ forallb (fun sr =>
       valid_sector (fst sr) && (0 <=? snd sr) && (snd sr <=? 4)
       && existsb (fun row =>
            existsb (fun col =>
              String.eqb (fst sr) (grid_id row col) && (snd sr =? row - start_row))
              (range 1 6))
            (range start_row (start_row + 5)))
       (shown_sectors start_row) = true
  /\ forallb (fun r =>
       Nat.eqb (List.length (filter (fun sr : string * Z => snd sr mod 5 =? r)
                               (shown_sectors start_row))) 5)
       (range 0 5) = true.
Proof.
  intros H.
  destruct (page_cases start_row H) as [-> | [-> | [-> | [-> | ->]]]];
    vm_compute; repeat split; reflexivity.
Qed.

Lemma replace_nth_length (j : nat) (x : Z) (l : list Z) :
  List.length (replace_nth j x l) = List.length l.
Proof.
  revert j. induction l as [|y l IH]; intros j; [reflexivity|].
  destruct j; cbn [replace_nth List.length]; [reflexivity|].
  rewrite IH. reflexivity.
Qed.

Lemma nth_replace_nth (i j : nat) (x : Z) (l : list Z) :
  (j < List.length l)%nat ->
  nth i (replace_nth j x l) 0 = if Nat.eqb i j then x else nth i l 0.
Proof.
  revert i j. induction l as [|y l IH]; intros i j H; [cbn in H; lia|].
  destruct j as [|j]; destruct i as [|i]; cbn [replace_nth nth Nat.eqb];
    try reflexivity.
  apply IH. cbn [List.length] in H. lia.
Qed.

(** A button that names a row with room left, handed to a view with fewer
    than 25 children, is taken. *)
Lemma add_item_placed (b : Button) (v : View) (r : Z) :
  b_row b = Some r -> 0 <= r < 5 ->
  (List.length (children v) < 25)%nat ->
  nth (Z.to_nat r) (weights v) 0 < 5 ->
  add_item b v
  = Ok (mkView (children v ++ [b])
          (replace_nth (Z.to_nat r) (nth (Z.to_nat r) (weights v) 0 + 1)
             (weights v))).
Proof.
  intros R Hr L W. unfold add_item. rewrite R.
  replace (25 <=? Z.of_nat (List.length (children v))) with false
    by (symmetry; apply Z.leb_gt; lia).
  replace ((0 <=? r) && (r <? 5)) with true
    by (symmetry; apply andb_true_iff; split;
        [apply Z.leb_le | apply Z.ltb_lt]; lia).
  cbv zeta.
  replace (5 <? nth (Z.to_nat r) (weights v) 0 + 1) with false
    by (symmetry; apply Z.ltb_ge; lia).
  reflexivity.
Qed.

(** A view with 25 children takes no other. *)
Lemma add_item_full (b : Button) (v : View) :
  List.length (children v) = 25%nat -> add_item b v = Raise ValueError.
Proof. intros L. unfold add_item. rewrite L. reflexivity. Qed.

Lemma buttons_in_row_cons (r : Z) (b : Button) (bs : list Button) :
  buttons_in_row r (b :: bs) = (if in_row r b then 1 else 0) + buttons_in_row r bs.
Proof.
  unfold buttons_in_row. cbn [filter].
  destruct (in_row r b); cbn [List.length]; lia.
Qed.

Lemma buttons_in_row_nonneg (r : Z) (bs : list Button) : 0 <= buttons_in_row r bs.
Proof. unfold buttons_in_row. lia. Qed.

(** Buttons that name their rows are all taken when the view has room for
    them, as a whole and row by row; each adds one to the width of its
    row. *)
Lemma add_items_placed (bs : list Button) :
  forall v : View,
    List.length (weights v) = 5%nat ->
    (forall b, In b bs -> exists r, b_row b = Some r /\ 0 <= r < 5) ->
    (List.length (children v) + List.length bs <= 25)%nat ->
    (forall r, 0 <= r < 5 ->
       nth (Z.to_nat r) (weights v) 0 + buttons_in_row r bs <= 5) ->
    exists v' : View,
      add_items bs v = Ok v'
      /\ children v' = children v ++ bs
      /\ List.length (weights v') = 5%nat
      /\ forall r, 0 <= r < 5 ->
           nth (Z.to_nat r) (weights v') 0
           = nth (Z.to_nat r) (weights v) 0 + buttons_in_row r bs.
Proof.
  induction bs as [|b bs IH]; intros v LW Rows Len Room.
  - exists v. cbn [add_items]. rewrite app_nil_r.
    repeat split; auto. intros r _. unfold buttons_in_row. cbn. lia.
  - destruct (Rows b (or_introl eq_refl)) as (r0 & R0 & H0).
    cbn [List.length] in Len.
    assert (In0 : in_row r0 b = true)
      by (unfold in_row; rewrite R0; apply Z.eqb_refl).
    pose proof (Room r0 H0) as Room0.
    rewrite buttons_in_row_cons, In0 in Room0.
    pose proof (buttons_in_row_nonneg r0 bs) as NN.
    cbn [add_items].
    rewrite (add_item_placed b v r0 R0 H0) by lia. cbn [bind].
    set (v1 := mkView (children v ++ [b])
                 (replace_nth (Z.to_nat r0)
                    (nth (Z.to_nat r0) (weights v) 0 + 1) (weights v))).
    assert (W1 : forall r, 0 <= r < 5 ->
              nth (Z.to_nat r) (weights v1) 0
              = nth (Z.to_nat r) (weights v) 0 + (if in_row r b then 1 else 0)).
    { intros r Hr. unfold v1. cbn [weights].
      rewrite nth_replace_nth by (rewrite LW; lia).
      unfold in_row. rewrite R0.
      destruct (Z.eq_dec r0 r) as [->|Ne].
      - rewrite Nat.eqb_refl, Z.eqb_refl. reflexivity.
      - replace (Nat.eqb (Z.to_nat r) (Z.to_nat r0)) with false
          by (symmetry; apply Nat.eqb_neq; lia).
        replace (r0 =? r) with false by (symmetry; apply Z.eqb_neq; exact Ne).
        lia. }
    destruct (IH v1) as (v' & A & C & LW' & W').
    + unfold v1. cbn [weights]. rewrite replace_nth_length. exact LW.
    + intros b' Hb'. apply Rows. right. exact Hb'.
    + unfold v1. cbn [children]. rewrite length_app. cbn [List.length]. lia.
    + intros r Hr. rewrite (W1 r Hr). pose proof (Room r Hr) as Rr.
      rewrite buttons_in_row_cons in Rr. lia.
    + exists v'. split; [exact A|]. split.
      * rewrite C. unfold v1. cbn [children]. rewrite <- app_assoc. reflexivity.
      * split; [exact LW'|]. intros r Hr.
        rewrite (W' r Hr), (W1 r Hr), buttons_in_row_cons. lia.
Qed.

(** X11: on every page the map view can be on (start rows 0 to 4) it has
    25 sector buttons to show, all of them valid sectors of five
    consecutive rows and of columns 1 to 5 only, each for the row of the
    page it belongs to and carrying its sector in the button id.  The view
    takes these 25 buttons, which fill its five rows; the navigation button
    that follows is a 26th child, which a view refuses, so building the
    view raises [ValueError] on each of these pages, and [/deepdesert],
    which builds the first page, ends in the error handler.  The paging
    arithmetic lands on start row 4 going forward and on start row 0 going
    back. *)
Theorem map_view_pages :
  forall (start_row : Z) (db : Database),
    0 <= start_row <= 4 ->
    let sector_buttons :=
      map (fun sr => create_sector_button db (fst sr) (snd sr))
        (shown_sectors start_row) in
    List.length (shown_sectors start_row) = 25%nat
    /\ (forall s r, In (s, r) (shown_sectors start_row) ->
          valid_sector s = true /\ 0 <= r <= 4
          /\ exists row col,
               s = grid_id row col /\ r = row - start_row
               /\ start_row <= row < start_row + 5 /\ 1 <= col <= 5)
    /\ (forall s r, In (s, r) (shown_sectors start_row) ->
          exists b, In b sector_buttons
                    /\ b_custom_id b = Some ("sector_" ++ s)%string
                    /\ b_row b = Some r)
    /\ (exists v : View,
          add_items sector_buttons empty_view = Ok v
          /\ children v = sector_buttons
          /\ forall r, 0 <= r < 5 -> nth (Z.to_nat r) (weights v) 0 = 5)
    /\ ((0 <? start_row) || (start_row + 5 <? 9) = true)
    /\ deep_desert_map_view start_row db = Raise ValueError
    /\ snd (slash_deepdesert db) = Raise ValueError
    /\ next_page start_row = 4 /\ prev_page start_row = 0.
Proof.
  assert (Main : forall (start_row : Z) (db : Database),
    0 <= start_row <= 4 ->
    List.length (shown_sectors start_row) = 25%nat
    /\ (forall s r, In (s, r) (shown_sectors start_row) ->
          valid_sector s = true /\ 0 <= r <= 4
          /\ exists row col,
               s = grid_id row col /\ r = row - start_row
               /\ start_row <= row < start_row + 5 /\ 1 <= col <= 5)
    /\ (exists v : View,
          add_items (map (fun sr => create_sector_button db (fst sr) (snd sr))
                       (shown_sectors start_row)) empty_view = Ok v
          /\ children v = map (fun sr => create_sector_button db (fst sr) (snd sr))
                            (shown_sectors start_row)
          /\ forall r, 0 <= r < 5 -> nth (Z.to_nat r) (weights v) 0 = 5)
    /\ deep_desert_map_view start_row db = Raise ValueError).
  { intros start_row db H.
    destruct (shown_sectors_shape start_row H) as (L & A & R5).
    rewrite forallb_forall in A. rewrite forallb_forall in R5.
    assert (Shape : forall s r, In (s, r) (shown_sectors start_row) ->
              valid_sector s = true /\ 0 <= r <= 4
              /\ exists row col,
                   s = grid_id row col /\ r = row - start_row
                   /\ start_row <= row < start_row + 5 /\ 1 <= col <= 5).
    { intros s r Hin. specialize (A (s, r) Hin). cbn [fst snd] in A.
      apply andb_true_iff in A. destruct A as [A E].
      apply andb_true_iff in A. destruct A as [A Hi].
      apply andb_true_iff in A. destruct A as [V Lo].
      split; [exact V|]. split; [apply Z.leb_le in Lo; apply Z.leb_le in Hi; lia|].
      apply existsb_exists in E. destruct E as [row [Hrow E]].
      apply existsb_exists in E. destruct E as [col [Hcol E]].
      apply andb_true_iff in E. destruct E as [Es Er].
      exists row, col. split; [apply String.eqb_eq; exact Es|].
      split; [apply Z.eqb_eq; exact Er|].
      unfold range in Hrow, Hcol.
      apply in_map_iff in Hrow. destruct Hrow as [i [<- Hi']].
      apply in_map_iff in Hcol. destruct Hcol as [j [<- Hj']].
      apply in_seq in Hi'. apply in_seq in Hj'. lia. }
    set (bs := map (fun sr => create_sector_button db (fst sr) (snd sr))
                 (shown_sectors start_row)).
    assert (Count : forall r, 0 <= r < 5 -> buttons_in_row r bs = 5).
    { intros r Hr. unfold buttons_in_row, bs. rewrite filter_map_length.
      rewrite (filter_same_on _ (fun sr : string * Z => snd sr mod 5 =? r)
                 (shown_sectors start_row))
        by (intros [s q] _; unfold in_row; rewrite create_sector_button_row;
            reflexivity).
      assert (Hin : In r (range 0 5)).
      { unfold range. apply in_map_iff. exists (Z.to_nat r).
        split; [lia|]. apply in_seq. cbn. lia. }
      specialize (R5 r Hin). apply Nat.eqb_eq in R5. rewrite R5. reflexivity. }
    destruct (add_items_placed bs empty_view) as (v & Av & Cv & _ & Wv).
    - reflexivity.
    - intros b Hb. unfold bs in Hb. apply in_map_iff in Hb.
      destruct Hb as [[s r] [<- Hin]]. cbn [fst snd].
      destruct (Shape s r Hin) as (_ & Hr & _).
      exists r. rewrite create_sector_button_row, Z.mod_small by lia.
      split; [reflexivity | lia].
    - unfold bs. rewrite length_map, L. cbn. lia.
    - intros r Hr. rewrite (Count r Hr).
      destruct (page_cases r ltac:(lia)) as [-> | [-> | [-> | [-> | ->]]]];
        vm_compute; discriminate.
    - cbn [children empty_view app] in Cv.
      assert (W5 : forall r, 0 <= r < 5 -> nth (Z.to_nat r) (weights v) 0 = 5).
      { intros r Hr. rewrite (Wv r Hr), (Count r Hr).
        destruct (page_cases r ltac:(lia)) as [-> | [-> | [-> | [-> | ->]]]];
          reflexivity. }
      split; [exact L|]. split; [exact Shape|].
      split; [exists v; auto|].
      assert (Full : List.length (children v) = 25%nat)
        by (rewrite Cv; unfold bs; rewrite length_map; exact L).
      unfold deep_desert_map_view, create_sector_buttons. fold bs.
      rewrite Av. cbn [bind].
      destruct (0 <? start_row) eqn:P.
      + rewrite (add_item_full _ v Full). reflexivity.
      + cbn [bind].
        replace (start_row + 5 <? 9) with true
          by (symmetry; apply Z.ltb_lt; apply Z.ltb_ge in P; lia).
        apply add_item_full. exact Full. }
  intros start_row db H. cbv zeta.
  destruct (Main start_row db H) as (L & Shape & V & D).
  split; [exact L|]. split; [exact Shape|].
  split; [|split; [exact V|split; [|split; [exact D|split]]]].
  - intros s r Hin. exists (create_sector_button db s r). split; [|split].
    + apply in_map_iff. exists (s, r). split; [reflexivity | exact Hin].
    + apply create_sector_button_id.
    + rewrite create_sector_button_row.
      destruct (Shape s r Hin) as (_ & Hr & _).
      rewrite Z.mod_small by lia. reflexivity.
  - apply orb_true_iff.
    destruct (0 <? start_row) eqn:P; [left; reflexivity|].
    right. apply Z.ltb_lt. apply Z.ltb_ge in P. lia.
  - unfold slash_deepdesert. cbv zeta.
    destruct (Main 0 (init_database_locations db) ltac:(lia)) as (_ & _ & _ & D0).
    rewrite D0. reflexivity.
  - unfold next_page, prev_page. lia.
Qed.

(** The first page of the map over a fresh installation. *)
Lemma map_view_pages_witness :
  List.length (shown_sectors 0) = 25%nat
  /\ deep_desert_map_view 0 fresh_db = Raise ValueError.
Proof.
  destruct (map_view_pages 0 fresh_db ltac:(lia)) as (L & _ & _ & _ & _ & D & _).
  split; [exact L | exact D].
Defined.

(** *** Adding points of interest *)








(** *** The Landsraad point form *)



(** *** Survey status *)

Lemma status_step_refl (s : Sector) : status_step s s.
Proof. unfold status_step. repeat split; try reflexivity. left. reflexivity. Qed.

Lemma status_step_trans (a b c : Sector) :
  status_step a b -> status_step b c -> status_step a c.
Proof.
  intros (I1 & R1 & C1 & S1) (I2 & R2 & C2 & S2).
  split; [congruence|]. split; [congruence|]. split; [congruence|].
  destruct S2 as [E2 | [[U2 P2] | K2]].
  - rewrite E2. exact S1.
  - destruct S1 as [E1 | [[U1 P1] | K1]].
    + right. left. split; [rewrite <- E1; exact U2 | exact P2].
    + rewrite P1 in U2. discriminate.
    + rewrite K1 in U2. discriminate.
  - right. right. exact K2.
Qed.

Lemma status_rows_refl (l : list Sector) : Forall2 status_step l l.
Proof. induction l; constructor; [apply status_step_refl | assumption]. Qed.

Lemma status_rows_trans (l1 l2 l3 : list Sector) :
  Forall2 status_step l1 l2 -> Forall2 status_step l2 l3 ->
  Forall2 status_step l1 l3.
Proof.
  intros H12. revert l3. induction H12 as [|a b l1 l2 R _ IH]; intros l3 H23.
  - inversion H23. constructor.
  - inversion H23 as [|b' c l2' l3' R' H' E1 E2]; subst. constructor.
    + exact (status_step_trans _ _ _ R R').
    + apply IH. exact H'.
Qed.

Lemma status_rows_map (f : Sector -> Sector) (l : list Sector) :
  (forall s, status_step s (f s)) -> Forall2 status_step l (map f l).
Proof.
  intros H. induction l as [|s l IH]; cbn [map]; constructor; [apply H | exact IH].
Qed.

Lemma submit_form_frame (sector : string) (f : poi_form) (user now : string)
    (db : Database) :
  sectors (fst (submit_form sector f user now db)) = sectors db
  /\ houses (fst (submit_form sector f user now db)) = houses db.
Proof.
  destruct f; try (split; reflexivity).
  cbn [submit_form]. unfold add_spice_on_submit. cbv zeta.
  destruct (match optional_int estimated_yield with
            | Some z => fits_int64 z
            | None => true
            end); split; reflexivity.
Qed.

Lemma sector_action_step (user now : string) (db : Database) (a : sector_action) :
  Forall2 status_step (sectors db) (sectors (run_sector_action user now db a))
  /\ houses (run_sector_action user now db a) = houses db.
Proof.
  destruct a as [sector location_type name_arg | sector f | sector];
    cbn [run_sector_action].
  - unfold slash_quickadd. cbv zeta.
    destruct (negb (valid_sector (Text.upper sector)));
      [split; [apply status_rows_refl | reflexivity]|].
    destruct (negb (Text.mem (Text.lower location_type) _));
      [split; [apply status_rows_refl | reflexivity]|].
    assert (A : forall l, Forall2 status_step l
                            (advance_to_partial (Text.upper sector) l)).
    { intros l. unfold advance_to_partial. apply status_rows_map. intros s.
      destruct (String.eqb (sector_id s) (Text.upper sector));
        [|apply status_step_refl].
      unfold status_step. cbn [sector_id row_letter col_number survey_status].
      repeat split.
      destruct (String.eqb (survey_status s) "unsurveyed") eqn:U.
      - right. left. split; [apply String.eqb_eq; exact U | reflexivity].
      - left. reflexivity. }
    destruct (String.eqb (Text.lower location_type) "base");
      [split; [apply A | reflexivity]|].
    destruct (String.eqb (Text.lower location_type) "spice");
      [split; [apply A | reflexivity]|].
    destruct (String.eqb (Text.lower location_type) "landsraad");
      [split; [apply status_rows_refl | reflexivity]|].
    split; [apply A | reflexivity].
  - destruct (submit_form_frame sector f user now db) as [S H].
    rewrite S, H. split; [apply status_rows_refl | reflexivity].
  - unfold mark_surveyed_callback. cbn [fst sectors with_sectors houses].
    split; [|reflexivity]. apply status_rows_map. intros s.
    destruct (String.eqb (sector_id s) sector); [|apply status_step_refl].
    unfold status_step. cbn [sector_id row_letter col_number survey_status].
    repeat split. right. right. reflexivity.
Qed.

(** X15: through any run of quick adds, form submissions and
    "mark surveyed" presses the sector table keeps its rows and their
    names, a survey status only moves forward (unsurveyed, partial,
    complete): a complete sector stays complete, no sector goes back to
    unsurveyed; marking a sector makes it complete; and the houses are
    never touched. *)
Theorem survey_status_only_advances :
  forall (user now : string) (actions : list sector_action) (db : Database),
    let db' := run_sector_actions user now actions db in
    Forall2 status_step (sectors db) (sectors db')
    /\ map sector_id (sectors db') = map sector_id (sectors db)
    /\ (forall s, status_of s db = Some "complete" ->
                  status_of s db' = Some "complete")
    /\ (forall s, status_of s db' = Some "unsurveyed" ->
                  status_of s db = Some "unsurveyed")
    /\ (forall s, status_of s db <> None ->
          status_of s (fst (mark_surveyed_callback s user now db'))
          = Some "complete")
    /\ houses db' = houses db.
Proof.
  intros user now actions db. cbv zeta.
  assert (R : Forall2 status_step (sectors db)
                (sectors (run_sector_actions user now actions db))
              /\ houses (run_sector_actions user now actions db) = houses db).
  { unfold run_sector_actions. revert db.
    induction actions as [|a actions IH]; intros db; cbn [fold_left].
    - split; [apply status_rows_refl | reflexivity].
    - destruct (sector_action_step user now db a) as [S1 H1].
      destruct (IH (run_sector_action user now db a)) as [S2 H2].
      split; [exact (status_rows_trans _ _ _ S1 S2) | congruence]. }
  destruct R as [R H].
  remember (run_sector_actions user now actions db) as db' eqn:E. clear E.
  assert (F : forall s,
            match status_of s db, status_of s db' with
            | Some a, Some b =>
                a = b \/ (a = "unsurveyed" /\ b = "partial") \/ b = "complete"
            | None, None => True
            | _, _ => False
            end).
  { intros s. unfold status_of.
    induction R as [|x y l l' (I & _ & _ & S) _ IH]; [exact I|].
    cbn [find]. rewrite I.
    destruct (String.eqb (sector_id x) s); [|exact IH].
    cbn [option_map].
    destruct S as [E | [[U P] | K]]; [left; symmetry; exact E | | ].
    - right. left. split; assumption.
    - right. right. exact K. }
  split; [exact R|]. split; [|split; [|split; [|split]]].
  - clear F. induction R as [|x y l l' (I & _) _ IH]; [reflexivity|].
    cbn [map]. rewrite I, IH. reflexivity.
  - intros s C. specialize (F s). rewrite C in F.
    destruct (status_of s db') as [b|]; [|contradiction].
    destruct F as [<- | [[U _] | ->]];
      [reflexivity | discriminate U | reflexivity].
  - intros s U. specialize (F s). rewrite U in F.
    destruct (status_of s db) as [a|]; [|contradiction].
    destruct F as [-> | [[_ P] | K]];
      [reflexivity | discriminate P | discriminate K].
  - intros s N. specialize (F s).
    destruct (status_of s db) as [a|]; [|contradiction N; reflexivity].
    destruct (status_of s db') as [b|] eqn:B; [|contradiction].
    clear F N R. unfold status_of in *.
    unfold mark_surveyed_callback. cbn [fst sectors with_sectors].
    induction (sectors db') as [|x l IH]; [discriminate B|].
    cbn [map find] in *.
    destruct (String.eqb (sector_id x) s) eqn:X.
    + cbn [sector_id]. rewrite X. reflexivity.
    + rewrite X. apply IH. exact B.
  - exact H.
Qed.

(** *** The connection pool *)

Lemma pool_step_bound (m : Pool.DatabaseManager) (o : Pool.operation) :
  Pool.max_connections (Pool.step m o) = Pool.max_connections m
  /\ Z.of_nat (List.length (Pool.connections (Pool.step m o)))
     <= Z.max (Z.of_nat (List.length (Pool.connections m)))
          (Pool.max_connections m).
Proof.
  destruct o as [fresh | c |]; cbn [Pool.step].
  - unfold Pool.acquire. destruct (Pool.connections m) as [|c rest] eqn:E.
    + cbn [snd]. rewrite E. split; [reflexivity | cbn [List.length]; lia].
    + cbn [snd Pool.max_connections Pool.connections]. split; [reflexivity|].
      assert (L : (List.length (removelast (c :: rest))
                   <= List.length (c :: rest))%nat).
      { generalize (c :: rest). intros l. induction l as [|x l IH]; [cbn; lia|].
        destruct l as [|y l]; [cbn; lia|].
        change (removelast (x :: y :: l)) with (x :: removelast (y :: l)).
        cbn [List.length] in *. lia. }
      lia.
  - unfold Pool.release.
    destruct (Z.of_nat (List.length (Pool.connections m))
              <? Pool.max_connections m) eqn:C.
    + apply Z.ltb_lt in C. cbn [fst Pool.max_connections Pool.connections].
      split; [reflexivity|]. rewrite length_app. cbn [List.length]. lia.
    + cbn [fst]. split; [reflexivity | lia].
  - cbn [Pool.close_all Pool.max_connections Pool.connections List.length].
    split; [reflexivity | lia].
Qed.

(** X17: whatever sequence of acquisitions, releases and [close_all] the
    pool goes through, it never holds more connections than the larger of
    its limit and what it started with (so a pool that starts empty stays
    within its limit); a released connection is pooled when there is room
    and closed otherwise; the pool hands out the connection released last;
    and a connection handed out is no longer in a pool of distinct
    connections. *)
Theorem pool_never_exceeds_limit :
  forall (ops : list Pool.operation) (m : Pool.DatabaseManager),
    Pool.max_connections (Pool.run ops m) = Pool.max_connections m
    /\ Z.of_nat (List.length (Pool.connections (Pool.run ops m)))
       <= Z.max (Z.of_nat (List.length (Pool.connections m)))
            (Pool.max_connections m)
    /\ (forall c,
          snd (Pool.release c m) = true
          <-> Pool.max_connections m
              <= Z.of_nat (List.length (Pool.connections m)))
    /\ (forall c fresh,
          snd (Pool.release c m) = false ->
          Pool.acquire fresh (fst (Pool.release c m)) = (c, m))
    /\ (forall fresh,
          NoDup (Pool.connections m) -> Pool.connections m <> [] ->
          In (fst (Pool.acquire fresh m)) (Pool.connections m)
          /\ ~ In (fst (Pool.acquire fresh m))
                 (Pool.connections (snd (Pool.acquire fresh m)))
          /\ NoDup (Pool.connections (snd (Pool.acquire fresh m)))).
Proof.
  intros ops m. split; [|split; [|split; [|split]]].
  - unfold Pool.run. revert m. induction ops as [|o ops IH]; intros m;
      cbn [fold_left]; [reflexivity|].
    rewrite IH. apply pool_step_bound.
  - unfold Pool.run. revert m. induction ops as [|o ops IH]; intros m;
      cbn [fold_left]; [lia|].
    specialize (IH (Pool.step m o)).
    destruct (pool_step_bound m o) as [M L]. rewrite M in IH. lia.
  - intros c. unfold Pool.release.
    destruct (Z.of_nat (List.length (Pool.connections m))
              <? Pool.max_connections m) eqn:C; cbn [snd].
    + apply Z.ltb_lt in C. split; [discriminate | lia].
    + apply Z.ltb_ge in C. split; [intros _; exact C | reflexivity].
  - intros c fresh. unfold Pool.release.
    destruct (Z.of_nat (List.length (Pool.connections m))
              <? Pool.max_connections m) eqn:C; cbn [snd fst]; [|discriminate].
    intros _. unfold Pool.acquire. cbn [Pool.connections Pool.max_connections].
    destruct (Pool.connections m ++ [c]) as [|x l] eqn:E.
    + destruct (Pool.connections m); discriminate E.
    + rewrite <- E, last_last, removelast_last. destruct m; reflexivity.
  - intros fresh ND NE. unfold Pool.acquire.
    destruct (Pool.connections m) as [|x l] eqn:E; [contradiction NE; reflexivity|].
    cbn [fst snd Pool.connections].
    assert (S : x :: l = removelast (x :: l) ++ [last (x :: l) fresh])
      by (apply app_removelast_last; discriminate).
    rewrite S in ND. apply NoDup_remove in ND. rewrite app_nil_r in ND.
    destruct ND as [ND NI].
    split; [|split; [exact NI | exact ND]].
    rewrite S at 2. apply in_or_app. right. left. reflexivity.
Qed.

(** *** What the bot remembers about the schedule post *)

Lemma saved_after_save (st : Posting.bot_state) :
  config_saved (Posting.save_bot_config st).
Proof. left. reflexivity. Qed.

Lemma handle_keeps_saved (st : Posting.bot_state) (e : Posting.event) :
  config_saved st -> config_saved (Posting.handle st e).
Proof.
  intros S. destruct e as [t gs d sent | c sent | c |]; cbn [Posting.handle].
  - unfold Posting.weekly_schedule_post. cbv zeta.
    repeat match goal with
           | |- config_saved (fst (if ?b then _ else _)) => destruct b
           | |- config_saved (fst (match ?x with _ => _ end)) => destruct x
           end; cbn [fst]; first [exact S | apply saved_after_save].
  - unfold Posting.slash_post_schedule.
    repeat match goal with
           | |- config_saved (fst (if ?b then _ else _)) => destruct b
           | |- config_saved (fst (match ?x with _ => _ end)) => destruct x
           end; cbn [fst]; first [exact S | apply saved_after_save].
  - apply saved_after_save.
  - apply saved_after_save.
Qed.

Lemma restart_saved (st : Posting.bot_state) :
  config_saved st -> Posting.restart st = st.
Proof.
  unfold Posting.restart, Posting.startup, Posting.load_bot_config, config_saved.
  destruct st as [g f]. cbn [Posting.config_file Posting.globals].
  intros [-> | [-> ->]]; reflexivity.
Qed.

(** X18: from start-up on, after any sequence of daily task runs,
    [/post_schedule], [/set_schedule_channel] and [/clear_schedule_memory],
    the configured channel and the remembered post are on file, so stopping
    and starting the bot brings back exactly the state it had; a channel
    set with [/set_schedule_channel] is the one remembered after a restart,
    and clearing the memory forgets the post but not the channel. *)
Theorem schedule_memory_survives_restart :
  forall (file : option Posting.bot_config) (events : list Posting.event),
    let st := fold_left Posting.handle events (Posting.startup file) in
    config_saved st
    /\ Posting.restart st = st
    /\ (forall c,
          Posting.SCHEDULE_CHANNEL_ID
            (Posting.globals
               (Posting.restart (Posting.slash_set_schedule_channel c st)))
          = Some (Posting.ch_id c))
    /\ Posting.globals (Posting.restart (Posting.slash_clear_schedule_memory st))
       = Posting.mkBotConfig
           (Posting.SCHEDULE_CHANNEL_ID (Posting.globals st)) None None.
Proof.
  intros file events. cbv zeta.
  assert (S : config_saved (fold_left Posting.handle events (Posting.startup file))).
  { assert (S0 : config_saved (Posting.startup file)).
    { unfold Posting.startup, Posting.load_bot_config. cbn [Posting.config_file].
      destruct file as [c|]; [left; reflexivity | right; split; reflexivity]. }
    revert S0. generalize (Posting.startup file).
    induction events as [|e events IH]; intros st S0; cbn [fold_left];
      [exact S0|].
    apply IH, handle_keeps_saved, S0. }
  split; [exact S|]. split; [apply restart_saved, S|]. split.
  - intros c. rewrite restart_saved by apply saved_after_save. reflexivity.
  - rewrite restart_saved by apply saved_after_save. reflexivity.
Qed.

(** *** The weekly post *)

Lemma find_by_id_channel (guilds : list Posting.guild) (id : Z) (c : Posting.channel) :
  Posting.find_by_id guilds id = Some c ->
  channel_of guilds c /\ Posting.ch_id c = id.
Proof.
  induction guilds as [|g rest IH]; cbn [Posting.find_by_id]; [discriminate|].
  destruct (Posting.get_channel g id) as [c'|] eqn:G.
  - intros E. injection E as <-. unfold Posting.get_channel in G.
    apply find_some in G. destruct G as [Hin Hid].
    split; [exists g; split; [left; reflexivity | exact Hin]|].
    apply Z.eqb_eq. exact Hid.
  - intros E. destruct (IH E) as [[g' [Hg Hc]] Hid].
    split; [exists g'; split; [right; exact Hg | exact Hc] | exact Hid].
Qed.

Lemma find_by_name_channel (guilds : list Posting.guild) (c : Posting.channel) :
  Posting.find_by_name guilds = Some c ->
  channel_of guilds c /\ Posting.ch_is_text c = true
  /\ In (Text.lower (Posting.ch_name c)) Posting.schedule_names.
Proof.
  induction guilds as [|g rest IH]; cbn [Posting.find_by_name]; [discriminate|].
  destruct (find _ g) as [c'|] eqn:G.
  - intros E. injection E as <-. apply find_some in G. destruct G as [Hin Hp].
    apply andb_true_iff in Hp. destruct Hp as [Ht Hn].
    split; [exists g; split; [left; reflexivity | exact Hin]|].
    split; [exact Ht | apply mem_In; exact Hn].
  - intros E. destruct (IH E) as [[g' [Hg Hc]] R].
    split; [exists g'; split; [right; exact Hg | exact Hc] | exact R].
Qed.

Lemma target_channel_of (guilds : list Posting.guild) (g : Posting.bot_config)
    (c : Posting.channel) :
  target_channel guilds g = Some c -> channel_of guilds c.
Proof.
  unfold target_channel.
  destruct (Posting.SCHEDULE_CHANNEL_ID g) as [id|].
  - destruct (Posting.truthy_id (Some id)).
    + destruct (Posting.find_by_id guilds id) as [c'|] eqn:F.
      * intros E. injection E as <-. apply (find_by_id_channel _ _ _ F).
      * intros E. apply (find_by_name_channel _ _ E).
    + intros E. apply (find_by_name_channel _ _ E).
  - intros E. apply (find_by_name_channel _ _ E).
Qed.

(** The task, case by case. *)
Lemma weekly_post_cases (t : Schedule.datetime) (guilds : list Posting.guild)
    (d : Posting.delete_outcome) (sent : option Z) (st : Posting.bot_state) :
  let r := Posting.weekly_schedule_post t guilds d sent st in
  (fst r = st /\ Posting.posted (snd r) = None
   /\ (Posting.delete_attempted (snd r) = None
       \/ exists c m,
            Schedule.weekday t = 1
            /\ target_channel guilds (Posting.globals st) = Some c
            /\ Posting.ch_send_messages c = true
            /\ Posting.ch_embed_links c = true
            /\ Posting.delete_attempted (snd r) = Some (Posting.ch_id c, m)
            /\ Posting.last_schedule_message_id (Posting.globals st) = Some m
            /\ Posting.last_schedule_channel_id (Posting.globals st)
               = Some (Posting.ch_id c)))
  \/ (exists c m,
        Schedule.weekday t = 1
        /\ target_channel guilds (Posting.globals st) = Some c
        /\ Posting.ch_send_messages c = true /\ Posting.ch_embed_links c = true
        /\ sent = Some m
        /\ Posting.posted (snd r) = Some (Posting.ch_id c, m)
        /\ Posting.globals (fst r)
           = Posting.mkBotConfig
               (Posting.SCHEDULE_CHANNEL_ID (Posting.globals st)) (Some m)
               (Some (Posting.ch_id c))
        /\ Posting.config_file (fst r) = Some (Posting.globals (fst r))
        /\ match Posting.delete_attempted (snd r) with
           | None =>
               forall m0,
                 Posting.last_schedule_message_id (Posting.globals st) = Some m0 ->
                 Posting.last_schedule_channel_id (Posting.globals st)
                 = Some (Posting.ch_id c) -> m0 = 0
           | Some (cid, m0) =>
               cid = Posting.ch_id c
               /\ Posting.last_schedule_message_id (Posting.globals st) = Some m0
               /\ Posting.last_schedule_channel_id (Posting.globals st)
                  = Some (Posting.ch_id c)
               /\ d <> Posting.delete_other_error
           end).
Proof.
  cbv zeta. unfold Posting.weekly_schedule_post. cbv zeta.
  fold (target_channel guilds (Posting.globals st)).
  destruct (Schedule.weekday t =? 1) eqn:W; cbn [negb];
    [apply Z.eqb_eq in W | left; cbn; auto].
  destruct (target_channel guilds (Posting.globals st)) as [c|] eqn:T;
    [|left; cbn; auto].
  destruct (Posting.ch_send_messages c) eqn:P1; cbn [negb orb];
    [|left; cbn; auto].
  destruct (Posting.ch_embed_links c) eqn:P2; cbn [negb];
    [|left; cbn; auto].
  destruct (Posting.last_schedule_message_id (Posting.globals st)) as [m0|] eqn:L1.
  - destruct (Posting.last_schedule_channel_id (Posting.globals st)) as [lc|] eqn:L2.
    + destruct (Posting.truthy_id (Some m0) && (lc =? Posting.ch_id c)) eqn:K.
      * apply andb_true_iff in K. destruct K as [K1 K2]. apply Z.eqb_eq in K2.
        subst lc.
        destruct d; cbn [fst snd Posting.posted Posting.delete_attempted];
          try (destruct sent as [m|];
               [right; exists c, m; cbn [fst snd Posting.posted
                  Posting.delete_attempted Posting.globals Posting.config_file
                  Posting.save_bot_config];
                repeat split; try reflexivity; try assumption; discriminate
               |left; split; [reflexivity|]; split; [reflexivity|];
                right; exists c, m0; repeat split; assumption || reflexivity]).
        left. split; [reflexivity|]. split; [reflexivity|].
        right. exists c, m0. repeat split; assumption || reflexivity.
      * assert (Z0 : forall m1, Some m0 = Some m1 ->
                       Some lc = Some (Posting.ch_id c) -> m1 = 0).
        { intros m1 E1 E2. injection E1 as <-. injection E2 as ->.
          rewrite Z.eqb_refl, andb_true_r in K. unfold Posting.truthy_id in K.
          apply negb_false_iff, Z.eqb_eq in K. exact K. }
        destruct sent as [m|];
          [right; exists c, m; cbn; repeat split; try reflexivity;
           try assumption
          |left; cbn; auto].
    + destruct sent as [m|];
        [right; exists c, m; cbn; repeat split; try reflexivity; try assumption;
         intros m1 _ E; discriminate E
        |left; cbn; auto].
  - destruct sent as [m|];
      [right; exists c, m; cbn; repeat split; try reflexivity; try assumption;
       intros m1 E; discriminate E
      |left; cbn; auto].
Qed.

Lemma target_channel_same (guilds : list Posting.guild) (g1 g2 : Posting.bot_config) :
  Posting.SCHEDULE_CHANNEL_ID g1 = Posting.SCHEDULE_CHANNEL_ID g2 ->
  target_channel guilds g1 = target_channel guilds g2.
Proof. unfold target_channel. intros ->. reflexivity. Qed.

(** After a post, the next Tuesday run in the same guilds goes for the
    message just posted. *)
Lemma next_run_deletes (t2 : Schedule.datetime) (guilds : list Posting.guild)
    (d2 : Posting.delete_outcome) (sent2 : option Z) (st' : Posting.bot_state)
    (c : Posting.channel) (m : Z) :
  Schedule.weekday t2 = 1 ->
  target_channel guilds (Posting.globals st') = Some c ->
  Posting.ch_send_messages c = true -> Posting.ch_embed_links c = true ->
  Posting.last_schedule_message_id (Posting.globals st') = Some m ->
  Posting.last_schedule_channel_id (Posting.globals st') = Some (Posting.ch_id c) ->
  m <> 0 ->
  Posting.delete_attempted
    (snd (Posting.weekly_schedule_post t2 guilds d2 sent2 st'))
  = Some (Posting.ch_id c, m).
Proof.
  intros W T P1 P2 L1 L2 M.
  unfold Posting.weekly_schedule_post. cbv zeta.
  fold (target_channel guilds (Posting.globals st')).
  rewrite W, T, P1, P2, L1, L2. cbn [Z.eqb Pos.eqb negb orb].
  rewrite Z.eqb_refl.
  replace (Posting.truthy_id (Some m)) with true
    by (unfold Posting.truthy_id; symmetry; apply negb_true_iff, Z.eqb_neq; exact M).
  cbn [andb]. destruct d2; try (destruct sent2; reflexivity); reflexivity.
Qed.

(** X19: the daily task posts the schedule on Tuesdays only, and only in a
    channel of one of the bot's guilds in which it may both send messages
    and embed links; when it posts it remembers the new message and its
    channel, in the variables and on file, and keeps the configured channel;
    when it does not post, nothing it remembers changes; the only message it
    ever tries to delete is the remembered one, and only when that one sits
    in the channel it is about to post in; and the run of the following
    Tuesday goes for the message posted now. *)
Theorem weekly_post_is_careful :
  forall (t : Schedule.datetime) (guilds : list Posting.guild)
         (d : Posting.delete_outcome) (sent : option Z) (st : Posting.bot_state),
    let r := Posting.weekly_schedule_post t guilds d sent st in
    (Posting.posted (snd r) = None -> fst r = st)
    /\ (forall cid m,
          Posting.posted (snd r) = Some (cid, m) ->
          Schedule.weekday t = 1 /\ sent = Some m
          /\ (exists c, channel_of guilds c /\ Posting.ch_id c = cid
                        /\ Posting.ch_send_messages c = true
                        /\ Posting.ch_embed_links c = true)
          /\ Posting.globals (fst r)
             = Posting.mkBotConfig
                 (Posting.SCHEDULE_CHANNEL_ID (Posting.globals st)) (Some m)
                 (Some cid)
          /\ Posting.config_file (fst r) = Some (Posting.globals (fst r)))
    /\ (forall cid m0,
          Posting.delete_attempted (snd r) = Some (cid, m0) ->
          Schedule.weekday t = 1
          /\ Posting.last_schedule_message_id (Posting.globals st) = Some m0
          /\ Posting.last_schedule_channel_id (Posting.globals st) = Some cid
          /\ exists c, target_channel guilds (Posting.globals st) = Some c
                       /\ Posting.ch_id c = cid)
    /\ (forall cid m (t2 : Schedule.datetime) (d2 : Posting.delete_outcome)
               (sent2 : option Z),
          Posting.posted (snd r) = Some (cid, m) -> m <> 0 ->
          Schedule.weekday t2 = 1 ->
          Posting.delete_attempted
            (snd (Posting.weekly_schedule_post t2 guilds d2 sent2 (fst r)))
          = Some (cid, m)).
Proof.
  intros t guilds d sent st. cbv zeta.
  pose proof (weekly_post_cases t guilds d sent st) as C. cbv zeta in C.
  remember (Posting.weekly_schedule_post t guilds d sent st) as r eqn:E. clear E.
  split; [|split; [|split]].
  - intros N. destruct C as [(E & _) | (c & m & _ & _ & _ & _ & _ & P & _)];
      [exact E | rewrite P in N; discriminate N].
  - intros cid m P.
    destruct C as [(_ & N & _) | (c & m' & W & T & P1 & P2 & S & P' & G & F & _)];
      [rewrite N in P; discriminate P|].
    rewrite P' in P. injection P as <- <-.
    split; [exact W|]. split; [exact S|]. split; [|split; [exact G | exact F]].
    exists c. split; [exact (target_channel_of _ _ _ T)|]. auto.
  - intros cid m0 D.
    destruct C as [(_ & _ & [N | (c & m & W & T & _ & _ & D' & L1 & L2)])
                  | (c & m & W & T & _ & _ & _ & _ & _ & _ & D')].
    + rewrite N in D. discriminate D.
    + rewrite D' in D. injection D as <- <-.
      split; [exact W|]. split; [exact L1|]. split; [exact L2|].
      exists c. split; [exact T | reflexivity].
    + rewrite D in D'. destruct D' as (-> & L1 & L2 & _).
      split; [exact W|]. split; [exact L1|]. split; [exact L2|].
      exists c. split; [exact T | reflexivity].
  - intros cid m t2 d2 sent2 P M W2.
    destruct C as [(_ & N & _) | (c & m' & W & T & P1 & P2 & S & P' & G & F & _)];
      [rewrite N in P; discriminate P|].
    rewrite P' in P. injection P as <- <-.
    apply next_run_deletes; try assumption.
    + rewrite <- T. apply target_channel_same. rewrite G. reflexivity.
    + rewrite G. reflexivity.
    + rewrite G. reflexivity.
Qed.

(** *** The voting window *)

Section VotingFacts.

Import Schedule.

Lemma day_after_18 (o : Z) :
  add_timedelta (mkDatetime o 18 0 0 0) 0 24 = mkDatetime (o + 1) 18 0 0 0.
Proof.
  unfold add_timedelta.
  replace (to_us (mkDatetime o 18 0 0 0) + 0 * 86400000000 + 24 * 3600000000)
    with (to_us (mkDatetime (o + 1) 18 0 0 0))
    by (unfold to_us; simpl; lia).
  apply of_us_to_us. unfold valid. simpl. lia.
Qed.

Lemma next_occurrence_spec_shape (wd h m : Z) (now : datetime) :
  next_occurrence_spec wd h m now
  = mkDatetime (ordinal (next_occurrence_spec wd h m now)) h m 0 0.
Proof.
  unfold next_occurrence_spec, this_week_occurrence.
  destruct (_ <=? _); reflexivity.
Qed.

Lemma weekday_next_day (d : datetime) (h m s u : Z) :
  weekday (mkDatetime (ordinal d + 1) h m s u) = (weekday d + 1) mod 7.
Proof.
  unfold weekday. cbn [ordinal].
  replace (ordinal d + 1 + 6) with ((ordinal d + 6) + 1) by lia.
  rewrite Z.add_mod_idemp_l by lia. reflexivity.
Qed.

(** Two dates on different weekdays are so many days apart. *)
Lemma weekday_gap (a b : datetime) :
  exists k, ordinal b - ordinal a = 7 * k + (weekday b - weekday a).
Proof.
  unfold weekday.
  pose proof (Z.div_mod (ordinal a + 6) 7 ltac:(lia)) as Ea.
  pose proof (Z.div_mod (ordinal b + 6) 7 ltac:(lia)) as Eb.
  exists ((ordinal b + 6) / 7 - (ordinal a + 6) / 7). lia.
Qed.

End VotingFacts.

(** X20: whenever the schedule is computed, voting opens on a Saturday at
    18:00, strictly after the clock reading and at most a week ahead, and
    closes exactly 24 hours later, on the Sunday at 18:00; the storm and
    the voting window never overlap; and when the task posts the schedule on
    a Tuesday at 03:00, voting opens that week's Saturday, the storm begins
    the following Monday at 17:00 and the new term begins exactly one week
    after the post's Tuesday 03:00. *)
Theorem voting_window :
  forall (now1 now2 : Schedule.datetime),
    Schedule.valid now1 -> Schedule.valid now2 ->
    let ev := Schedule.calculate_schedule_events now1 now2 in
    Schedule.weekday (Schedule.voting_start ev) = 5
    /\ Schedule.voting_start ev
       = Schedule.mkDatetime (Schedule.ordinal (Schedule.voting_start ev)) 18 0 0 0
    /\ Schedule.to_us now2 < Schedule.to_us (Schedule.voting_start ev)
         <= Schedule.to_us now2 + 7 * 86400000000
    /\ Schedule.voting_end ev
       = Schedule.mkDatetime (Schedule.ordinal (Schedule.voting_start ev) + 1)
           18 0 0 0
    /\ Schedule.weekday (Schedule.voting_end ev) = 6
    /\ Schedule.to_us (Schedule.voting_end ev)
       = Schedule.to_us (Schedule.voting_start ev) + 24 * 3600000000
    /\ (Schedule.to_us (Schedule.coriolis_end ev)
          < Schedule.to_us (Schedule.voting_start ev)
        \/ Schedule.to_us (Schedule.voting_end ev)
             < Schedule.to_us (Schedule.coriolis_start ev))
    /\ (Schedule.weekday now1 = 1 -> Schedule.hour now1 = 3 ->
        now2 = now1 ->
        Schedule.voting_start ev
          = Schedule.mkDatetime (Schedule.ordinal now1 + 4) 18 0 0 0
        /\ Schedule.coriolis_start ev
           = Schedule.mkDatetime (Schedule.ordinal now1 + 6) 17 0 0 0
        /\ Schedule.landsraad_new_term ev
           = Schedule.mkDatetime (Schedule.ordinal now1 + 7) 3 0 0 0).
Proof.
  intros now1 now2 V1 V2. cbv zeta.
  unfold Schedule.calculate_schedule_events.
  cbn [Schedule.voting_start Schedule.voting_end Schedule.coriolis_start
       Schedule.coriolis_end Schedule.landsraad_new_term].
  rewrite (get_next_weekday_refines 5 18 0 now2 V2) by lia.
  rewrite (get_next_weekday_refines 0 17 0 now1 V1) by lia.
  pose proof (next_occurrence_spec_weekday 5 18 0 now2 ltac:(lia)) as Wv.
  pose proof (next_occurrence_spec_weekday 0 17 0 now1 ltac:(lia)) as Wc.
  pose proof (next_occurrence_spec_after 5 18 0 now2 V2 ltac:(lia) ltac:(lia)
                ltac:(lia)) as Av.
  pose proof (next_occurrence_spec_shape 5 18 0 now2) as Sv.
  pose proof (next_occurrence_spec_shape 0 17 0 now1) as Sc.
  pose proof (weekday_gap (Schedule.next_occurrence_spec 0 17 0 now1)
                (Schedule.next_occurrence_spec 5 18 0 now2)) as [k G].
  rewrite Wv, Wc in G.
  assert (Spec1 : Schedule.weekday now1 = 1 -> Schedule.hour now1 = 3 ->
            Schedule.next_occurrence_spec 5 18 0 now1
              = Schedule.mkDatetime (Schedule.ordinal now1 + 4) 18 0 0 0
            /\ Schedule.next_occurrence_spec 0 17 0 now1
               = Schedule.mkDatetime (Schedule.ordinal now1 + 6) 17 0 0 0).
  { intros W H. destruct V1 as (Vh & Vm & Vs & Vu).
    unfold Schedule.next_occurrence_spec, Schedule.this_week_occurrence.
    rewrite W. split.
    - replace (_ <=? _) with false
        by (symmetry; apply Z.leb_gt; unfold Schedule.to_us;
            cbn [Schedule.ordinal Schedule.hour Schedule.minute Schedule.second
                 Schedule.microsecond]; lia).
      f_equal. lia.
    - replace (_ <=? _) with true
        by (symmetry; apply Z.leb_le; unfold Schedule.to_us;
            cbn [Schedule.ordinal Schedule.hour Schedule.minute Schedule.second
                 Schedule.microsecond]; lia).
      cbn [Schedule.ordinal]. f_equal. lia. }
  remember (Schedule.next_occurrence_spec 5 18 0 now2) as vs eqn:Evs.
  remember (Schedule.next_occurrence_spec 0 17 0 now1) as cs eqn:Ecs.
  rewrite Sv, Sc. rewrite day_after_18, ten_hours_after_17.
  split; [rewrite <- Sv; exact Wv|]. split; [reflexivity|].
  split; [rewrite <- Sv; exact Av|]. split; [reflexivity|].
  split; [rewrite weekday_next_day, Wv; reflexivity|].
  split; [unfold Schedule.to_us; cbn [Schedule.ordinal Schedule.hour
            Schedule.minute Schedule.second Schedule.microsecond]; lia|].
  split.
  - unfold Schedule.to_us. cbn [Schedule.ordinal Schedule.hour
      Schedule.minute Schedule.second Schedule.microsecond]. lia.
  - intros W H ->. rewrite <- Sv, <- Sc. subst vs cs.
    destruct (Spec1 W H) as [A B]. rewrite A, B.
    split; [reflexivity|]. split; [reflexivity|].
    cbn [Schedule.ordinal]. f_equal. lia.
Qed.

(** The schedule computed on a Wednesday morning. *)
Lemma voting_window_witness :
  Schedule.weekday
    (Schedule.voting_start
       (Schedule.calculate_schedule_events wednesday_10 wednesday_10)) = 5.
Proof.
  assert (V : Schedule.valid wednesday_10)
    by (unfold Schedule.valid, wednesday_10; simpl; lia).
  destruct (voting_window wednesday_10 wednesday_10 V V) as (W & _).
  exact W.
Defined.

(** *** The full reset *)

(** X16: whatever the database held, the full reset leaves the 25 roster
    houses in roster order with keys 1 to 25, each locked, unclaimed, at
    progress 0 with quest "Unknown"; the 81 sectors of the grid, each
    unsurveyed; and every other table empty; the panel then counts nothing
    unlocked or claimed and the map overview 81 unsurveyed sectors. *)
Theorem full_reset_starts_afresh :
  forall (now : string) (db : Database),
    let db' := confirm_full_reset now db in
    map name (houses db') = initial_houses
    /\ map house_id (houses db') = range 1 26
    /\ Forall (fun h => is_locked h = 1 /\ alliance h = None
                        /\ completed_by h = None /\ current_goal h = 0
                        /\ quest h = Some "Unknown" /\ last_updated h = now)
         (houses db')
    /\ map sector_id (sectors db') = grid_ids
    /\ Forall (fun s => survey_status s = "unsurveyed") (sectors db')
    /\ reset_log db' = [] /\ guild_bases db' = [] /\ spice_locations db' = []
    /\ landsraad_points db' = [] /\ resource_locations db' = []
    /\ create_master_embed db' = mkSummary 0 0 0 0
    /\ create_map_overview_embed db' = mkMapOverview 0 0 81 0 0 0 0.
Proof.
  intros now db. cbv zeta. unfold confirm_full_reset, drop_and_create.
  vm_compute.
  repeat (split; [first [reflexivity | repeat constructor]|]).
  reflexivity.
Qed.

(** *** Claiming and the action view *)

Lemma claim_lookup (house_name : string) (a : option string) (user now : string)
    (db : Database) :
  get_house_data house_name
    (fst (claim_house_for_alliance house_name a user now db))
  = option_map (fun h => stamp now user (set_alliance a h))
      (get_house_data house_name db)
  /\ (snd (claim_house_for_alliance house_name a user now db) = true
      <-> exists h, get_house_data house_name db = Some h).
Proof.
  unfold claim_house_for_alliance, get_house_data. cbv zeta.
  cbn [fst snd houses with_houses]. split.
  - apply find_update_where. intros h. reflexivity.
  - apply rowcount_positive_find.
Qed.

(** X21: pressing a claim button on a house that exists answers with the
    claim, and the house then looked up carries that alliance with lock
    and progress as before; if it is unlocked its action view offers
    Update, both claim buttons with the one of the holding alliance
    disabled, Unclaim and Cancel, and its panel button is green for Atreides
    and red for Harkonnen; after Unclaim the view offers both claim buttons
    enabled and no Unclaim, and the panel button is blue. *)
Theorem claim_buttons_and_views :
  forall (house_name user now : string) (db : Database) (h : House),
    get_house_data house_name db = Some h ->
    let ra := claim_atreides_callback house_name user now db in
    let rh := claim_harkonnen_callback house_name user now db in
    let ru := unclaim_house_callback house_name user now db in
    snd ra = house_claimed ATREIDES /\ snd rh = house_claimed HARKONNEN
    /\ snd ru = house_unclaimed
    /\ (exists ha hh hu,
          get_house_data house_name (fst ra) = Some ha
          /\ get_house_data house_name (fst rh) = Some hh
          /\ get_house_data house_name (fst ru) = Some hu
          /\ alliance ha = Some ATREIDES /\ alliance hh = Some HARKONNEN
          /\ alliance hu = None
          /\ untouched_by_claim h ha /\ untouched_by_claim h hh
          /\ untouched_by_claim h hu
          /\ (is_locked h = 0 ->
              map offer (house_action_view ha)
              = [ (Some "update_house", false); (Some "claim_atreides", true);
                  (Some "claim_harkonnen", false); (Some "unclaim_house", false);
                  (Some "cancel", false) ]
              /\ map offer (house_action_view hh)
                 = [ (Some "update_house", false); (Some "claim_atreides", false);
                     (Some "claim_harkonnen", true); (Some "unclaim_house", false);
                     (Some "cancel", false) ]
              /\ map offer (house_action_view hu)
                 = [ (Some "update_house", false); (Some "claim_atreides", false);
                     (Some "claim_harkonnen", false); (Some "cancel", false) ]
              /\ (forall row,
                    b_style (create_house_button ha row) = style_success
                    /\ b_style (create_house_button hh row) = style_danger
                    /\ b_style (create_house_button hu row) = style_primary))).
Proof.
  intros house_name user now db h G. cbv zeta.
  unfold claim_atreides_callback, claim_harkonnen_callback, unclaim_house_callback.
  destruct (claim_lookup house_name (Some ATREIDES) user now db) as [La Sa].
  destruct (claim_lookup house_name (Some HARKONNEN) user now db) as [Lh Sh].
  destruct (claim_lookup house_name None user now db) as [Lu Su].
  rewrite G in La, Lh, Lu. cbn [option_map] in La, Lh, Lu.
  assert (Ta := proj2 Sa (ex_intro _ h G)).
  assert (Th := proj2 Sh (ex_intro _ h G)).
  assert (Tu := proj2 Su (ex_intro _ h G)).
  destruct (claim_house_for_alliance house_name (Some ATREIDES) user now db)
    as [dba sa].
  destruct (claim_house_for_alliance house_name (Some HARKONNEN) user now db)
    as [dbh sh].
  destruct (claim_house_for_alliance house_name None user now db) as [dbu su].
  cbn [fst snd] in *. subst sa sh su. cbn [fst snd].
  split; [reflexivity|]. split; [reflexivity|]. split; [reflexivity|].
  eexists _, _, _.
  split; [exact La|]. split; [exact Lh|]. split; [exact Lu|].
  split; [reflexivity|]. split; [reflexivity|]. split; [reflexivity|].
  split; [unfold untouched_by_claim; repeat split; reflexivity|].
  split; [unfold untouched_by_claim; repeat split; reflexivity|].
  split; [unfold untouched_by_claim; repeat split; reflexivity|].
  intros U. unfold house_action_view, create_house_button.
  cbn [is_locked alliance stamp set_alliance]. rewrite U.
  split; [reflexivity|]. split; [reflexivity|]. split; [reflexivity|].
  intros row. split; [reflexivity|]. split; reflexivity.
Qed.

(** House Alexin of a fresh installation. *)
Lemma claim_buttons_and_views_witness :
  snd (claim_atreides_callback "alexin" "paul#1234" "2025-01-02 10:00:00"
         fresh_db) = house_claimed ATREIDES.
Proof.
  assert (G : get_house_data "alexin" fresh_db
              = Some (default_house 1 "Alexin" "2025-01-01 00:00:00"))
    by (vm_compute; reflexivity).
  destruct (claim_buttons_and_views "alexin" "paul#1234" "2025-01-02 10:00:00"
              fresh_db _ G) as (A & _).
  exact A.
Defined.

(** *** Commands and buttons that write the alliance *)

Lemma claim_as_update (house_name : string) (a : option string)
    (v : Value) (user now : string) (db : Database) :
  stored_text v = a -> bindable v = true ->
  update_house_data house_name "alliance" v user now db
  = Ok (claim_house_for_alliance house_name a user now db).
Proof.
  intros <- B. unfold update_house_data.
  replace (Text.mem "alliance" allowed_fields) with true by reflexivity.
  rewrite B. reflexivity.
Qed.







(** *** The schedule repeats weekly *)

Lemma weekday_plus_7 (o h m s u : Z) :
  Schedule.weekday (Schedule.mkDatetime (o + 7) h m s u)
  = Schedule.weekday (Schedule.mkDatetime o h m s u).
Proof.
  unfold Schedule.weekday. cbn [Schedule.ordinal].
  replace (o + 7 + 6) with (o + 6 + 1 * 7) by lia.
  apply Z.mod_add. lia.
Qed.

Lemma next_occurrence_spec_valid (wd h m : Z) (now : Schedule.datetime) :
  0 <= h < 24 -> 0 <= m < 60 ->
  Schedule.valid (Schedule.next_occurrence_spec wd h m now).
Proof.
  intros Hh Hm. rewrite next_occurrence_spec_shape. unfold Schedule.valid.
  cbn [Schedule.hour Schedule.minute Schedule.second Schedule.microsecond]. lia.
Qed.

(** X23: the schedule is periodic with period one week: one week later
    every next occurrence is one week later, and asking for the next
    occurrence at the very moment of an occurrence gives the one a week
    after it. *)
Theorem schedule_repeats_weekly :
  forall (wd h m : Z) (now : Schedule.datetime),
    Schedule.valid now -> 0 <= wd < 7 -> 0 <= h < 24 -> 0 <= m < 60 ->
    let r := Schedule.get_next_weekday wd h m now in
    Schedule.get_next_weekday wd h m (Schedule.add_timedelta now 7 0)
    = Schedule.add_timedelta r 7 0
    /\ Schedule.get_next_weekday wd h m r = Schedule.add_timedelta r 7 0
    /\ Schedule.add_timedelta r 7 0
       = Schedule.mkDatetime (Schedule.ordinal r + 7) h m 0 0.
Proof.
  intros wd h m now V Hwd Hh Hm. cbv zeta.
  rewrite (get_next_weekday_refines wd h m now V Hwd Hh Hm).
  pose proof (next_occurrence_spec_valid wd h m now Hh Hm) as Vr.
  pose proof (next_occurrence_spec_weekday wd h m now Hwd) as Wr.
  pose proof (next_occurrence_spec_shape wd h m now) as Sr.
  remember (Schedule.next_occurrence_spec wd h m now) as r eqn:Er.
  assert (A : Schedule.add_timedelta r 7 0
              = Schedule.mkDatetime (Schedule.ordinal r + 7) h m 0 0).
  { rewrite (add_days r 7 Vr). rewrite Sr at 2 3 4 5.
    cbn [Schedule.hour Schedule.minute Schedule.second Schedule.microsecond].
    reflexivity. }
  split; [|split; [|exact A]].
  - rewrite (add_days now 7 V).
    assert (V' : Schedule.valid
                   (Schedule.mkDatetime (Schedule.ordinal now + 7)
                      (Schedule.hour now) (Schedule.minute now)
                      (Schedule.second now) (Schedule.microsecond now)))
      by exact V.
    rewrite (get_next_weekday_refines wd h m _ V' Hwd Hh Hm), A, Er.
    unfold Schedule.next_occurrence_spec, Schedule.this_week_occurrence.
    rewrite weekday_plus_7.
    replace (Schedule.weekday
               (Schedule.mkDatetime (Schedule.ordinal now) (Schedule.hour now)
                  (Schedule.minute now) (Schedule.second now)
                  (Schedule.microsecond now)))
      with (Schedule.weekday now) by reflexivity.
    cbn [Schedule.ordinal].
    replace (Schedule.to_us
               (Schedule.mkDatetime
                  (Schedule.ordinal now + 7 - Schedule.weekday now + wd) h m 0 0)
             <=? Schedule.to_us
                   (Schedule.mkDatetime (Schedule.ordinal now + 7)
                      (Schedule.hour now) (Schedule.minute now)
                      (Schedule.second now) (Schedule.microsecond now)))
      with (Schedule.to_us
              (Schedule.mkDatetime
                 (Schedule.ordinal now - Schedule.weekday now + wd) h m 0 0)
            <=? Schedule.to_us now).
    + destruct (_ <=? _); cbn [Schedule.ordinal]; f_equal; lia.
    + unfold Schedule.to_us.
      cbn [Schedule.ordinal Schedule.hour Schedule.minute Schedule.second
           Schedule.microsecond].
      apply Bool.eq_iff_eq_true. rewrite !Z.leb_le. lia.
  - rewrite (get_next_weekday_refines wd h m r Vr Hwd Hh Hm), A.
    unfold Schedule.next_occurrence_spec, Schedule.this_week_occurrence.
    rewrite Wr.
    replace (Schedule.ordinal r - wd + wd) with (Schedule.ordinal r) by lia.
    replace (_ <=? _) with true; [cbn [Schedule.ordinal]; reflexivity|].
    symmetry. apply Z.leb_le. rewrite Sr at 2. lia.
Qed.

(** One week after a Wednesday morning. *)
Lemma schedule_repeats_weekly_witness :
  Schedule.get_next_weekday 0 17 0 (Schedule.add_timedelta wednesday_10 7 0)
  = Schedule.add_timedelta (Schedule.get_next_weekday 0 17 0 wednesday_10) 7 0.
Proof.
  assert (V : Schedule.valid wednesday_10)
    by (unfold Schedule.valid, wednesday_10; simpl; lia).
  destruct (schedule_repeats_weekly 0 17 0 wednesday_10 V
              ltac:(lia) ltac:(lia) ltac:(lia)) as (E & _).
  exact E.
Defined.

(** *** The report channels *)

Lemma str_int_injective (a b : Z) : Text.str_int a = Text.str_int b -> a = b.
Proof.
  intros E. pose proof (int_str_int a) as A. rewrite E, int_str_int in A.
  injection A as A. symmetry. exact A.
Qed.

Lemma refreshed_refl (guild : string) (r : Reports.ChannelConfig) :
  refreshed guild r r.
Proof. unfold refreshed. repeat split; reflexivity. Qed.

Lemma refreshed_trans (guild : string) (a b c : Reports.ChannelConfig) :
  refreshed guild a b -> refreshed guild b c -> refreshed guild a c.
Proof.
  intros (N1 & C1 & G1 & K1) (N2 & C2 & G2 & K2).
  unfold refreshed. split; [congruence|]. split; [congruence|].
  split; [congruence|]. intros F. rewrite K2, K1; try exact F; try reflexivity.
  rewrite G1. exact F.
Qed.

Lemma refreshed_rows_refl (guild : string) (t : list Reports.ChannelConfig) :
  Forall2 (refreshed guild) t t.
Proof. induction t; constructor; [apply refreshed_refl | assumption]. Qed.

Lemma refreshed_rows_trans (guild : string)
    (t1 t2 t3 : list Reports.ChannelConfig) :
  Forall2 (refreshed guild) t1 t2 -> Forall2 (refreshed guild) t2 t3 ->
  Forall2 (refreshed guild) t1 t3.
Proof.
  intros H12. revert t3. induction H12 as [|a b l1 l2 R _ IH]; intros t3 H23.
  - inversion H23. constructor.
  - inversion H23 as [|b' c l2' l3' R' H' E1 E2]; subst. constructor.
    + exact (refreshed_trans _ _ _ _ R R').
    + apply IH. exact H'.
Qed.

Lemma set_message_id_refreshed (key guild message : string)
    (t : list Reports.ChannelConfig) :
  Forall2 (refreshed guild) t (Reports.set_message_id key guild message t).
Proof.
  unfold Reports.set_message_id. induction t as [|r t IH]; cbn [map];
    constructor; [|exact IH].
  destruct (String.eqb (Reports.config_name r) key) eqn:K; cbn [andb];
    [|apply refreshed_refl].
  destruct (opt_eqb (Reports.guild_id r) guild) eqn:G; [|apply refreshed_refl].
  unfold refreshed.
  cbn [Reports.config_name Reports.channel_id Reports.guild_id].
  repeat split. rewrite G. discriminate.
Qed.

Lemma record_actions_refreshed (guild : string) (acts : list Reports.action) :
  forall t, Forall2 (refreshed guild) t (fold_left (record_action guild) acts t).
Proof.
  induction acts as [|a acts IH]; intros t; cbn [fold_left];
    [apply refreshed_rows_refl|].
  apply (refreshed_rows_trans guild _ (record_action guild t a)); [|apply IH].
  destruct a; cbn [record_action];
    [apply refreshed_rows_refl | apply set_message_id_refreshed].
Qed.

Lemma record_edits (guild : string) (acts : list Reports.action) :
  forallb (fun a => negb (is_sent a)) acts = true ->
  forall t, fold_left (record_action guild) acts t = t.
Proof.
  induction acts as [|a acts IH]; intros H t; [reflexivity|].
  cbn [forallb] in H. apply andb_true_iff in H. destruct H as [Ha H].
  cbn [fold_left]. destruct a; [|discriminate Ha].
  cbn [record_action]. apply IH. exact H.
Qed.

Lemma send_new_spec (guild : string) (pf : Reports.platform)
    (row : Reports.ChannelConfig) (c : Z) (t : list Reports.ChannelConfig)
    (acts : list Reports.action) :
  exists one,
    Reports.send_new guild pf (Reports.config_name row) c t acts
    = (fold_left (record_action guild) one t, acts ++ one)
    /\ (List.length one <= 1)%nat
    /\ Forall (fun a => justified_by pf row c a /\ is_sent a = true) one.
Proof.
  unfold Reports.send_new.
  destruct (Reports.send pf (Reports.config_name row) c) as [m|] eqn:S.
  - exists [Reports.sent (Reports.config_name row) c m].
    split; [reflexivity|]. split; [cbn; lia|].
    constructor; [|constructor]. split; [|reflexivity].
    cbn [justified_by]. auto.
  - exists []. rewrite app_nil_r. split; [reflexivity|].
    split; [cbn; lia | constructor].
Qed.

Lemma report_step_spec (guild : string) (pf : Reports.platform)
    (row : Reports.ChannelConfig) (c : Z) (t : list Reports.ChannelConfig)
    (acts : list Reports.action) :
  exists one,
    Reports.report_step guild pf row c t acts
    = (fold_left (record_action guild) one t, acts ++ one)
    /\ (List.length one <= 1)%nat
    /\ Forall (justified_by pf row c) one
    /\ (Reports.text_of (Reports.message_id row) = None ->
        forallb is_sent one = true).
Proof.
  assert (S : exists one,
            Reports.send_new guild pf (Reports.config_name row) c t acts
            = (fold_left (record_action guild) one t, acts ++ one)
            /\ (List.length one <= 1)%nat
            /\ Forall (justified_by pf row c) one
            /\ forallb is_sent one = true).
  { destruct (send_new_spec guild pf row c t acts) as (one & E & L & F).
    exists one. split; [exact E|]. split; [exact L|]. split.
    - eapply Forall_impl; [|exact F]. cbv beta. intros a [J _]. exact J.
    - apply forallb_forall. intros a Ha. rewrite Forall_forall in F.
      apply (F a Ha). }
  unfold Reports.report_step.
  destruct (Reports.text_of (Reports.message_id row)) as [mtext|] eqn:M.
  - destruct (PyInt.int mtext) as [m|e] eqn:P.
    + destruct (Reports.can_edit pf c m) eqn:C.
      * exists [Reports.edited (Reports.config_name row) c m].
        split; [reflexivity|]. split; [cbn; lia|]. split; [|discriminate].
        constructor; [|constructor]. cbn [justified_by].
        split; [reflexivity|]. split; [reflexivity|]. exists mtext. auto.
      * destruct S as (one & E & L & F & _). exists one.
        split; [exact E|]. split; [exact L|]. split; [exact F | discriminate].
    + destruct S as (one & E & L & F & _). exists one.
      split; [exact E|]. split; [exact L|]. split; [exact F | discriminate].
  - destruct S as (one & E & L & F & A). exists one.
    split; [exact E|]. split; [exact L|]. split; [exact F|]. intros _. exact A.
Qed.

Lemma justified_weaken (g : Posting.guild) (pf : Reports.platform)
    (row : Reports.ChannelConfig) (rows : list Reports.ChannelConfig)
    (new : list Reports.action) :
  Forall (justified g pf rows) new -> Forall (justified g pf (row :: rows)) new.
Proof.
  intros F. eapply Forall_impl; [|exact F]. cbv beta.
  intros a (r & c & Hin & R). exists r, c. split; [right; exact Hin | exact R].
Qed.

(** The loop: what it did is justified row by row, and the table it leaves
    is the table with the sent messages recorded. *)
Lemma update_rows_spec (guild : string) (g : Posting.guild)
    (pf : Reports.platform) (rows : list Reports.ChannelConfig) :
  forall (t : list Reports.ChannelConfig) (acts : list Reports.action),
  exists new,
    fst (Reports.update_rows guild g pf rows t acts)
    = (fold_left (record_action guild) new t, acts ++ new)
    /\ (List.length new <= List.length rows)%nat
    /\ Forall (justified g pf rows) new.
Proof.
  induction rows as [|row rows IH]; intros t acts.
  - exists []. rewrite app_nil_r. split; [reflexivity|].
    split; [cbn; lia | constructor].
  - assert (Skip : exists new,
              fst (Reports.update_rows guild g pf rows t acts)
              = (fold_left (record_action guild) new t, acts ++ new)
              /\ (List.length new <= List.length (row :: rows))%nat
              /\ Forall (justified g pf (row :: rows)) new).
    { destruct (IH t acts) as (new & E & L & F). exists new.
      split; [exact E|]. split; [cbn [List.length]; lia|].
      apply justified_weaken. exact F. }
    cbn [Reports.update_rows].
    destruct (Reports.text_of (Reports.channel_id row)) as [ctext|] eqn:C;
      [|exact Skip].
    destruct (PyInt.int ctext) as [c|e] eqn:P.
    + destruct (Posting.get_channel g c) as [ch|] eqn:G; [|exact Skip].
      destruct (Text.mem (Reports.config_name row) Reports.report_kinds) eqn:K;
        cbn [negb]; [|exact Skip].
      destruct (report_step_spec guild pf row c t acts) as (one & E1 & L1 & F1 & _).
      rewrite E1.
      destruct (IH (fold_left (record_action guild) one t) (acts ++ one))
        as (new & E2 & L2 & F2).
      exists (one ++ new). rewrite E2, fold_left_app, app_assoc.
      split; [reflexivity|]. split; [rewrite length_app; cbn [List.length]; lia|].
      apply Forall_app. split; [|apply justified_weaken; exact F2].
      eapply Forall_impl; [|exact F1]. cbv beta. intros a J.
      exists row, c. split; [left; reflexivity|]. split; [exact K|].
      split; [exists ctext; auto|]. split; [exists ch; exact G | exact J].
    + exists []. rewrite app_nil_r. split; [reflexivity|].
      split; [cbn; lia | constructor].
Qed.

(** X24: a refresh of the report channels changes nothing in the
    configuration but recorded message ids, and only in rows of the guild:
    the table it leaves is the table with the messages it sent recorded, so
    a refresh that only edited leaves the table as it was; it acts at most
    once per configured row of the guild, and only for a row that names one
    of the four reports and a channel of the guild, editing the recorded
    message when the platform lets it and sending a new one otherwise; and
    when the guild is not found it does nothing. *)
Theorem refresh_records_what_it_sends :
  forall (guild : Z) (g : option Posting.guild) (pf : Reports.platform)
         (t : list Reports.ChannelConfig),
    let r := Reports.update_location_reports guild g pf t in
    let t' := fst (fst r) in
    let acts := snd (fst r) in
    let rows := filter (fun x => opt_eqb (Reports.guild_id x) (Text.str_int guild)) t in
    t' = fold_left (record_action (Text.str_int guild)) acts t
    /\ Forall2 (refreshed (Text.str_int guild)) t t'
    /\ (forallb (fun a => negb (is_sent a)) acts = true -> t' = t)
    /\ (List.length acts <= List.length rows)%nat
    /\ (forall gd, g = Some gd -> Forall (justified gd pf rows) acts)
    /\ (g = None -> r = (t, [], None)).
Proof.
  intros guild g pf t. cbv zeta. unfold Reports.update_location_reports. cbv zeta.
  destruct g as [gd|].
  - destruct (update_rows_spec (Text.str_int guild) gd pf
                (filter (fun x => opt_eqb (Reports.guild_id x) (Text.str_int guild)) t)
                t []) as (new & E & L & F).
    rewrite E. cbn [fst snd app].
    split; [reflexivity|]. split; [apply record_actions_refreshed|].
    split; [intros A; apply record_edits; exact A|]. split; [exact L|].
    split; [|discriminate]. intros gd' H. injection H as <-. exact F.
  - cbn [fst snd fold_left]. split; [reflexivity|].
    split; [apply refreshed_rows_refl|]. split; [reflexivity|].
    split; [cbn; lia|]. split; [discriminate | reflexivity].
Qed.

Lemma justified_config (pf : Reports.platform) (row : Reports.ChannelConfig)
    (c : Z) (a : Reports.action) :
  justified_by pf row c a -> action_config a = Reports.config_name row.
Proof. destruct a; cbn [justified_by action_config]; intros [E _]; exact E. Qed.

Lemma refreshed_rows_names (guild : string) (t t' : list Reports.ChannelConfig) :
  Forall2 (refreshed guild) t t' ->
  map Reports.config_name t' = map Reports.config_name t.
Proof.
  induction 1 as [|r r' t t' (N & _) _ IH]; [reflexivity|].
  cbn [map]. rewrite N, IH. reflexivity.
Qed.

Lemma refreshed_rows_In (guild : string) (t t' : list Reports.ChannelConfig)
    (r' : Reports.ChannelConfig) :
  Forall2 (refreshed guild) t t' -> In r' t' ->
  exists r, In r t /\ refreshed guild r r'.
Proof.
  induction 1 as [|a b t t' R _ IH]; [intros []|].
  intros [<- | Hin].
  - exists a. split; [left; reflexivity | exact R].
  - destruct (IH Hin) as [r [Hr Rr]]. exists r. split; [right; exact Hr | exact Rr].
Qed.

Lemma count_config_names (key : string) (t t' : list Reports.ChannelConfig) :
  map Reports.config_name t' = map Reports.config_name t ->
  count_config key t' = count_config key t.
Proof.
  unfold count_config. revert t'.
  induction t as [|r t IH]; intros [|r' t'] E; try discriminate E; [reflexivity|].
  cbn [map] in E. injection E as E1 E2. cbn [filter]. rewrite E1.
  destruct (String.eqb (Reports.config_name r) key); cbn [List.length];
    rewrite (IH t' E2); reflexivity.
Qed.

(** After [INSERT OR REPLACE] the only row with the name is the new one. *)
Lemma insert_or_replace_key (key channel guild : string)
    (t : list Reports.ChannelConfig) (r : Reports.ChannelConfig) :
  In r (Reports.insert_or_replace key channel guild t) ->
  Reports.config_name r = key ->
  r = Reports.mkChannelConfig key (Some channel) None (Some guild).
Proof.
  unfold Reports.insert_or_replace. intros Hin N. apply in_app_or in Hin.
  destruct Hin as [Hin | [<- | []]]; [|reflexivity].
  apply filter_In in Hin. destruct Hin as [_ Hne].
  rewrite N, String.eqb_refl in Hne. discriminate Hne.
Qed.

Lemma insert_or_replace_count (key channel guild : string)
    (t : list Reports.ChannelConfig) :
  count_config key (Reports.insert_or_replace key channel guild t) = 1%nat.
Proof.
  unfold count_config, Reports.insert_or_replace.
  rewrite filter_app, length_app. cbn [filter Reports.config_name].
  rewrite String.eqb_refl. cbn [List.length].
  replace (filter (fun r => String.eqb (Reports.config_name r) key)
             (filter (fun r => negb (String.eqb (Reports.config_name r) key)) t))
    with (@nil Reports.ChannelConfig); [reflexivity|].
  induction t as [|r t IH]; [reflexivity|]. cbn [filter].
  destruct (String.eqb (Reports.config_name r) key) eqn:K; cbn [negb];
    [exact IH|]. cbn [filter]. rewrite K. exact IH.
Qed.

Lemma insert_or_replace_unique (key channel guild : string)
    (t : list Reports.ChannelConfig) :
  NoDup (map Reports.config_name t) ->
  NoDup (map Reports.config_name (Reports.insert_or_replace key channel guild t)).
Proof.
  unfold Reports.insert_or_replace. rewrite map_app. cbn [map Reports.config_name].
  induction t as [|r t IH]; intros ND; cbn [filter map app].
  - constructor; [intros [] | constructor].
  - inversion ND as [|x l Hx Hl]; subst.
    destruct (String.eqb (Reports.config_name r) key) eqn:K; cbn [negb];
      [apply IH; exact Hl|].
    cbn [map app]. constructor; [|apply IH; exact Hl].
    intros Hin. apply in_app_or in Hin. destruct Hin as [Hin | [E | []]].
    + apply Hx. apply in_map_iff in Hin. destruct Hin as [y [Ey Hy]].
      apply filter_In in Hy. apply in_map_iff. exists y. tauto.
    + rewrite <- E, String.eqb_refl in K. discriminate K.
Qed.

(** Where the recorded message of a row comes from after a refresh. *)
Lemma record_actions_message (guild : string) (acts : list Reports.action) :
  forall (t : list Reports.ChannelConfig) (r' : Reports.ChannelConfig),
    In r' (fold_left (record_action guild) acts t) ->
    exists r,
      In r t /\ refreshed guild r r'
      /\ (Reports.message_id r' = Reports.message_id r
          \/ exists c m,
               In (Reports.sent (Reports.config_name r) c m) acts
               /\ Reports.message_id r' = Some (Text.str_int m)).
Proof.
  induction acts as [|a acts IH]; intros t r' Hin; cbn [fold_left] in Hin.
  - exists r'. split; [exact Hin|]. split; [apply refreshed_refl | left; reflexivity].
  - destruct (IH _ _ Hin) as (r1 & H1 & R1 & M1).
    assert (Back : exists r,
              In r t /\ refreshed guild r r1
              /\ (Reports.message_id r1 = Reports.message_id r
                  \/ exists c m,
                       a = Reports.sent (Reports.config_name r) c m
                       /\ Reports.message_id r1 = Some (Text.str_int m))).
    { destruct a as [k c m | k c m]; cbn [record_action] in H1.
      - exists r1. split; [exact H1|]. split; [apply refreshed_refl|].
        left. reflexivity.
      - unfold Reports.set_message_id in H1. apply in_map_iff in H1.
        destruct H1 as [r [E Hr]]. exists r. split; [exact Hr|].
        destruct (String.eqb (Reports.config_name r) k) eqn:K; cbn [andb] in E;
          [|subst r1; split; [apply refreshed_refl | left; reflexivity]].
        destruct (opt_eqb (Reports.guild_id r) guild) eqn:G;
          [|subst r1; split; [apply refreshed_refl | left; reflexivity]].
        subst r1. split.
        + unfold refreshed.
          cbn [Reports.config_name Reports.channel_id Reports.guild_id].
          repeat split. rewrite G. discriminate.
        + right. exists c, m. apply String.eqb_eq in K. subst k.
          split; reflexivity. }
    destruct Back as (r & Hr & R0 & M0). exists r.
    split; [exact Hr|]. split; [exact (refreshed_trans _ _ _ _ R0 R1)|].
    assert (N : Reports.config_name r1 = Reports.config_name r)
      by (destruct R0 as (N & _); exact N).
    destruct M1 as [E1 | (c & m & I1 & E1)].
    + destruct M0 as [E0 | (c & m & -> & E0)].
      * left. congruence.
      * right. exists c, m. split; [left; reflexivity | congruence].
    + right. exists c, m. split; [right; rewrite <- N; exact I1 | exact E1].
Qed.

(** X25: a [set_..._channel] command without the Manage Channels
    permission changes nothing; with it, the sector grid is initialised and
    the table holds exactly one row under the command's name, for the given
    channel and guild; that row's recorded message is empty or the message
    just sent, and the message recorded before is never edited; the other
    rows keep their names, channels and guilds, and names stay unique; and
    since the name alone is the key, the same report of any other guild is
    gone: a refresh there does nothing for it. *)
Theorem set_channel_replaces_row :
  forall (key : string) (manage_channels : bool) (channel guild : Z)
         (g : option Posting.guild) (pf : Reports.platform) (db : Database)
         (t : list Reports.ChannelConfig),
    let o := Reports.set_channel key manage_channels channel guild g pf db t in
    (manage_channels = false -> o = Reports.mkOutcome db t [] None false)
    /\ (manage_channels = true ->
        Reports.out_accepted o = true
        /\ Reports.out_db o = init_database_locations db
        /\ Forall2 (refreshed (Text.str_int guild))
             (Reports.insert_or_replace key (Text.str_int channel)
                (Text.str_int guild) t)
             (Reports.out_config o)
        /\ count_config key (Reports.out_config o) = 1%nat
        /\ (forall r, In r (Reports.out_config o) ->
              Reports.config_name r = key ->
              Reports.channel_id r = Some (Text.str_int channel)
              /\ Reports.guild_id r = Some (Text.str_int guild)
              /\ (Reports.message_id r = None
                  \/ exists c m,
                       In (Reports.sent key c m) (Reports.out_actions o)
                       /\ Reports.message_id r = Some (Text.str_int m)))
        /\ (forall c m, ~ In (Reports.edited key c m) (Reports.out_actions o))
        /\ (NoDup (map Reports.config_name t) ->
            NoDup (map Reports.config_name (Reports.out_config o)))
        /\ (forall (guild2 : Z) (g2 : option Posting.guild)
                   (pf2 : Reports.platform) (a : Reports.action),
              guild2 <> guild ->
              In a (snd (fst (Reports.update_location_reports guild2 g2 pf2
                                (Reports.out_config o)))) ->
              action_config a <> key)).
Proof.
  intros key manage_channels channel guild g pf db t. cbv zeta.
  unfold Reports.set_channel. cbv zeta.
  destruct manage_channels; cbn [negb]; (split; [intros H | intros H]);
    try discriminate H; try reflexivity.
  clear H.
  remember (Reports.insert_or_replace key (Text.str_int channel)
              (Text.str_int guild) t) as t1 eqn:E1.
  assert (Spec : exists acts,
            fst (Reports.update_location_reports guild g pf t1)
            = (fold_left (record_action (Text.str_int guild)) acts t1, acts)
            /\ forall a, In a acts ->
                 exists row c, In row t1 /\ justified_by pf row c a).
  { unfold Reports.update_location_reports. cbv zeta. destruct g as [gd|].
    - destruct (update_rows_spec (Text.str_int guild) gd pf
                  (filter (fun x => opt_eqb (Reports.guild_id x)
                                      (Text.str_int guild)) t1) t1 [])
        as (new & E & _ & F).
      exists new. split; [exact E|]. intros a Ha. rewrite Forall_forall in F.
      destruct (F a Ha) as (row & c & Hin & _ & _ & _ & J).
      apply filter_In in Hin. exists row, c. tauto.
    - exists []. split; [reflexivity | intros a []]. }
  destruct Spec as (acts & E & J).
  destruct (Reports.update_location_reports guild g pf t1) as [[t2 acts2] e].
  cbn [fst] in E. injection E as -> ->.
  cbn [Reports.out_accepted Reports.out_db Reports.out_config Reports.out_actions].
  pose proof (record_actions_refreshed (Text.str_int guild) acts t1) as R.
  pose proof (refreshed_rows_names _ _ _ R) as N.
  assert (KeyRow : forall r,
            In r (fold_left (record_action (Text.str_int guild)) acts t1) ->
            Reports.config_name r = key ->
            Reports.channel_id r = Some (Text.str_int channel)
            /\ Reports.guild_id r = Some (Text.str_int guild)
            /\ (Reports.message_id r = None
                \/ exists c m,
                     In (Reports.sent key c m) acts
                     /\ Reports.message_id r = Some (Text.str_int m))).
  { intros r Hr Hk.
    destruct (record_actions_message _ _ _ _ Hr) as (r0 & H0 & (N0 & C0 & G0 & _) & M).
    assert (E0 : r0 = Reports.mkChannelConfig key (Some (Text.str_int channel))
                        None (Some (Text.str_int guild))).
    { rewrite E1 in H0. apply (insert_or_replace_key _ _ _ _ _ H0). congruence. }
    rewrite C0, G0, E0. cbn [Reports.channel_id Reports.guild_id].
    split; [reflexivity|]. split; [reflexivity|].
    destruct M as [M | (c & m & I & M)].
    - left. rewrite M, E0. reflexivity.
    - right. exists c, m. rewrite E0 in I. split; [exact I | exact M]. }
  split; [reflexivity|]. split; [reflexivity|]. split; [exact R|].
  split; [rewrite (count_config_names key _ _ N), E1;
          apply insert_or_replace_count|].
  split; [exact KeyRow|]. split; [|split].
  - intros c m Hin. destruct (J _ Hin) as (row & c0 & Hrow & Jb).
    cbn [justified_by] in Jb. destruct Jb as (K & _ & mtext & T & _).
    rewrite E1 in Hrow.
    rewrite (insert_or_replace_key _ _ _ _ _ Hrow (eq_sym K)) in T.
    discriminate T.
  - intros ND. rewrite N, E1. apply insert_or_replace_unique. exact ND.
  - intros guild2 g2 pf2 a Hne Hin Hk.
    unfold Reports.update_location_reports in Hin. cbv zeta in Hin.
    destruct g2 as [gd2|]; [|destruct Hin].
    destruct (update_rows_spec (Text.str_int guild2) gd2 pf2
                (filter (fun x => opt_eqb (Reports.guild_id x)
                                    (Text.str_int guild2))
                   (fold_left (record_action (Text.str_int guild)) acts t1))
                (fold_left (record_action (Text.str_int guild)) acts t1) [])
      as (new & E & _ & F).
    rewrite E in Hin. cbn [snd app] in Hin. rewrite Forall_forall in F.
    destruct (F a Hin) as (row & c & Hrow & _ & _ & _ & Jb).
    apply filter_In in Hrow. destruct Hrow as [Hrow Hg].
    pose proof (justified_config _ _ _ _ Jb) as Hc.
    destruct (KeyRow row Hrow (eq_trans (eq_sym Hc) Hk)) as (_ & G & _).
    rewrite G in Hg. cbn [opt_eqb] in Hg. apply String.eqb_eq in Hg.
    apply Hne. symmetry. apply str_int_injective. exact Hg.
Qed.

(** *** Exports that cannot fail *)

Lemma export_row_no_division (h : House) :
  no_division h = true ->
  exists r,
    export_row h = Ok r
    /\ status_cells r
       = (if is_locked h =? 0 then ("Completed", "100%") else ("Locked", "N/A")).
Proof.
  unfold no_division, export_row. cbv zeta. intros H.
  destruct (is_locked h =? 0) eqn:L; cbn [negb orb] in H |- *.
  - apply andb_true_iff in H. destruct H as [A G].
    apply negb_true_iff in A. rewrite A, G. cbn [bind].
    eexists. split; reflexivity.
  - cbn [bind]. eexists. split; reflexivity.
Qed.

Lemma export_rows_no_division (hs : list House) :
  Forall (fun h => no_division h = true) hs ->
  exists rows,
    export_rows hs = Ok rows
    /\ Forall2 (fun h r =>
                  export_row h = Ok r
                  /\ status_cells r
                     = (if is_locked h =? 0 then ("Completed", "100%")
                        else ("Locked", "N/A"))) hs rows.
Proof.
  induction 1 as [|h hs Hh _ [rows [E F]]].
  - exists []. split; [reflexivity | constructor].
  - destruct (export_row_no_division h Hh) as [r [Er Sr]].
    exists (r :: rows). cbn [export_rows]. rewrite Er, E. cbn [bind].
    split; [reflexivity|]. constructor; [split; assumption | exact F].
Qed.

(** X26: the export succeeds on every table whose rows are locked houses
    or unclaimed houses that reached their goal, with one row per house
    reading "Locked", "N/A" or "Completed", "100%"; so right after a weekly
    reset, whatever the table held before, the export succeeds and every
    row reads "Locked", "N/A". *)
Theorem export_succeeds_without_division :
  forall (db : Database),
    (forallb no_division (houses db) = true ->
     exists rows,
       slash_export_data db = Ok rows
       /\ List.length rows = List.length (houses db)
       /\ Forall2 (fun h r =>
                     export_row h = Ok r
                     /\ status_cells r
                        = (if is_locked h =? 0 then ("Completed", "100%")
                           else ("Locked", "N/A")))
            (get_all_houses db) rows)
    /\ (forall (user t1 t2 : string),
          exists rows,
            slash_export_data (fst (confirm_reset user t1 t2 db)) = Ok rows
            /\ List.length rows = List.length (houses db)
            /\ Forall (fun r => status_cells r = ("Locked", "N/A")) rows).
Proof.
  intros db.
  assert (A : forall d : Database,
            forallb no_division (houses d) = true ->
            exists rows,
              slash_export_data d = Ok rows
              /\ List.length rows = List.length (houses d)
              /\ Forall2 (fun h r =>
                            export_row h = Ok r
                            /\ status_cells r
                               = (if is_locked h =? 0 then ("Completed", "100%")
                                  else ("Locked", "N/A")))
                   (get_all_houses d) rows).
  { intros d H. rewrite forallb_forall in H.
    assert (F : Forall (fun h => no_division h = true) (get_all_houses d)).
    { apply Forall_forall. intros h Hh. apply H.
      apply (Permutation_in h (get_all_houses_perm d)). exact Hh. }
    destruct (export_rows_no_division _ F) as [rows [E R]].
    exists rows. split; [exact E|]. split; [|exact R].
    rewrite <- (Forall2_length R).
    apply Permutation_length, get_all_houses_perm. }
  split; [apply A|].
  intros user t1 t2.
  assert (Locked : forall h, In h (houses (fst (confirm_reset user t1 t2 db))) ->
                             is_locked h = 1).
  { cbn [confirm_reset fst houses with_houses with_reset_log]. intros h Hh.
    apply in_map_iff in Hh. destruct Hh as [h0 [<- _]]. reflexivity. }
  destruct (A (fst (confirm_reset user t1 t2 db))) as (rows & E & L & R).
  { apply forallb_forall. intros h Hh. unfold no_division.
    rewrite (Locked h Hh). reflexivity. }
  exists rows. split; [exact E|]. split.
  - rewrite L. cbn [confirm_reset fst houses with_houses with_reset_log].
    apply length_map.
  - assert (LockedSorted : forall h,
              In h (get_all_houses (fst (confirm_reset user t1 t2 db))) ->
              is_locked h = 1).
    { intros h Hh. apply Locked.
      apply (Permutation_in h (get_all_houses_perm _)). exact Hh. }
    clear E L Locked.
    induction R as [|h r hs rows [_ S] _ IH]; constructor.
    + rewrite S, (LockedSorted h (or_introl eq_refl)). reflexivity.
    + apply IH. intros x Hx. apply LockedSorted. right. exact Hx.
Qed.

(** *** What a weekly reset keeps *)

Lemma reset_house_kept (now who : string) (h h' : House) :
  kept_by_reset h' = kept_by_reset h -> reset_house now who h' = reset_house now who h.
Proof.
  unfold kept_by_reset, reset_house. intros E.
  injection E as E1 E2 E3 E4 E5. rewrite E1, E2, E3, E4, E5. reflexivity.
Qed.

Lemma reset_rows_kept (now who : string) (l l' : list House) :
  map kept_by_reset l' = map kept_by_reset l ->
  map (reset_house now who) l' = map (reset_house now who) l.
Proof.
  revert l'. induction l as [|h l IH]; intros [|h' l'] E; try discriminate E;
    [reflexivity|].
  cbn [map] in *.
  assert (E1 : kept_by_reset h' = kept_by_reset h) by congruence.
  assert (E2 : map kept_by_reset l' = map kept_by_reset l) by congruence.
  rewrite (reset_house_kept now who h h' E1), (IH l' E2). reflexivity.
Qed.

Lemma claim_keeps (house_name : string) (a : option string) (user now : string)
    (db : Database) :
  map kept_by_reset (houses (fst (claim_house_for_alliance house_name a user now db)))
  = map kept_by_reset (houses db)
  /\ other_tables_unchanged db (fst (claim_house_for_alliance house_name a user now db)).
Proof.
  unfold claim_house_for_alliance. cbv zeta. cbn [fst houses with_houses].
  split.
  - unfold update_where. rewrite map_map. apply map_ext. intros h.
    destruct (name_matches house_name h); reflexivity.
  - unfold other_tables_unchanged. cbn. repeat split; reflexivity.
Qed.

Lemma alliance_action_routes (a : alliance_action) (user now : string)
    (db : Database) :
  fst (run_alliance_action a user now db) = db
  \/ exists house al,
       fst (run_alliance_action a user now db)
       = fst (claim_house_for_alliance house al user now db).
Proof.
  destruct a as [house|house|house|house faction|house al];
    cbn [run_alliance_action].
  - right. exists house, (Some ATREIDES). unfold claim_atreides_callback.
    destruct (claim_house_for_alliance house (Some ATREIDES) user now db) as [d s].
    destruct s; reflexivity.
  - right. exists house, (Some HARKONNEN). unfold claim_harkonnen_callback.
    destruct (claim_house_for_alliance house (Some HARKONNEN) user now db) as [d s].
    destruct s; reflexivity.
  - right. exists house, (@None string). unfold unclaim_house_callback.
    destruct (claim_house_for_alliance house None user now db) as [d s].
    destruct s; reflexivity.
  - unfold slash_claim_house. cbv zeta.
    destruct (negb (Text.mem (Text.lower (Text.strip faction)) _));
      [left; reflexivity|].
    destruct (get_house_data house db); [|left; reflexivity].
    right. eexists house, _.
    match goal with
    | |- fst (let '(_, _) := ?c in _) = _ => destruct c as [d s] eqn:E
    end.
    destruct s; cbn [fst]; rewrite E; reflexivity.
  - unfold slash_set_alliance. cbv zeta.
    destruct (get_house_data house db); [|left; reflexivity].
    rewrite (claim_as_update house None VNull user now db eq_refl eq_refl).
    rewrite (claim_as_update house (Some ATREIDES) (VText ATREIDES) user now db
               eq_refl eq_refl).
    rewrite (claim_as_update house (Some HARKONNEN) (VText HARKONNEN) user now
               db eq_refl eq_refl).
    destruct (Text.mem _ ["none"; "null"; "clear"; ""]).
    { right. exists house, (@None string).
      destruct (claim_house_for_alliance house None user now db); reflexivity. }
    destruct (Text.mem _ ["atreides"; "a"]).
    { right. exists house, (Some ATREIDES).
      destruct (claim_house_for_alliance house (Some ATREIDES) user now db);
        reflexivity. }
    destruct (Text.mem _ ["harkonnen"; "h"]).
    { right. exists house, (Some HARKONNEN).
      destruct (claim_house_for_alliance house (Some HARKONNEN) user now db);
        reflexivity. }
    left. reflexivity.
Qed.

Lemma form_rows_kept (house_name : string) (l l' : list House) :
  Forall2 (form_rel house_name) l l' -> map kept_by_reset l' = map kept_by_reset l.
Proof.
  induction 1 as [|h h' l l' [U _] _ IH]; [reflexivity|].
  cbn [map]. rewrite IH. f_equal. unfold untouched_by_update in U.
  destruct U as (a1 & a2 & _ & a4 & a5 & _ & _ & a8 & _).
  unfold kept_by_reset. rewrite a1, a2, a4, a5, a8. reflexivity.
Qed.

Lemma week_action_keeps (db : Database) (w : week_action) :
  map kept_by_reset (houses (run_week_action db w)) = map kept_by_reset (houses db)
  /\ other_tables_unchanged db (run_week_action db w).
Proof.
  assert (Same : other_tables_unchanged db db)
    by (unfold other_tables_unchanged; repeat split; reflexivity).
  destruct w as [a user now | house_name cg dd user now1 now2];
    cbn [run_week_action].
  - destruct (alliance_action_routes a user now db) as [E | (house & al & E)];
      rewrite E; [split; [reflexivity | exact Same] | apply claim_keeps].
  - destruct (update_on_submit_step house_name cg dd user now1 now2 db) as [R O].
    split; [exact (form_rows_kept _ _ _ R) | exact O].
Qed.

(** X27: the weekly reset forgets the week: after any sequence of claim
    actions (buttons and commands) and update-form submissions, the houses
    the reset leaves are exactly those it would have left without them, and
    the reset log gets the same new key; only the number of claimed houses
    it logs can differ.  No such sequence touches a table other than
    [houses], nor a house's key, name, goal, points per delivery or
    notes. *)
Theorem weekly_reset_forgets_the_week :
  forall (actions : list week_action) (user t1 t2 : string) (db : Database),
    let db' := run_week actions db in
    map kept_by_reset (houses db') = map kept_by_reset (houses db)
    /\ other_tables_unchanged db db'
    /\ houses (fst (confirm_reset user t1 t2 db'))
       = houses (fst (confirm_reset user t1 t2 db))
    /\ map log_id (reset_log (fst (confirm_reset user t1 t2 db')))
       = map log_id (reset_log (fst (confirm_reset user t1 t2 db)))
    /\ seq_reset_log (fst (confirm_reset user t1 t2 db'))
       = seq_reset_log (fst (confirm_reset user t1 t2 db)).
Proof.
  intros actions user t1 t2 db. cbv zeta.
  assert (K : map kept_by_reset (houses (run_week actions db))
              = map kept_by_reset (houses db)
              /\ other_tables_unchanged db (run_week actions db)).
  { unfold run_week. revert db.
    induction actions as [|w actions IH]; intros db; cbn [fold_left].
    - split; [reflexivity|].
      unfold other_tables_unchanged; repeat split; reflexivity.
    - destruct (week_action_keeps db w) as [K1 O1].
      destruct (IH (run_week_action db w)) as [K2 O2].
      split; [congruence|].
      unfold other_tables_unchanged in *.
      destruct O1 as (a1 & a2 & a3 & a4 & a5 & a6 & a7 & a8 & a9 & a10 & a11 & a12).
      destruct O2 as (b1 & b2 & b3 & b4 & b5 & b6 & b7 & b8 & b9 & b10 & b11 & b12).
      repeat split; congruence. }
  destruct K as [K O]. split; [exact K|]. split; [exact O|].
  remember (run_week actions db) as db' eqn:E. clear E.
  unfold other_tables_unchanged in O.
  destruct O as (_ & L & S & _).
  unfold confirm_reset. cbv zeta.
  cbn [fst houses reset_log seq_reset_log with_houses with_reset_log].
  rewrite L, S, (reset_rows_kept t1 user _ _ K).
  split; [reflexivity|]. split; [|reflexivity].
  rewrite !map_app. reflexivity.
Qed.

(** *** Reading back what was written *)

Lemma update_lookup (house_name field : string) (v : Value) (user now : string)
    (db : Database) :
  get_house_data house_name
    (fst (execute_update house_name field v user now db))
  = option_map (fun h => stamp now user (set_field field v h))
      (get_house_data house_name db).
Proof.
  unfold execute_update, get_house_data.
  cbn [negb fst houses with_houses].
  apply find_update_where. intros h. reflexivity.
Qed.

(** The house read after a write that was executed. *)
Lemma update_then_lookup (house_name field : string) (v : Value)
    (user now : string) (db : Database) :
  Text.mem field allowed_fields = true ->
  match update_house_data house_name field v user now db with
  | Ok (db', _) => get_house_data house_name db'
  | Raise _ => None
  end
  = if bindable v
    then option_map (fun h => stamp now user (set_field field v h))
           (get_house_data house_name db)
    else None.
Proof.
  intros A. unfold update_house_data. rewrite A. cbn [negb].
  destruct (bindable v); cbn [negb]; [|reflexivity].
  rewrite <- update_lookup.
  destruct (execute_update house_name field v user now db); reflexivity.
Qed.

(** X28: a house looked up right after [update_house_data] wrote one of
    its nine columns holds the written value in that column (a text column
    what was bound, an integer column the integer), the acting user and the
    time in its stamps, and its key, name and goal as before; it is found
    exactly when it was found before.  An integer outside 64 bits is not
    written: the call raises [OverflowError] and there is nothing to look
    up. *)
Theorem lookup_after_update_reads_the_write :
  forall (house_name : string) (v : Value) (z : Z) (user now : string)
         (db : Database),
    let after field val :=
      match update_house_data house_name field val user now db with
      | Ok (db', _) => get_house_data house_name db'
      | Raise _ => None
      end in
    (forall field val,
       Text.mem field allowed_fields = true -> bindable val = true ->
       (after field val = None <-> get_house_data house_name db = None)
       /\ forall h', after field val = Some h' ->
            updated_by h' = user /\ last_updated h' = now
            /\ exists h, get_house_data house_name db = Some h
                         /\ identity_kept h h')
    /\ (forall field val,
          Text.mem field allowed_fields = true -> bindable val = false ->
          update_house_data house_name field val user now db
          = Raise OverflowError)
    /\ (forall h', after "quest" v = Some h' -> quest h' = stored_text v)
    /\ (forall h', after "completed_by" v = Some h' ->
          completed_by h' = stored_text v)
    /\ (forall h', after "notes" v = Some h' -> notes h' = stored_text v)
    /\ (forall h', after "desert_location" v = Some h' ->
          desert_location h' = stored_text v)
    /\ (forall h', after "alliance" v = Some h' -> alliance h' = stored_text v)
    /\ (forall h', after "current_goal" (VInt z) = Some h' -> current_goal h' = z)
    /\ (forall h', after "points_per_delivery" (VInt z) = Some h' ->
          points_per_delivery h' = z)
    /\ (forall h', after "is_locked" (VInt z) = Some h' -> is_locked h' = z)
    /\ (forall h', after "deep_desert_cp" (VInt z) = Some h' ->
          deep_desert_cp h' = z).
Proof.
  intros house_name v z user now db. cbv zeta.
  assert (R : forall field val h',
            Text.mem field allowed_fields = true ->
            match update_house_data house_name field val user now db with
            | Ok (db', _) => get_house_data house_name db'
            | Raise _ => None
            end = Some h' ->
            exists h, get_house_data house_name db = Some h
                      /\ h' = stamp now user (set_field field val h)).
  { intros field val h' A G. rewrite (update_then_lookup _ _ _ _ _ _ A) in G.
    destruct (bindable val); [|discriminate G].
    destruct (get_house_data house_name db) as [h|]; [|discriminate G].
    cbn [option_map] in G. injection G as <-. exists h. split; reflexivity. }
  split.
  { intros field val A B. split.
    - rewrite (update_then_lookup _ _ _ _ _ _ A), B.
      destruct (get_house_data house_name db); cbn [option_map];
        split; intros H; try discriminate H; reflexivity.
    - intros h' G. destruct (R field val h' A G) as (h & Gh & ->).
      split; [reflexivity|]. split; [reflexivity|].
      exists h. split; [exact Gh|]. unfold identity_kept. repeat split; reflexivity. }
  split.
  { intros field val A B. unfold update_house_data. rewrite A, B. reflexivity. }
  repeat split; intros h' G;
    match type of G with
    | match update_house_data _ ?f ?val _ _ _ with _ => _ end = _ =>
        destruct (R f val h' eq_refl G) as (h & _ & ->)
    end; reflexivity.
Qed.
